(** * pathsteerd: the edge failover controller, embedded and verified

    A shallow embedding of [src/pathsteerd/pathsteerd.c].  The C globals
    ([g_config], [g_uplinks], [g_status]) and the pieces of the operating
    system the daemon drives (the nftables duplication table of [ns_vip],
    the JSONL log) are gathered in one [world] value that every function
    takes and returns.  Everything the daemon reads from outside (the clock,
    probe results, helper outputs, the result of the route verification) is
    an explicit argument of the function that reads it.

    Numeric conventions.
    - [int] and [int64_t] are [Z].  Timestamps are [gettimeofday] readings
      in microseconds; the counters are far from the limits of their types,
      and C's truncating [/] and [%] are [Z.quot] and [Z.rem].
    - A finite [double] is the rational number it denotes, a [Q];
      infinities and NaN are outside the model.  Comparisons of doubles are
      exact.  The functions of the main loop compute on these numbers
      without rounding.  The two computations on which a claim about a
      numeric decision turns, the RTT step of [tripwire_check] and the score
      of [select_best_uplink], are also given with every operation rounded
      by a function [fl] ([tripwire_check_fl], [select_best_uplink_fl]):
      with [round_double], round-to-nearest-even to binary64, they compute
      what the code computes when each C operation is rounded on its own
      (no fused multiply-add), and with the identity they are the functions
      of the main loop.
    - The fixed buffers [g_last_cmd_id] (64 bytes) and [g_last_cmd_detail]
      (128 bytes) keep the first 63 and 127 characters of what is written
      to them ([truncate]).
    - [uplink_id_t] is used as an array index and in modular arithmetic, so
      it is a [nat] below [UPLINK_COUNT]. *)

From Stdlib Require Import ZArith QArith Qpower Qround Qabs Lqa Bool String Ascii List Lia DecimalString.
From stdpp Require Import base list.
Import ListNotations.

Local Open Scope string_scope.
Local Open Scope Z_scope.

(** ** Constants *)

Definition UPLINK_COUNT : nat := 6.
Definition HISTORY_SIZE : Z := 100.
Definition DEFAULT_RTT_STEP_MS : Z := 80.
Definition DEFAULT_RTT_WINDOW_MS : Z := 200.
Definition DEFAULT_PROBE_MISS_COUNT : Z := 2.
Definition DEFAULT_PROBE_MISS_WINDOW : Z := 300.
Definition DEFAULT_RSRP_DROP_DB : Z := 8.
Definition DEFAULT_SINR_DROP_DB : Z := 6.
Definition DEFAULT_PREROLL_MS : Z := 500.
Definition DEFAULT_MIN_HOLD_SEC : Z := 3.
Definition DEFAULT_CLEAN_EXIT_SEC : Z := 2.
Definition RISK_INTERVAL_MS : Z := 250.
Definition DUP_SETTLE_MS : Z := 50.
Definition STATUS_INTERVAL_MS : Z := 100.
Definition RAND_MAX : Z := 2147483647.

(** ** Enumerations *)

Inductive op_mode_t := MODE_TRAINING | MODE_TRIPWIRE | MODE_MIRROR.

Inductive sys_state_t :=
  STATE_NORMAL | STATE_PREPARE | STATE_PROTECT | STATE_SWITCHING | STATE_HOLDING.

Inductive uplink_type_t := UPLINK_TYPE_LTE | UPLINK_TYPE_STARLINK | UPLINK_TYPE_FIBER.

Inductive trigger_t :=
  | TRIGGER_NONE | TRIGGER_RTT_STEP | TRIGGER_PROBE_MISS | TRIGGER_LINK_DOWN
  | TRIGGER_RSRP_DROP | TRIGGER_SINR_DROP | TRIGGER_STARLINK_OBSTR
  | TRIGGER_PREDICTED | TRIGGER_MANUAL.

Definition UPLINK_CELL_A : nat := 0.
Definition UPLINK_CELL_B : nat := 1.
Definition UPLINK_SL_A : nat := 2.
Definition UPLINK_SL_B : nat := 3.
Definition UPLINK_FIBER1 : nat := 4.
Definition UPLINK_FIBER2 : nat := 5.

Definition MODE_NAMES (m : op_mode_t) : string :=
  match m with
  | MODE_TRAINING => "TRAINING" | MODE_TRIPWIRE => "TRIPWIRE" | MODE_MIRROR => "MIRROR"
  end.

Definition TRIGGER_NAMES (t : trigger_t) : string :=
  match t with
  | TRIGGER_NONE => "none" | TRIGGER_RTT_STEP => "rtt_step"
  | TRIGGER_PROBE_MISS => "probe_miss" | TRIGGER_LINK_DOWN => "link_down"
  | TRIGGER_RSRP_DROP => "rsrp_drop" | TRIGGER_SINR_DROP => "sinr_drop"
  | TRIGGER_STARLINK_OBSTR => "starlink_obstruction"
  | TRIGGER_PREDICTED => "predicted" | TRIGGER_MANUAL => "manual"
  end.

Definition UPLINK_NAMES : list string :=
  ["cell_a"; "cell_b"; "sl_a"; "sl_b"; "fa"; "fb"].
Definition VIP_DEVS : list string :=
  ["vip_cell_a"; "vip_cell_b"; "vip_sl_a"; "vip_sl_b"; "vip_fa"; "vip_fb"].
Definition VIP_GWS : list string :=
  ["10.201.10.18"; "10.201.10.22"; "10.201.10.10"; "10.201.10.14";
   "10.201.10.2"; "10.201.10.6"].

Definition mode_eqb (a b : op_mode_t) : bool :=
  match a, b with
  | MODE_TRAINING, MODE_TRAINING | MODE_TRIPWIRE, MODE_TRIPWIRE
  | MODE_MIRROR, MODE_MIRROR => true
  | _, _ => false
  end.

Definition type_eqb (a b : uplink_type_t) : bool :=
  match a, b with
  | UPLINK_TYPE_LTE, UPLINK_TYPE_LTE | UPLINK_TYPE_STARLINK, UPLINK_TYPE_STARLINK
  | UPLINK_TYPE_FIBER, UPLINK_TYPE_FIBER => true
  | _, _ => false
  end.

(** ** Comparisons on [double] *)

Definition Qltb (x y : Q) : bool := negb (Qle_bool y x).
Definition Qgtb (x y : Q) : bool := Qltb y x.
Definition Qgeb (x y : Q) : bool := Qle_bool y x.

(** ** Arithmetic on [double]

    The result of an operation on doubles is the exact result rounded to
    the nearest double, ties to the even mantissa.  [round_double x] is
    that rounding for a real [x] of magnitude below [2^1024]. *)

(** [floor (log2 y)], for [y > 0]. *)
Definition qlog2 (y : Q) : Z :=
  let e0 := Z.log2 (Qnum y) - Z.log2 (Z.pos (Qden y)) in
  if Qle_bool (2 ^ e0) y then e0 else e0 - 1.

(** The integer nearest to [m], the even one of two that are equally near. *)
Definition round_half_even (m : Q) : Z :=
  let f := Qfloor m in
  let r := (m - inject_Z f)%Q in
  if Qle_bool r (1 # 2)
  then if Qle_bool (1 # 2) r then (if Z.even f then f else f + 1) else f
  else f + 1.

(** Binary64: 53 bits of mantissa, the exponent of the smallest normal
    number is -1022, and below it the spacing stays [2^-1074]. *)
Definition round_double (x : Q) : Q :=
  if Qeq_bool x 0 then 0%Q
  else
    let e := Z.max (qlog2 (Qabs x)) (-1022) in
    let q := (2 ^ (e - 52))%Q in
    (inject_Z (round_half_even (x / q)) * q)%Q.

(** [fl] moves no number of [[-M, M]] by more than [theta]. *)
Definition rounds_within (theta M : Q) (fl : Q -> Q) : Prop :=
  forall x : Q, (- M <= x <= M)%Q -> (- theta <= fl x - x <= theta)%Q.

(** Up to [2^22] the doubles are at most [2^-30] apart, so rounding to the
    nearest moves a number by [2^-31] at most. *)
Definition ROUND_RANGE : Q := 4194304.
Definition ROUND_ERR : Q := 1 # 2147483648.

Definition double_rounding (fl : Q -> Q) : Prop :=
  rounds_within ROUND_ERR ROUND_RANGE fl.

(** ** Records *)

Record probe_t := mk_probe {
  p_rtt_ms : Q;
  p_success : bool;
  p_timestamp_us : Z
}.

Record cellular_t := mk_cellular {
  rsrp : Q;
  sinr : Q;
  carrier : string
}.

Record starlink_t := mk_starlink {
  sl_connected : bool;
  online : bool;
  sl_state : string;
  latency_ms : Q;
  downlink_mbps : Q;
  uplink_mbps : Q;
  obstructed : bool;
  obstruction_pct : Q;
  obstruction_eta : Z
}.

Record uplink_t := mk_uplink {
  name : string;
  interface : string;
  netns : string;
  veth : string;
  u_id : nat;
  u_type : uplink_type_t;
  enabled : bool;
  available : bool;
  force_failed : bool;
  chaos_rtt : Q;
  chaos_jitter : Q;
  chaos_loss : Q;
  is_active : bool;
  rtt_ms : Q;
  rtt_baseline : Q;
  loss_pct : Q;
  consec_fail : Z;
  cellular : cellular_t;
  starlink : starlink_t;
  history : list probe_t;
  history_idx : Z;
  risk_now : Q
}.

Record status_t := mk_status {
  mode : op_mode_t;
  state : sys_state_t;
  last_trigger : trigger_t;
  trigger_detail : string;
  active_uplink : nat;
  force_locked : bool;
  active_controller : Z;
  dup_enabled : bool;
  dup_enabled_at_us : Z;
  dup_engaged_at_us : Z;
  protect_start_us : Z;
  switch_start_us : Z;
  last_clean_us : Z;
  switches_this_window : Z;
  hold_remaining_sec : Z;
  clean_remaining_sec : Z;
  flap_suppressed : bool;
  global_risk : Q;
  recommendation : string
}.

Record config_t := mk_config {
  rtt_step_ms : Z;
  rtt_window_ms : Z;
  probe_miss_count : Z;
  probe_miss_window_ms : Z;
  rsrp_drop_db : Z;
  sinr_drop_db : Z;
  preroll_ms : Z;
  min_hold_sec : Z;
  clean_exit_sec : Z;
  gps_enabled : bool;
  pcap_enabled : bool;
  sample_rate_hz : Z
}.

(** The single rule of [dup_table] in [ns_vip]:
    [oif src dup to gw device dst]. *)
Record dup_rule := mk_rule {
  rule_src : string;
  rule_gw : string;
  rule_dst : string
}.

(** The whole state the daemon owns or drives.  [g_log] holds the event
    types passed to [log_event], newest first. *)
Record world := mk_world {
  g_config : config_t;
  g_uplinks : list uplink_t;
  g_status : status_t;
  dup_table : option dup_rule;
  g_log : list string;
  g_last_cmd_id : string;
  g_last_cmd_result : string;
  g_last_cmd_detail : string;
  last_poll_cell_a : Z;
  last_poll_cell_b : Z
}.

(** ** Field updates

    C assigns to one field of a struct in place; [set_f v r] is the record
    [r] with field [f] replaced by [v]. *)

Definition set_enabled v (r : uplink_t) : uplink_t :=
  mk_uplink (name r) (interface r) (netns r) (veth r) (u_id r) (u_type r) v
    (available r) (force_failed r) (chaos_rtt r) (chaos_jitter r) (chaos_loss
    r) (is_active r) (rtt_ms r) (rtt_baseline r) (loss_pct r) (consec_fail r)
    (cellular r) (starlink r) (history r) (history_idx r) (risk_now r).
Definition set_available v (r : uplink_t) : uplink_t :=
  mk_uplink (name r) (interface r) (netns r) (veth r) (u_id r) (u_type r)
    (enabled r) v (force_failed r) (chaos_rtt r) (chaos_jitter r) (chaos_loss
    r) (is_active r) (rtt_ms r) (rtt_baseline r) (loss_pct r) (consec_fail r)
    (cellular r) (starlink r) (history r) (history_idx r) (risk_now r).
Definition set_force_failed v (r : uplink_t) : uplink_t :=
  mk_uplink (name r) (interface r) (netns r) (veth r) (u_id r) (u_type r)
    (enabled r) (available r) v (chaos_rtt r) (chaos_jitter r) (chaos_loss r)
    (is_active r) (rtt_ms r) (rtt_baseline r) (loss_pct r) (consec_fail r)
    (cellular r) (starlink r) (history r) (history_idx r) (risk_now r).
Definition set_chaos_rtt v (r : uplink_t) : uplink_t :=
  mk_uplink (name r) (interface r) (netns r) (veth r) (u_id r) (u_type r)
    (enabled r) (available r) (force_failed r) v (chaos_jitter r) (chaos_loss
    r) (is_active r) (rtt_ms r) (rtt_baseline r) (loss_pct r) (consec_fail r)
    (cellular r) (starlink r) (history r) (history_idx r) (risk_now r).
Definition set_chaos_jitter v (r : uplink_t) : uplink_t :=
  mk_uplink (name r) (interface r) (netns r) (veth r) (u_id r) (u_type r)
    (enabled r) (available r) (force_failed r) (chaos_rtt r) v (chaos_loss r)
    (is_active r) (rtt_ms r) (rtt_baseline r) (loss_pct r) (consec_fail r)
    (cellular r) (starlink r) (history r) (history_idx r) (risk_now r).
Definition set_chaos_loss v (r : uplink_t) : uplink_t :=
  mk_uplink (name r) (interface r) (netns r) (veth r) (u_id r) (u_type r)
    (enabled r) (available r) (force_failed r) (chaos_rtt r) (chaos_jitter r)
    v (is_active r) (rtt_ms r) (rtt_baseline r) (loss_pct r) (consec_fail r)
    (cellular r) (starlink r) (history r) (history_idx r) (risk_now r).
Definition set_is_active v (r : uplink_t) : uplink_t :=
  mk_uplink (name r) (interface r) (netns r) (veth r) (u_id r) (u_type r)
    (enabled r) (available r) (force_failed r) (chaos_rtt r) (chaos_jitter r)
    (chaos_loss r) v (rtt_ms r) (rtt_baseline r) (loss_pct r) (consec_fail r)
    (cellular r) (starlink r) (history r) (history_idx r) (risk_now r).
Definition set_rtt_ms v (r : uplink_t) : uplink_t :=
  mk_uplink (name r) (interface r) (netns r) (veth r) (u_id r) (u_type r)
    (enabled r) (available r) (force_failed r) (chaos_rtt r) (chaos_jitter r)
    (chaos_loss r) (is_active r) v (rtt_baseline r) (loss_pct r) (consec_fail
    r) (cellular r) (starlink r) (history r) (history_idx r) (risk_now r).
Definition set_rtt_baseline v (r : uplink_t) : uplink_t :=
  mk_uplink (name r) (interface r) (netns r) (veth r) (u_id r) (u_type r)
    (enabled r) (available r) (force_failed r) (chaos_rtt r) (chaos_jitter r)
    (chaos_loss r) (is_active r) (rtt_ms r) v (loss_pct r) (consec_fail r)
    (cellular r) (starlink r) (history r) (history_idx r) (risk_now r).
Definition set_loss_pct v (r : uplink_t) : uplink_t :=
  mk_uplink (name r) (interface r) (netns r) (veth r) (u_id r) (u_type r)
    (enabled r) (available r) (force_failed r) (chaos_rtt r) (chaos_jitter r)
    (chaos_loss r) (is_active r) (rtt_ms r) (rtt_baseline r) v (consec_fail
    r) (cellular r) (starlink r) (history r) (history_idx r) (risk_now r).
Definition set_consec_fail v (r : uplink_t) : uplink_t :=
  mk_uplink (name r) (interface r) (netns r) (veth r) (u_id r) (u_type r)
    (enabled r) (available r) (force_failed r) (chaos_rtt r) (chaos_jitter r)
    (chaos_loss r) (is_active r) (rtt_ms r) (rtt_baseline r) (loss_pct r) v
    (cellular r) (starlink r) (history r) (history_idx r) (risk_now r).
Definition set_cellular v (r : uplink_t) : uplink_t :=
  mk_uplink (name r) (interface r) (netns r) (veth r) (u_id r) (u_type r)
    (enabled r) (available r) (force_failed r) (chaos_rtt r) (chaos_jitter r)
    (chaos_loss r) (is_active r) (rtt_ms r) (rtt_baseline r) (loss_pct r)
    (consec_fail r) v (starlink r) (history r) (history_idx r) (risk_now r).
Definition set_starlink v (r : uplink_t) : uplink_t :=
  mk_uplink (name r) (interface r) (netns r) (veth r) (u_id r) (u_type r)
    (enabled r) (available r) (force_failed r) (chaos_rtt r) (chaos_jitter r)
    (chaos_loss r) (is_active r) (rtt_ms r) (rtt_baseline r) (loss_pct r)
    (consec_fail r) (cellular r) v (history r) (history_idx r) (risk_now r).
Definition set_history v (r : uplink_t) : uplink_t :=
  mk_uplink (name r) (interface r) (netns r) (veth r) (u_id r) (u_type r)
    (enabled r) (available r) (force_failed r) (chaos_rtt r) (chaos_jitter r)
    (chaos_loss r) (is_active r) (rtt_ms r) (rtt_baseline r) (loss_pct r)
    (consec_fail r) (cellular r) (starlink r) v (history_idx r) (risk_now r).
Definition set_history_idx v (r : uplink_t) : uplink_t :=
  mk_uplink (name r) (interface r) (netns r) (veth r) (u_id r) (u_type r)
    (enabled r) (available r) (force_failed r) (chaos_rtt r) (chaos_jitter r)
    (chaos_loss r) (is_active r) (rtt_ms r) (rtt_baseline r) (loss_pct r)
    (consec_fail r) (cellular r) (starlink r) (history r) v (risk_now r).
Definition set_risk_now v (r : uplink_t) : uplink_t :=
  mk_uplink (name r) (interface r) (netns r) (veth r) (u_id r) (u_type r)
    (enabled r) (available r) (force_failed r) (chaos_rtt r) (chaos_jitter r)
    (chaos_loss r) (is_active r) (rtt_ms r) (rtt_baseline r) (loss_pct r)
    (consec_fail r) (cellular r) (starlink r) (history r) (history_idx r) v.

Definition set_mode v (r : status_t) : status_t :=
  mk_status v (state r) (last_trigger r) (trigger_detail r) (active_uplink r)
    (force_locked r) (active_controller r) (dup_enabled r) (dup_enabled_at_us
    r) (dup_engaged_at_us r) (protect_start_us r) (switch_start_us r)
    (last_clean_us r) (switches_this_window r) (hold_remaining_sec r)
    (clean_remaining_sec r) (flap_suppressed r) (global_risk r)
    (recommendation r).
Definition set_state v (r : status_t) : status_t :=
  mk_status (mode r) v (last_trigger r) (trigger_detail r) (active_uplink r)
    (force_locked r) (active_controller r) (dup_enabled r) (dup_enabled_at_us
    r) (dup_engaged_at_us r) (protect_start_us r) (switch_start_us r)
    (last_clean_us r) (switches_this_window r) (hold_remaining_sec r)
    (clean_remaining_sec r) (flap_suppressed r) (global_risk r)
    (recommendation r).
Definition set_last_trigger v (r : status_t) : status_t :=
  mk_status (mode r) (state r) v (trigger_detail r) (active_uplink r)
    (force_locked r) (active_controller r) (dup_enabled r) (dup_enabled_at_us
    r) (dup_engaged_at_us r) (protect_start_us r) (switch_start_us r)
    (last_clean_us r) (switches_this_window r) (hold_remaining_sec r)
    (clean_remaining_sec r) (flap_suppressed r) (global_risk r)
    (recommendation r).
Definition set_trigger_detail v (r : status_t) : status_t :=
  mk_status (mode r) (state r) (last_trigger r) v (active_uplink r)
    (force_locked r) (active_controller r) (dup_enabled r) (dup_enabled_at_us
    r) (dup_engaged_at_us r) (protect_start_us r) (switch_start_us r)
    (last_clean_us r) (switches_this_window r) (hold_remaining_sec r)
    (clean_remaining_sec r) (flap_suppressed r) (global_risk r)
    (recommendation r).
Definition set_active_uplink v (r : status_t) : status_t :=
  mk_status (mode r) (state r) (last_trigger r) (trigger_detail r) v
    (force_locked r) (active_controller r) (dup_enabled r) (dup_enabled_at_us
    r) (dup_engaged_at_us r) (protect_start_us r) (switch_start_us r)
    (last_clean_us r) (switches_this_window r) (hold_remaining_sec r)
    (clean_remaining_sec r) (flap_suppressed r) (global_risk r)
    (recommendation r).
Definition set_force_locked v (r : status_t) : status_t :=
  mk_status (mode r) (state r) (last_trigger r) (trigger_detail r)
    (active_uplink r) v (active_controller r) (dup_enabled r)
    (dup_enabled_at_us r) (dup_engaged_at_us r) (protect_start_us r)
    (switch_start_us r) (last_clean_us r) (switches_this_window r)
    (hold_remaining_sec r) (clean_remaining_sec r) (flap_suppressed r)
    (global_risk r) (recommendation r).
Definition set_active_controller v (r : status_t) : status_t :=
  mk_status (mode r) (state r) (last_trigger r) (trigger_detail r)
    (active_uplink r) (force_locked r) v (dup_enabled r) (dup_enabled_at_us
    r) (dup_engaged_at_us r) (protect_start_us r) (switch_start_us r)
    (last_clean_us r) (switches_this_window r) (hold_remaining_sec r)
    (clean_remaining_sec r) (flap_suppressed r) (global_risk r)
    (recommendation r).
Definition set_dup_enabled v (r : status_t) : status_t :=
  mk_status (mode r) (state r) (last_trigger r) (trigger_detail r)
    (active_uplink r) (force_locked r) (active_controller r) v
    (dup_enabled_at_us r) (dup_engaged_at_us r) (protect_start_us r)
    (switch_start_us r) (last_clean_us r) (switches_this_window r)
    (hold_remaining_sec r) (clean_remaining_sec r) (flap_suppressed r)
    (global_risk r) (recommendation r).
Definition set_dup_enabled_at_us v (r : status_t) : status_t :=
  mk_status (mode r) (state r) (last_trigger r) (trigger_detail r)
    (active_uplink r) (force_locked r) (active_controller r) (dup_enabled r)
    v (dup_engaged_at_us r) (protect_start_us r) (switch_start_us r)
    (last_clean_us r) (switches_this_window r) (hold_remaining_sec r)
    (clean_remaining_sec r) (flap_suppressed r) (global_risk r)
    (recommendation r).
Definition set_dup_engaged_at_us v (r : status_t) : status_t :=
  mk_status (mode r) (state r) (last_trigger r) (trigger_detail r)
    (active_uplink r) (force_locked r) (active_controller r) (dup_enabled r)
    (dup_enabled_at_us r) v (protect_start_us r) (switch_start_us r)
    (last_clean_us r) (switches_this_window r) (hold_remaining_sec r)
    (clean_remaining_sec r) (flap_suppressed r) (global_risk r)
    (recommendation r).
Definition set_protect_start_us v (r : status_t) : status_t :=
  mk_status (mode r) (state r) (last_trigger r) (trigger_detail r)
    (active_uplink r) (force_locked r) (active_controller r) (dup_enabled r)
    (dup_enabled_at_us r) (dup_engaged_at_us r) v (switch_start_us r)
    (last_clean_us r) (switches_this_window r) (hold_remaining_sec r)
    (clean_remaining_sec r) (flap_suppressed r) (global_risk r)
    (recommendation r).
Definition set_switch_start_us v (r : status_t) : status_t :=
  mk_status (mode r) (state r) (last_trigger r) (trigger_detail r)
    (active_uplink r) (force_locked r) (active_controller r) (dup_enabled r)
    (dup_enabled_at_us r) (dup_engaged_at_us r) (protect_start_us r) v
    (last_clean_us r) (switches_this_window r) (hold_remaining_sec r)
    (clean_remaining_sec r) (flap_suppressed r) (global_risk r)
    (recommendation r).
Definition set_last_clean_us v (r : status_t) : status_t :=
  mk_status (mode r) (state r) (last_trigger r) (trigger_detail r)
    (active_uplink r) (force_locked r) (active_controller r) (dup_enabled r)
    (dup_enabled_at_us r) (dup_engaged_at_us r) (protect_start_us r)
    (switch_start_us r) v (switches_this_window r) (hold_remaining_sec r)
    (clean_remaining_sec r) (flap_suppressed r) (global_risk r)
    (recommendation r).
Definition set_switches_this_window v (r : status_t) : status_t :=
  mk_status (mode r) (state r) (last_trigger r) (trigger_detail r)
    (active_uplink r) (force_locked r) (active_controller r) (dup_enabled r)
    (dup_enabled_at_us r) (dup_engaged_at_us r) (protect_start_us r)
    (switch_start_us r) (last_clean_us r) v (hold_remaining_sec r)
    (clean_remaining_sec r) (flap_suppressed r) (global_risk r)
    (recommendation r).
Definition set_hold_remaining_sec v (r : status_t) : status_t :=
  mk_status (mode r) (state r) (last_trigger r) (trigger_detail r)
    (active_uplink r) (force_locked r) (active_controller r) (dup_enabled r)
    (dup_enabled_at_us r) (dup_engaged_at_us r) (protect_start_us r)
    (switch_start_us r) (last_clean_us r) (switches_this_window r) v
    (clean_remaining_sec r) (flap_suppressed r) (global_risk r)
    (recommendation r).
Definition set_clean_remaining_sec v (r : status_t) : status_t :=
  mk_status (mode r) (state r) (last_trigger r) (trigger_detail r)
    (active_uplink r) (force_locked r) (active_controller r) (dup_enabled r)
    (dup_enabled_at_us r) (dup_engaged_at_us r) (protect_start_us r)
    (switch_start_us r) (last_clean_us r) (switches_this_window r)
    (hold_remaining_sec r) v (flap_suppressed r) (global_risk r)
    (recommendation r).
Definition set_flap_suppressed v (r : status_t) : status_t :=
  mk_status (mode r) (state r) (last_trigger r) (trigger_detail r)
    (active_uplink r) (force_locked r) (active_controller r) (dup_enabled r)
    (dup_enabled_at_us r) (dup_engaged_at_us r) (protect_start_us r)
    (switch_start_us r) (last_clean_us r) (switches_this_window r)
    (hold_remaining_sec r) (clean_remaining_sec r) v (global_risk r)
    (recommendation r).
Definition set_global_risk v (r : status_t) : status_t :=
  mk_status (mode r) (state r) (last_trigger r) (trigger_detail r)
    (active_uplink r) (force_locked r) (active_controller r) (dup_enabled r)
    (dup_enabled_at_us r) (dup_engaged_at_us r) (protect_start_us r)
    (switch_start_us r) (last_clean_us r) (switches_this_window r)
    (hold_remaining_sec r) (clean_remaining_sec r) (flap_suppressed r) v
    (recommendation r).
Definition set_recommendation v (r : status_t) : status_t :=
  mk_status (mode r) (state r) (last_trigger r) (trigger_detail r)
    (active_uplink r) (force_locked r) (active_controller r) (dup_enabled r)
    (dup_enabled_at_us r) (dup_engaged_at_us r) (protect_start_us r)
    (switch_start_us r) (last_clean_us r) (switches_this_window r)
    (hold_remaining_sec r) (clean_remaining_sec r) (flap_suppressed r)
    (global_risk r) v.

Definition set_g_config v (r : world) : world :=
  mk_world v (g_uplinks r) (g_status r) (dup_table r) (g_log r)
    (g_last_cmd_id r) (g_last_cmd_result r) (g_last_cmd_detail r)
    (last_poll_cell_a r) (last_poll_cell_b r).
Definition set_g_uplinks v (r : world) : world :=
  mk_world (g_config r) v (g_status r) (dup_table r) (g_log r) (g_last_cmd_id
    r) (g_last_cmd_result r) (g_last_cmd_detail r) (last_poll_cell_a r)
    (last_poll_cell_b r).
Definition set_g_status v (r : world) : world :=
  mk_world (g_config r) (g_uplinks r) v (dup_table r) (g_log r)
    (g_last_cmd_id r) (g_last_cmd_result r) (g_last_cmd_detail r)
    (last_poll_cell_a r) (last_poll_cell_b r).
Definition set_dup_table v (r : world) : world :=
  mk_world (g_config r) (g_uplinks r) (g_status r) v (g_log r) (g_last_cmd_id
    r) (g_last_cmd_result r) (g_last_cmd_detail r) (last_poll_cell_a r)
    (last_poll_cell_b r).
Definition set_g_log v (r : world) : world :=
  mk_world (g_config r) (g_uplinks r) (g_status r) (dup_table r) v
    (g_last_cmd_id r) (g_last_cmd_result r) (g_last_cmd_detail r)
    (last_poll_cell_a r) (last_poll_cell_b r).
Definition set_g_last_cmd_id v (r : world) : world :=
  mk_world (g_config r) (g_uplinks r) (g_status r) (dup_table r) (g_log r) v
    (g_last_cmd_result r) (g_last_cmd_detail r) (last_poll_cell_a r)
    (last_poll_cell_b r).
Definition set_g_last_cmd_result v (r : world) : world :=
  mk_world (g_config r) (g_uplinks r) (g_status r) (dup_table r) (g_log r)
    (g_last_cmd_id r) v (g_last_cmd_detail r) (last_poll_cell_a r)
    (last_poll_cell_b r).
Definition set_g_last_cmd_detail v (r : world) : world :=
  mk_world (g_config r) (g_uplinks r) (g_status r) (dup_table r) (g_log r)
    (g_last_cmd_id r) (g_last_cmd_result r) v (last_poll_cell_a r)
    (last_poll_cell_b r).
Definition set_last_poll_cell_a v (r : world) : world :=
  mk_world (g_config r) (g_uplinks r) (g_status r) (dup_table r) (g_log r)
    (g_last_cmd_id r) (g_last_cmd_result r) (g_last_cmd_detail r) v
    (last_poll_cell_b r).
Definition set_last_poll_cell_b v (r : world) : world :=
  mk_world (g_config r) (g_uplinks r) (g_status r) (dup_table r) (g_log r)
    (g_last_cmd_id r) (g_last_cmd_result r) (g_last_cmd_detail r)
    (last_poll_cell_a r) v.

Definition set_sl_connected v (r : starlink_t) : starlink_t :=
  mk_starlink v (online r) (sl_state r) (latency_ms r) (downlink_mbps r)
    (uplink_mbps r) (obstructed r) (obstruction_pct r) (obstruction_eta r).
Definition set_online v (r : starlink_t) : starlink_t :=
  mk_starlink (sl_connected r) v (sl_state r) (latency_ms r) (downlink_mbps
    r) (uplink_mbps r) (obstructed r) (obstruction_pct r) (obstruction_eta
    r).
Definition set_sl_state v (r : starlink_t) : starlink_t :=
  mk_starlink (sl_connected r) (online r) v (latency_ms r) (downlink_mbps r)
    (uplink_mbps r) (obstructed r) (obstruction_pct r) (obstruction_eta r).
Definition set_latency_ms v (r : starlink_t) : starlink_t :=
  mk_starlink (sl_connected r) (online r) (sl_state r) v (downlink_mbps r)
    (uplink_mbps r) (obstructed r) (obstruction_pct r) (obstruction_eta r).
Definition set_downlink_mbps v (r : starlink_t) : starlink_t :=
  mk_starlink (sl_connected r) (online r) (sl_state r) (latency_ms r) v
    (uplink_mbps r) (obstructed r) (obstruction_pct r) (obstruction_eta r).
Definition set_uplink_mbps v (r : starlink_t) : starlink_t :=
  mk_starlink (sl_connected r) (online r) (sl_state r) (latency_ms r)
    (downlink_mbps r) v (obstructed r) (obstruction_pct r) (obstruction_eta
    r).
Definition set_obstructed v (r : starlink_t) : starlink_t :=
  mk_starlink (sl_connected r) (online r) (sl_state r) (latency_ms r)
    (downlink_mbps r) (uplink_mbps r) v (obstruction_pct r) (obstruction_eta
    r).
Definition set_obstruction_pct v (r : starlink_t) : starlink_t :=
  mk_starlink (sl_connected r) (online r) (sl_state r) (latency_ms r)
    (downlink_mbps r) (uplink_mbps r) (obstructed r) v (obstruction_eta r).

Definition set_rsrp v (r : cellular_t) : cellular_t :=
  mk_cellular v (sinr r) (carrier r).
Definition set_sinr v (r : cellular_t) : cellular_t :=
  mk_cellular (rsrp r) v (carrier r).

(** ** Access to the globals *)

Definition probe_zero : probe_t := mk_probe 0%Q false 0.

(** A zero-filled [uplink_t], as [memset] leaves it. *)
Definition uplink_zero : uplink_t :=
  mk_uplink EmptyString EmptyString EmptyString EmptyString 0%nat UPLINK_TYPE_LTE false false false 0%Q 0%Q 0%Q
    false 0%Q 0%Q 0%Q 0 (mk_cellular 0%Q 0%Q EmptyString)
    (mk_starlink false false EmptyString 0%Q 0%Q 0%Q false 0%Q 0)
    (replicate (Z.to_nat HISTORY_SIZE) probe_zero) 0 0%Q.

(** [g_uplinks[i]] *)
Definition uplink_at (w : world) (i : nat) : uplink_t :=
  default uplink_zero (g_uplinks w !! i).

(** [u->history[idx]] *)
Definition hist_at (u : uplink_t) (idx : Z) : probe_t :=
  default probe_zero (history u !! Z.to_nat idx).

(** An assignment through [g_uplinks[i].f = ...] *)
Definition upd_uplink (i : nat) (f : uplink_t -> uplink_t) (w : world) : world :=
  set_g_uplinks (alter f i (g_uplinks w)) w.

(** An assignment through [g_status.f = ...] *)
Definition upd_status (f : status_t -> status_t) (w : world) : world :=
  set_g_status (f (g_status w)) w.

(** [log_event(type, ...)]: only the event type is kept. *)
Definition log_event (type : string) (w : world) : world :=
  set_g_log (type :: g_log w) w.

(** ** Duplication control *)

(** The loop of [dup_enable] that finds the backup gateway of [dst_veth]. *)
Fixpoint find_gw (devs gws : list string) (dst_veth : string) : option string :=
  match devs, gws with
  | d :: devs', g :: gws' =>
      if String.eqb d dst_veth then Some g else find_gw devs' gws' dst_veth
  | _, _ => None
  end.

(** [dup_enable(src_veth, dst_veth)].  [t] is the clock reading stored in
    [dup_enabled_at_us].  The four [nft] commands leave exactly one rule in
    [dup_table]. *)
Definition dup_enable (src_veth dst_veth : string) (t : Z) (w : world)
  : Z * world :=
  match find_gw VIP_DEVS VIP_GWS dst_veth with
  | None => (-1, log_event "dup_enable_fail" w)
  | Some backup_gw =>
      let w := set_dup_table (Some (mk_rule src_veth backup_gw dst_veth)) w in
      let w := upd_status (fun s =>
                 set_dup_engaged_at_us 0
                   (set_dup_enabled_at_us t (set_dup_enabled true s))) w in
      (0, log_event "dup_enable" w)
  end.

(** [dup_disable()] *)
Definition dup_disable (w : world) : Z * world :=
  let w := set_dup_table None w in
  let w := upd_status (set_dup_enabled false) w in
  (0, log_event "dup_disable" w).

(** [dup_init()] *)
Definition dup_init (w : world) : Z * world :=
  let w := log_event "info" w in
  let w := set_dup_table None w in
  (0, log_event "dup_init" w).

(** ** Tripwire (fast path) *)

(** The loop of check 1: sum and count of the successful probes among the
    last three history entries. *)
Definition rtt_recent (active : uplink_t) : Q * Z :=
  fold_left
    (fun (acc : Q * Z) (i : Z) =>
       let idx := Z.rem (history_idx active - 1 - i) HISTORY_SIZE in
       if p_success (hist_at active idx)
       then ((fst acc + p_rtt_ms (hist_at active idx))%Q, snd acc + 1)
       else acc)
    [0; 1; 2] (0%Q, 0).

(** Check 1 of [tripwire_check]: does the block return [TRIGGER_RTT_STEP]? *)
Definition rtt_step_check (cfg : config_t) (active : uplink_t) : bool :=
  if history_idx active >=? 5 then
    let '(recent_sum, count) := rtt_recent active in
    if count >? 0 then
      let recent_avg := (recent_sum / inject_Z count)%Q in
      let step := (recent_avg - rtt_baseline active)%Q in
      Qgeb step (inject_Z (rtt_step_ms cfg))
    else false
  else false.

(** The same loop and the same check with every operation on doubles
    rounded by [fl]: [recent_sum += rtt_ms], [recent_sum / count] and
    [recent_avg - rtt_baseline]. *)
Definition rtt_recent_fl (fl : Q -> Q) (active : uplink_t) : Q * Z :=
  fold_left
    (fun (acc : Q * Z) (i : Z) =>
       let idx := Z.rem (history_idx active - 1 - i) HISTORY_SIZE in
       if p_success (hist_at active idx)
       then (fl (fst acc + p_rtt_ms (hist_at active idx))%Q, snd acc + 1)
       else acc)
    [0; 1; 2] (0%Q, 0).

Definition rtt_step_check_fl (fl : Q -> Q) (cfg : config_t) (active : uplink_t) : bool :=
  if history_idx active >=? 5 then
    let '(recent_sum, count) := rtt_recent_fl fl active in
    if count >? 0 then
      let recent_avg := fl (recent_sum / inject_Z count)%Q in
      let step := fl (recent_avg - rtt_baseline active)%Q in
      Qgeb step (inject_Z (rtt_step_ms cfg))
    else false
  else false.

(** [tripwire_check(active)]; a null pointer is [None]. *)
Definition tripwire_check (cfg : config_t) (active : option uplink_t) : trigger_t :=
  match active with
  | None => TRIGGER_LINK_DOWN
  | Some active =>
    if negb (enabled active) || negb (available active) then TRIGGER_LINK_DOWN
    else if rtt_step_check cfg active then TRIGGER_RTT_STEP
    else if consec_fail active >=? probe_miss_count cfg then TRIGGER_PROBE_MISS
    else if type_eqb (u_type active) UPLINK_TYPE_LTE
            && Qltb (rsrp (cellular active)) (-120)
         then TRIGGER_RSRP_DROP
    else if type_eqb (u_type active) UPLINK_TYPE_STARLINK
            && (obstructed (starlink active)
                || ((obstruction_eta (starlink active) >? 0)
                    && (obstruction_eta (starlink active) <? 5)))
         then TRIGGER_STARLINK_OBSTR
    else TRIGGER_NONE
  end.

(** [tripwire_check(active)], its arithmetic rounded by [fl]. *)
Definition tripwire_check_fl (fl : Q -> Q) (cfg : config_t) (active : option uplink_t)
  : trigger_t :=
  match active with
  | None => TRIGGER_LINK_DOWN
  | Some active =>
    if negb (enabled active) || negb (available active) then TRIGGER_LINK_DOWN
    else if rtt_step_check_fl fl cfg active then TRIGGER_RTT_STEP
    else if consec_fail active >=? probe_miss_count cfg then TRIGGER_PROBE_MISS
    else if type_eqb (u_type active) UPLINK_TYPE_LTE
            && Qltb (rsrp (cellular active)) (-120)
         then TRIGGER_RSRP_DROP
    else if type_eqb (u_type active) UPLINK_TYPE_STARLINK
            && (obstructed (starlink active)
                || ((obstruction_eta (starlink active) >? 0)
                    && (obstruction_eta (starlink active) <? 5)))
         then TRIGGER_STARLINK_OBSTR
    else TRIGGER_NONE
  end.

(** The [while] loop of [tripwire_fire] that looks for a secondary uplink.
    [fuel] bounds the number of loop tests; [scan_secondary_fuel] below
    shows that [UPLINK_COUNT] tests always suffice. *)
Fixpoint scan_secondary (fuel : nat) (w : world) (active secondary : nat) : nat :=
  match fuel with
  | O => secondary
  | S fuel' =>
      if (secondary =? active)%nat then secondary
      else if enabled (uplink_at w secondary) && available (uplink_at w secondary)
      then secondary
      else scan_secondary fuel' w active ((secondary + 1) mod UPLINK_COUNT)%nat
  end.

Definition find_secondary (w : world) : nat :=
  let active := active_uplink (g_status w) in
  scan_secondary UPLINK_COUNT w active ((active + 1) mod UPLINK_COUNT)%nat.

(** [VIP_DEVS[i]] *)
Definition vip_dev (i : nat) : string := default EmptyString (VIP_DEVS !! i).

(** [tripwire_fire(reason, detail)].  [t_dup] is the clock reading taken in
    [dup_enable], [t_protect] the one stored in [protect_start_us]. *)
Definition tripwire_fire (reason : trigger_t) (detail : string)
    (t_dup t_protect : Z) (w : world) : world :=
  let active := active_uplink (g_status w) in
  let secondary := find_secondary w in
  let w := if negb (secondary =? active)%nat
           then snd (dup_enable (vip_dev active) (vip_dev secondary) t_dup w)
           else w in
  let w := upd_status (fun s =>
             set_flap_suppressed false
               (set_last_clean_us 0
                 (set_switches_this_window 0
                   (set_protect_start_us t_protect
                     (set_trigger_detail detail
                       (set_last_trigger reason
                         (set_state STATE_PROTECT s))))))) w in
  log_event "tripwire_fire" w.

(** ** Switching (slow path) *)

(** The score computed in the body of the loop of [select_best_uplink]. *)
Definition score (u : uplink_t) : Q :=
  let score := (100 - rtt_ms u)%Q in
  let score := (score - risk_now u * 50)%Q in
  let score := (score - loss_pct u * 10)%Q in
  let score :=
    if type_eqb (u_type u) UPLINK_TYPE_STARLINK
       && online (starlink u) && negb (obstructed (starlink u))
    then (score + 20)%Q else score in
  let score :=
    if type_eqb (u_type u) UPLINK_TYPE_LTE && Qgtb (rsrp (cellular u)) (-90)
    then (score + 15)%Q else score in
  score.

(** One iteration of the loop; [acc] is [(best, best_score)]. *)
Definition select_step (w : world) (acc : nat * Q) (i : nat) : nat * Q :=
  let u := uplink_at w i in
  if negb (enabled u) || negb (available u) then acc
  else if Qgtb (score u) (snd acc) then (i, score u)
  else acc.

(** [select_best_uplink()] *)
Definition select_best_uplink (w : world) : nat :=
  if force_locked (g_status w) then active_uplink (g_status w)
  else
    fst (fold_left (select_step w) (seq 0 UPLINK_COUNT)
           (active_uplink (g_status w), (-9999)%Q)).

(** The score, the loop and the selection with every operation on doubles
    rounded by [fl]; the comparisons are exact. *)
Definition score_fl (fl : Q -> Q) (u : uplink_t) : Q :=
  let score := fl (100 - rtt_ms u)%Q in
  let score := fl (score - fl (risk_now u * 50))%Q in
  let score := fl (score - fl (loss_pct u * 10))%Q in
  let score :=
    if type_eqb (u_type u) UPLINK_TYPE_STARLINK
       && online (starlink u) && negb (obstructed (starlink u))
    then fl (score + 20)%Q else score in
  let score :=
    if type_eqb (u_type u) UPLINK_TYPE_LTE && Qgtb (rsrp (cellular u)) (-90)
    then fl (score + 15)%Q else score in
  score.

Definition select_step_fl (fl : Q -> Q) (w : world) (acc : nat * Q) (i : nat) : nat * Q :=
  let u := uplink_at w i in
  if negb (enabled u) || negb (available u) then acc
  else if Qgtb (score_fl fl u) (snd acc) then (i, score_fl fl u)
  else acc.

Definition select_best_uplink_fl (fl : Q -> Q) (w : world) : nat :=
  if force_locked (g_status w) then active_uplink (g_status w)
  else
    fst (fold_left (select_step_fl fl w) (seq 0 UPLINK_COUNT)
           (active_uplink (g_status w), (-9999)%Q)).

(** [execute_switch(target)].  [verify] is what [system(verify_cmd)]
    returns, [t] the clock reading stored in [switch_start_us]. *)
Definition execute_switch (target : nat) (verify : Z) (t : Z) (w : world) : world :=
  let old := active_uplink (g_status w) in
  let w := log_event "switch" w in
  if negb (verify =? 0) then log_event "switch_fail" w
  else
    let w := upd_uplink old (set_is_active false) w in
    let w := upd_uplink target (set_is_active true) w in
    let w := upd_status (fun s =>
               set_switch_start_us t
                 (set_switches_this_window (switches_this_window s + 1)
                   (set_active_uplink target s))) w in
    log_event "switch_ok" w.

(** The duplication-settle block at the head of [slowpath_arbitrate]:
    [inl w'] when the function returns from inside the block, [inr w']
    when control goes on to the preroll test. *)
Definition settle_gate (now : Z) (w : world) : world + world :=
  if dup_enabled (g_status w) && (dup_engaged_at_us (g_status w) =? 0) then
    let dup_age_ms := Z.quot (now - dup_enabled_at_us (g_status w)) 1000 in
    if dup_age_ms >=? DUP_SETTLE_MS then
      inr (log_event "dup_engaged" (upd_status (set_dup_engaged_at_us now) w))
    else
      inl (upd_status (set_state STATE_SWITCHING) w)
  else inr w.

(** The rest of [slowpath_arbitrate], from the preroll test on. *)
Definition arbitrate_switch (elapsed_ms : Z) (verify : Z) (t_sw : Z) (w : world)
  : world :=
  if elapsed_ms <? preroll_ms (g_config w) then
    upd_status (set_state STATE_SWITCHING) w
  else if switches_this_window (g_status w) >=? 3 then
    upd_status (set_flap_suppressed true) w
  else
    let best := select_best_uplink w in
    let w := if negb (best =? active_uplink (g_status w))%nat
             then execute_switch best verify t_sw w else w in
    upd_status (set_state STATE_HOLDING) w.

(** [slowpath_arbitrate()].  [now] is the clock reading taken on entry;
    [verify] and [t_sw] are passed to [execute_switch]. *)
Definition slowpath_arbitrate (now : Z) (verify : Z) (t_sw : Z) (w : world) : world :=
  let elapsed_ms := Z.quot (now - protect_start_us (g_status w)) 1000 in
  match settle_gate now w with
  | inl w => w
  | inr w => arbitrate_switch elapsed_ms verify t_sw w
  end.

(** ** Protection mode tick *)

(** [protection_tick()] *)
Definition protection_tick (now : Z) (w : world) : world :=
  let protect_elapsed_sec := Z.quot (now - protect_start_us (g_status w)) 1000000 in
  let hold := min_hold_sec (g_config w) - protect_elapsed_sec in
  let w := upd_status (set_hold_remaining_sec (if hold <? 0 then 0 else hold)) w in
  let active := uplink_at w (active_uplink (g_status w)) in
  let is_clean :=
    (consec_fail active =? 0)
    && Qltb (rtt_ms active) (rtt_baseline active + 30)%Q
    && Qltb (loss_pct active) 2%Q in
  if is_clean then
    let w := if last_clean_us (g_status w) =? 0
             then upd_status (set_last_clean_us now) w else w in
    let clean_sec := Z.quot (now - last_clean_us (g_status w)) 1000000 in
    let rem := clean_exit_sec (g_config w) - clean_sec in
    let w := upd_status (set_clean_remaining_sec (if rem <? 0 then 0 else rem)) w in
    if (protect_elapsed_sec >=? min_hold_sec (g_config w))
       && (clean_sec >=? clean_exit_sec (g_config w)) then
      let w := if negb (mode_eqb (mode (g_status w)) MODE_MIRROR)
               then snd (dup_disable w) else w in
      let w := upd_status (fun s =>
                 set_last_trigger TRIGGER_NONE (set_state STATE_NORMAL s)) w in
      log_event "protection_exit" w
    else w
  else
    upd_status (fun s =>
      set_clean_remaining_sec (clean_exit_sec (g_config w))
        (set_last_clean_us 0 s)) w.

(** ** Chaos injection *)

(** What [chaos_read] finds for one uplink name in [chaos.json], not the
    text of the file: each key that [strstr] locates after the first
    occurrence of the quoted name comes with the number [atof] reads after
    it.  The searches run to the end of the buffer, so a value found for
    one uplink can stand in the object of a later one; which texts give
    which entries is outside the model, and so are values [atof] reads as
    NaN or infinity. *)
Record chaos_entry := mk_chaos {
  ce_rtt : option Q;
  ce_jitter : option Q;
  ce_loss : option Q
}.

(** The file as [chaos_read] sees it: for each canonical uplink name, in
    the order of [UPLINK_NAMES], whether the name occurs and with what. *)
Definition chaos_file := list (option chaos_entry).

Definition chaos_reset (u : uplink_t) : uplink_t :=
  set_chaos_loss 0%Q (set_chaos_jitter 0%Q (set_chaos_rtt 0%Q u)).

Definition chaos_apply (e : option chaos_entry) (u : uplink_t) : uplink_t :=
  match e with
  | None => u
  | Some e =>
      let u := match ce_rtt e with Some v => set_chaos_rtt v u | None => u end in
      let u := match ce_jitter e with Some v => set_chaos_jitter v u | None => u end in
      match ce_loss e with Some v => set_chaos_loss v u | None => u end
  end.

(** [chaos_read()]; [None] when the file cannot be opened. *)
Definition chaos_read (file : option chaos_file) (w : world) : world :=
  match file with
  | None => w
  | Some entries =>
      let w := set_g_uplinks (map chaos_reset (g_uplinks w)) w in
      fold_left
        (fun w i => upd_uplink i (chaos_apply (default None (entries !! i))) w)
        (seq 0 UPLINK_COUNT) w
  end.

(** ** Uplink polling *)

(** What the cellular helper reported: the last [SINR] and [RSRP] values the
    parsing loop assigns, if any. *)
Record cell_reading := mk_cell_reading {
  cr_sinr : option Q;
  cr_rsrp : option Q
}.

(** What the Starlink helper reported, key by key. *)
Record starlink_reply := mk_sl_reply {
  sr_latency_ms : option Q;
  sr_obstruction : option Q;
  sr_snr_ok : option bool;
  sr_downlink_bps : option Q;
  sr_uplink_bps : option Q
}.

(** Everything one call of [uplink_poll] reads from outside. *)
Record poll_in := mk_poll_in {
  pi_start : Z;                        (* now_us() on entry *)
  pi_rtt : Q;                          (* probe result, -1 on failure *)
  pi_rand1 : Z;                        (* first rand() *)
  pi_rand2 : Z;                        (* second rand() *)
  pi_time : Z;                         (* time(NULL) in cellular_poll *)
  pi_cell : option cell_reading;       (* None: popen failed *)
  pi_starlink : option starlink_reply  (* None: popen failed, empty or error *)
}.

(** [chaos_jitter * ((double)rand()/RAND_MAX - 0.5) * 2] *)
Definition jitter_term (chaos_jitter : Q) (r : Z) : Q :=
  (chaos_jitter * (inject_Z r / inject_Z RAND_MAX - (1 # 2)) * 2)%Q.

(** [cellular_poll(u)] for [u = &g_uplinks[i]]. *)
Definition cellular_poll (now : Z) (out : option cell_reading) (i : nat)
    (w : world) : world :=
  let u := uplink_at w i in
  let is_a := (u_id u =? UPLINK_CELL_A)%nat in
  let last_poll := if is_a then last_poll_cell_a w else last_poll_cell_b w in
  if now - last_poll <? 5 then w
  else
    let w := if is_a then set_last_poll_cell_a now w
             else set_last_poll_cell_b now w in
    match out with
    | None => w
    | Some r =>
        upd_uplink i (fun u =>
          let c := cellular u in
          let c := match cr_sinr r with Some v => set_sinr v c | None => c end in
          let c := match cr_rsrp r with Some v => set_rsrp v c | None => c end in
          set_cellular c u) w
    end.

(** [starlink_poll(u)] *)
Definition starlink_poll (out : option starlink_reply) (u : uplink_t) : uplink_t :=
  match out with
  | None => set_starlink (set_sl_connected false (starlink u)) u
  | Some r =>
      let s := set_sl_connected true (starlink u) in
      let s := match sr_latency_ms r with
               | Some v => set_latency_ms v s | None => s end in
      let s := match sr_obstruction r with
               | Some frac =>
                   set_obstruction_pct (frac * 100)%Q
                     (set_obstructed (Qgtb frac (1 # 10)) s)
               | None => s end in
      let s := match sr_snr_ok r with
               | Some b => set_online b s | None => s end in
      let s := match sr_downlink_bps r with
               | Some v => set_downlink_mbps (v / 1000000)%Q s | None => s end in
      let s := match sr_uplink_bps r with
               | Some v => set_uplink_mbps (v / 1000000)%Q s | None => s end in
      let s := set_sl_state (if online s then "CONNECTED" else "SEARCHING") s in
      set_starlink s u
  end.

(** The loop of [uplink_poll] that counts the successes among the last (up
    to) 20 history entries; it returns [(success, total)]. *)
Fixpoint loss_loop (fuel : nat) (u : uplink_t) (i success total : Z) : Z * Z :=
  match fuel with
  | O => (success, total)
  | S fuel' =>
      if (i <? 20) && (i <? history_idx u) then
        let hi := Z.rem (history_idx u - 1 - i) HISTORY_SIZE in
        loss_loop fuel' u (i + 1)
          (if p_success (hist_at u hi) then success + 1 else success)
          (total + 1)
      else (success, total)
  end.

(** The part of [uplink_poll] that works on [*u] alone: history, metrics
    and loss (everything before the type-specific poll). *)
Definition uplink_probe (p : poll_in) (u : uplink_t) : uplink_t :=
  let rtt := pi_rtt p in
  let idx := Z.rem (history_idx u) HISTORY_SIZE in
  let sample :=
    mk_probe (rtt + chaos_rtt u + jitter_term (chaos_jitter u) (pi_rand1 p))%Q
             (Qgtb rtt 0) (pi_start p) in
  let u := set_history (<[Z.to_nat idx := sample]> (history u)) u in
  let u := set_history_idx (history_idx u + 1) u in
  let u :=
    if Qgtb rtt 0 then
      let u := set_rtt_ms
                 (rtt + (chaos_rtt u + jitter_term (chaos_jitter u) (pi_rand2 p)))%Q u in
      let u := if negb (force_failed u) then set_available true u else u in
      let u := set_consec_fail 0 u in
      if Qeq_bool (rtt_baseline u) 0
      then set_rtt_baseline rtt u
      else set_rtt_baseline (rtt_baseline u * (95 # 100) + rtt * (5 # 100))%Q u
    else
      let u := set_consec_fail (consec_fail u + 1) u in
      if consec_fail u >? 5 then set_available false u else u in
  let '(success, total) := loss_loop 20 u 0 0 0 in
  if total >? 0 then
    let u := set_loss_pct (100 * inject_Z (total - success) / inject_Z total)%Q u in
    let u := set_loss_pct (loss_pct u + chaos_loss u)%Q u in
    if Qgtb (loss_pct u) 100 then set_loss_pct 100%Q u else u
  else u.

(** [uplink_poll(u)] for [u = &g_uplinks[i]]. *)
Definition uplink_poll (p : poll_in) (i : nat) (w : world) : world :=
  if negb (enabled (uplink_at w i)) then w
  else
    let w := upd_uplink i (uplink_probe p) w in
    match u_type (uplink_at w i) with
    | UPLINK_TYPE_LTE => cellular_poll (pi_time p) (pi_cell p) i w
    | UPLINK_TYPE_STARLINK => upd_uplink i (starlink_poll (pi_starlink p)) w
    | UPLINK_TYPE_FIBER => w
    end.

(** ** Prediction engine *)

(** The body of the loop of [prediction_tick] for an enabled uplink. *)
Definition risk_update (u : uplink_t) : uplink_t :=
  let r := 0%Q in
  let r := if Qgtb (rtt_ms u) (rtt_baseline u * (15 # 10))%Q
           then (r + (3 # 10))%Q else r in
  let r := if Qgtb (loss_pct u) 50 then (r + (5 # 10))%Q
           else if Qgtb (loss_pct u) 20 then (r + (4 # 10))%Q
           else if Qgtb (loss_pct u) 5 then (r + (3 # 10))%Q else r in
  let r := if consec_fail u >? 0
           then (r + (2 # 10) * inject_Z (if consec_fail u >? 5 then 5
                                          else consec_fail u))%Q
           else r in
  let r := if type_eqb (u_type u) UPLINK_TYPE_STARLINK
           then (r + obstruction_pct (starlink u) * (1 # 100))%Q else r in
  let r := if type_eqb (u_type u) UPLINK_TYPE_LTE
              && Qltb (rsrp (cellular u)) (-110)
           then (r + (4 # 10))%Q else r in
  let r := if Qgtb r 1 then 1%Q else r in
  set_risk_now r u.

(** [prediction_tick()] *)
Definition prediction_tick (w : world) : world :=
  let ups := map (fun u => if enabled u then risk_update u else u) (g_uplinks w) in
  let max_risk :=
    fold_left
      (fun (m : Q) (u : uplink_t) =>
         if enabled u && is_active u && Qgtb (risk_now u) m then risk_now u else m)
      ups 0%Q in
  let w := set_g_uplinks ups w in
  upd_status (fun s =>
    set_recommendation
      (if Qgeb max_risk (7 # 10) then "PROTECT"
       else if Qgeb max_risk (4 # 10) then "PREPARE" else "NORMAL")
      (set_global_risk max_risk s)) w.

(** ** Command processing *)

(** The readings and results one pass through the state machine or one
    command may obtain from outside. *)
Record env := mk_env {
  env_t_dup : Z;       (* now_us() stored by dup_enable *)
  env_t_protect : Z;   (* now_us() stored by tripwire_fire *)
  env_now : Z;         (* now_us() on entry of slowpath_arbitrate *)
  env_verify : Z;      (* system(verify_cmd) in execute_switch *)
  env_t_sw : Z;        (* now_us() stored by execute_switch *)
  env_now_prot : Z;    (* now_us() on entry of protection_tick *)
  env_c8000_ret : Z    (* system(cmd) in c8000_switch *)
}.

(** [strncmp(cmd, lit, strlen(lit)) == 0] *)
Definition starts_with (lit cmd : string) : bool := String.prefix lit cmd.

(** [cmd + n] *)
Definition after (n : nat) (cmd : string) : string :=
  String.substring n (String.length cmd - n) cmd.

(** The loops over [UPLINK_NAMES] that stop at the first match. *)
Fixpoint find_name (names : list string) (i : nat) (uplink : string) : option nat :=
  match names with
  | [] => None
  | n :: names' =>
      if String.eqb n uplink then Some i else find_name names' (S i) uplink
  end.

Definition is_space (c : ascii) : bool :=
  let n := nat_of_ascii c in
  ((n =? 32) || ((9 <=? n) && (n <=? 13)))%nat.

Definition digit_of (c : ascii) : option Z :=
  let n := nat_of_ascii c in
  if ((48 <=? n) && (n <=? 57))%nat then Some (Z.of_nat n - 48) else None.

Fixpoint atoi_digits (s : string) (acc : Z) : Z :=
  match s with
  | String c s' =>
      match digit_of c with
      | Some d => atoi_digits s' (10 * acc + d)
      | None => acc
      end
  | EmptyString => acc
  end.

Fixpoint atoi (s : string) : Z :=
  match s with
  | String c s' =>
      if is_space c then atoi s'
      else if Ascii.eqb c "-"%char then - atoi_digits s' 0
      else if Ascii.eqb c "+"%char then atoi_digits s' 0
      else atoi_digits s 0
  | EmptyString => 0
  end.

(** [c8000_switch(controller)] *)
Definition c8000_switch (controller : Z) (ret : Z) (w : world) : Z * world :=
  let w := log_event "c8000_switch" w in
  let w := if ret =? 0 then upd_status (set_active_controller controller) w
           else w in
  (ret, w).

(** What [strncpy] and [snprintf] keep of [s] in a buffer of [n + 1] bytes. *)
Definition truncate (n : nat) (s : string) : string := String.substring 0 n s.

(** [strcpy(g_last_cmd_result, result)] and
    [snprintf(g_last_cmd_detail, sizeof(g_last_cmd_detail), ...)], the
    buffer holding 128 bytes. *)
Definition cmd_done (result detail : string) (w : world) : world :=
  set_g_last_cmd_detail (truncate 127 detail) (set_g_last_cmd_result result w).

(** The four branches that look an uplink up by name and change it. *)
Definition named_uplink_cmd (uplink key event : string)
    (f : uplink_t -> uplink_t) (w : world) : world :=
  match find_name UPLINK_NAMES 0 uplink with
  | Some i =>
      cmd_done "exec" (key ++ uplink) (log_event event (upd_uplink i f w))
  | None => cmd_done "fail" (key ++ uplink) w
  end.

(** [process_one_command(cmd, cmd_id)] *)
Definition process_one_command (cmd cmd_id : string) (e : env) (w : world) : world :=
  let w := set_g_last_cmd_id (truncate 63 cmd_id) w in
  let w :=
    if starts_with "mode:" cmd then
      let m := after 5 cmd in
      let w :=
        if String.eqb m "training" then
          snd (dup_disable (upd_status (set_mode MODE_TRAINING) w))
        else if String.eqb m "tripwire" then
          upd_status (set_mode MODE_TRIPWIRE) w
        else if String.eqb m "mirror" then
          let w := upd_status (set_mode MODE_MIRROR) w in
          snd (dup_enable "br-lan" (veth (uplink_at w 1)) (env_t_dup e) w)
        else w in
      let w := log_event "mode_change" w in
      cmd_done "exec" ("mode=" ++ MODE_NAMES (mode (g_status w))) w
    else if starts_with "force:" cmd then
      let uplink := after 6 cmd in
      if String.eqb uplink "auto" then
        let w := upd_status (fun s =>
                   set_state STATE_NORMAL
                     (set_switches_this_window 0 (set_force_locked false s))) w in
        let best := select_best_uplink w in
        let w := if negb (best =? active_uplink (g_status w))%nat
                 then execute_switch best (env_verify e) (env_t_sw e) w else w in
        cmd_done "exec" "force=auto" w
      else
        match find_name UPLINK_NAMES 0 uplink with
        | Some i =>
            let w := upd_uplink i (fun u =>
                       set_available true (set_force_failed false u)) w in
            let w := execute_switch i (env_verify e) (env_t_sw e) w in
            let w := upd_status (set_force_locked true) w in
            cmd_done "exec" ("force=" ++ uplink) w
        | None => cmd_done "fail" ("force=" ++ uplink) w
        end
    else if String.eqb cmd "trigger" then
      let w := tripwire_fire TRIGGER_MANUAL "operator"
                 (env_t_dup e) (env_t_protect e) w in
      cmd_done "exec" "manual_trigger" w
    else if starts_with "c8000:" cmd then
      let ctrl := atoi (after 6 cmd) in
      let w := snd (c8000_switch ctrl (env_c8000_ret e) w) in
      cmd_done "exec" ("c8000=" ++ DecimalString.NilZero.string_of_int (Z.to_int ctrl)) w
    else if starts_with "enable:" cmd then
      named_uplink_cmd (after 7 cmd) "enable=" "uplink_enabled"
        (set_enabled true) w
    else if starts_with "disable:" cmd then
      named_uplink_cmd (after 8 cmd) "disable=" "uplink_disabled"
        (set_enabled false) w
    else if starts_with "fail:" cmd then
      named_uplink_cmd (after 5 cmd) "fail=" "uplink_force_fail"
        (fun u => set_consec_fail 10 (set_force_failed true (set_available false u))) w
    else if starts_with "unfail:" cmd then
      named_uplink_cmd (after 7 cmd) "unfail=" "uplink_unfail"
        (fun u => set_consec_fail 0 (set_available true (set_force_failed false u))) w
    else cmd_done "fail" "unknown_cmd" w in
  log_event "cmd_result" w.

(** ** Initialisation *)

Definition init_uplink (id : nat) (type : uplink_type_t)
    (name interface netns veth carrier : string) (active : bool) : uplink_t :=
  mk_uplink name interface netns veth id type true false false 0%Q 0%Q 0%Q
    active 0%Q 0%Q 0%Q 0 (mk_cellular 0%Q 0%Q carrier)
    (mk_starlink false false EmptyString 0%Q 0%Q 0%Q false 0%Q 0)
    (replicate (Z.to_nat HISTORY_SIZE) probe_zero) 0 0%Q.

(** [uplinks_init()] *)
Definition uplinks_init (w : world) : world :=
  let w := set_g_uplinks
    [ init_uplink UPLINK_CELL_A UPLINK_TYPE_LTE
        "cell_a" "wwan0" "ns_cell_a" "veth_cell_a" "T-Mobile" true;
      init_uplink UPLINK_CELL_B UPLINK_TYPE_LTE
        "cell_b" "wwan1" "ns_cell_b" "veth_cell_b" "AT&T" false;
      init_uplink UPLINK_SL_A UPLINK_TYPE_STARLINK
        "sl_a" "enp3s0" "ns_sl_a" "veth_sl_a" EmptyString false;
      init_uplink UPLINK_SL_B UPLINK_TYPE_STARLINK
        "sl_b" "enp4s0" "ns_sl_b" "veth_sl_b" EmptyString false;
      init_uplink UPLINK_FIBER1 UPLINK_TYPE_FIBER
        "fa" "enp1s0" "ns_fa" "veth_fa" EmptyString false;
      init_uplink UPLINK_FIBER2 UPLINK_TYPE_FIBER
        "fb" "enp2s0" "ns_fb" "veth_fb" EmptyString false ] w in
  upd_status (set_active_uplink UPLINK_CELL_A) w.

(** ** Configuration *)

(** The configuration file as the loader sees it, not its text: for each
    key, the value [atoi] reads after it when [strstr] finds the key.
    [cf_disabled] holds, per uplink, the outcome of the test in [main]:
    the quoted name occurs, ["enabled"] occurs within 200 bytes after its
    first occurrence, and [false] within 30 bytes after that.  The test
    looks at bytes, not at objects, so the [false] it finds can belong to
    another uplink's entry; which texts make it succeed is outside the
    model. *)
Record config_file := mk_config_file {
  cf_rtt_step_threshold_ms : option Z;
  cf_rtt_step_window_ms : option Z;
  cf_probe_miss_count : option Z;
  cf_probe_miss_window_ms : option Z;
  cf_rsrp_drop_threshold_db : option Z;
  cf_sinr_drop_threshold_db : option Z;
  cf_preroll_ms : option Z;
  cf_min_hold_sec : option Z;
  cf_clean_exit_sec : option Z;
  cf_gps_enabled : option bool;
  cf_pcap_enabled : option bool;
  cf_sample_rate_hz : option Z;
  cf_disabled : list bool
}.

(** [json_get_int] and [json_get_bool] on a key already looked up. *)
Definition json_get {A : Type} (found : option A) (def : A) : A := default def found.

(** [config_load(path)]; [None] when [fopen] fails. *)
Definition config_load (file : option config_file) (w : world) : Z * world :=
  match file with
  | None => (-1, w)
  | Some f =>
      (0, set_g_config
            (mk_config
               (json_get (cf_rtt_step_threshold_ms f) DEFAULT_RTT_STEP_MS)
               (json_get (cf_rtt_step_window_ms f) DEFAULT_RTT_WINDOW_MS)
               (json_get (cf_probe_miss_count f) DEFAULT_PROBE_MISS_COUNT)
               (json_get (cf_probe_miss_window_ms f) DEFAULT_PROBE_MISS_WINDOW)
               (json_get (cf_rsrp_drop_threshold_db f) DEFAULT_RSRP_DROP_DB)
               (json_get (cf_sinr_drop_threshold_db f) DEFAULT_SINR_DROP_DB)
               (json_get (cf_preroll_ms f) DEFAULT_PREROLL_MS)
               (json_get (cf_min_hold_sec f) DEFAULT_MIN_HOLD_SEC)
               (json_get (cf_clean_exit_sec f) DEFAULT_CLEAN_EXIT_SEC)
               (json_get (cf_gps_enabled f) true)
               (json_get (cf_pcap_enabled f) true)
               (json_get (cf_sample_rate_hz f) 10)) w)
  end.

(** ** Main *)

(** Static storage before [main] runs: all zero. *)
Definition world_zero : world :=
  mk_world
    (mk_config 0 0 0 0 0 0 0 0 0 false false 0)
    (replicate UPLINK_COUNT uplink_zero)
    (mk_status MODE_TRAINING STATE_NORMAL TRIGGER_NONE EmptyString 0%nat false 0
       false 0 0 0 0 0 0 0 0 false 0%Q EmptyString)
    None [] EmptyString EmptyString EmptyString 0 0.

(** [main] up to the computation of [probe_interval].  The value returned
    by [config_load] is dropped, as in the source. *)
Definition main_startup (file : option config_file) : world :=
  let w := world_zero in
  let w := snd (config_load file w) in
  let w := uplinks_init w in
  let w :=
    match file with
    | Some f =>
        fold_left
          (fun w i =>
             if default false (cf_disabled f !! i)
             then upd_uplink i (set_enabled false) w else w)
          (seq 0 UPLINK_COUNT) w
    | None => w
    end in
  let w := snd (dup_init w) in
  let w := upd_status (fun s =>
             set_recommendation "NORMAL"
               (set_state STATE_NORMAL (set_mode MODE_TRIPWIRE s))) w in
  let w := log_event "init_route" w in
  log_event "startup" w.

(** The [switch] on [g_status.state] in the main loop. *)
Definition state_machine (e : env) (w : world) : world :=
  if mode_eqb (mode (g_status w)) MODE_TRAINING then w
  else
    match state (g_status w) with
    | STATE_NORMAL | STATE_PREPARE =>
        let active := uplink_at w (active_uplink (g_status w)) in
        match tripwire_check (g_config w) (Some active) with
        | TRIGGER_NONE => w
        | t => tripwire_fire t (TRIGGER_NAMES t) (env_t_dup e) (env_t_protect e) w
        end
    | STATE_PROTECT =>
        protection_tick (env_now_prot e)
          (slowpath_arbitrate (env_now e) (env_verify e) (env_t_sw e) w)
    | STATE_SWITCHING | STATE_HOLDING =>
        protection_tick (env_now_prot e) w
    end.

(** What one iteration of the main loop reads from outside.  [it_cmds] are
    the command files that could be read, in file-name order, each with its
    first line (the legacy file, when present, comes last with the id
    ["legacy"]). *)
Record iter_in := mk_iter {
  it_now : Z;
  it_chaos : option chaos_file;
  it_polls : list poll_in;
  it_env : env;
  it_cmds : list (string * string * env)
}.

Definition poll_zero : poll_in := mk_poll_in 0 (-1)%Q 0 0 0 None None.

(** [commands_process()] *)
Definition commands_process (cmds : list (string * string * env)) (w : world) : world :=
  fold_left
    (fun w (c : string * string * env) =>
       process_one_command (snd (fst c)) (fst (fst c)) (snd c) w)
    cmds w.

(** One iteration of the [while (g_running)] loop.  The loop variables
    [last_probe] and [last_predict] travel with the world.  GPS polling and
    the status file touch none of the modelled state. *)
Definition main_iteration (probe_interval : Z) (st : Z * Z * world) (it : iter_in)
  : Z * Z * world :=
  let '(last_probe, last_predict, w) := st in
  let now_t := it_now it in
  let '(last_probe, w) :=
    if now_t - last_probe >=? probe_interval then
      let w := chaos_read (it_chaos it) w in
      (now_t,
       fold_left (fun w i => uplink_poll (default poll_zero (it_polls it !! i)) i w)
         (seq 0 UPLINK_COUNT) w)
    else (last_probe, w) in
  let '(last_predict, w) :=
    if now_t - last_predict >=? RISK_INTERVAL_MS * 1000
    then (now_t, prediction_tick w) else (last_predict, w) in
  let w := state_machine (it_env it) w in
  let w := commands_process (it_cmds it) w in
  (last_probe, last_predict, w).

(** How [main] ends: by [return code], or in the integer division by zero
    of [1000000 / g_config.sample_rate_hz] (undefined behaviour; the
    process is killed by SIGFPE on x86). *)
Inductive main_result :=
  | MainReturn (code : Z) (w : world)
  | MainDivByZero (w : world).

(** [main()], run for the iterations [its] that take place before a signal
    clears [g_running]. *)
Definition main (file : option config_file) (its : list iter_in) : main_result :=
  let w := main_startup file in
  if sample_rate_hz (g_config w) =? 0 then MainDivByZero w
  else
    let probe_interval := Z.quot 1000000 (sample_rate_hz (g_config w)) in
    let '(_, _, w) := fold_left (main_iteration probe_interval) its (0, 0, w) in
    let w := log_event "shutdown" w in
    let w := snd (dup_disable w) in
    MainReturn 0 w.

(** ** The runs of the daemon *)

(** The operations the main loop performs on the world, each with what it
    reads from outside. *)
Inductive op :=
  | OpChaos (file : option chaos_file)
  | OpPoll (p : poll_in) (i : nat)
  | OpPredict
  | OpStateMachine (e : env)
  | OpCommand (cmd cmd_id : string) (e : env).

Definition run_op (o : op) (w : world) : world :=
  match o with
  | OpChaos file => chaos_read file w
  | OpPoll p i => uplink_poll p i w
  | OpPredict => prediction_tick w
  | OpStateMachine e => state_machine e w
  | OpCommand cmd cmd_id e => process_one_command cmd cmd_id e w
  end.

(** The states the daemon can be in: the one [main] sets up, and every
    state an operation of the loop leads to from there. *)
Inductive reachable : world -> Prop :=
  | reach_startup file : reachable (main_startup file)
  | reach_step o w : reachable w -> reachable (run_op o w).

(** The number of uplinks whose [is_active] flag is set. *)
Definition active_count (w : world) : nat :=
  length (List.filter is_active (g_uplinks w)).

Definition trigger_is_none (t : trigger_t) : bool :=
  match t with TRIGGER_NONE => true | _ => false end.

(** Does operation [o], run in [w], call [tripwire_fire]? *)
Definition enters_protection (o : op) (w : world) : bool :=
  match o with
  | OpStateMachine _ =>
      negb (mode_eqb (mode (g_status w)) MODE_TRAINING)
      && match state (g_status w) with
         | STATE_NORMAL | STATE_PREPARE =>
             negb (trigger_is_none
                     (tripwire_check (g_config w)
                        (Some (uplink_at w (active_uplink (g_status w))))))
         | _ => false
         end
  | OpCommand cmd _ _ => String.eqb cmd "trigger"
  | _ => false
  end.

(** Is [o] one of the operator's [force:] commands? *)
Definition is_force (o : op) : bool :=
  match o with
  | OpCommand cmd _ _ => starts_with "force:" cmd
  | _ => false
  end.

(** [window allowed w0 w]: [w] lies in the protection window that opened in
    state [w0], that is, [w0] is the result of an operation that called
    [tripwire_fire], and [w] follows from [w0] by operations, all of them
    [allowed], none of which calls [tripwire_fire] again. *)
Inductive window (allowed : op -> bool) : world -> world -> Prop :=
  | window_open o w :
      enters_protection o w = true ->
      window allowed (run_op o w) (run_op o w)
  | window_step w0 w o :
      window allowed w0 w ->
      allowed o = true ->
      enters_protection o w = false ->
      window allowed w0 (run_op o w).

(** A switch committed between [w] and [w']: the active uplink, an
    [is_active] flag or the switch counter changed. *)
Definition switch_committed (w w' : world) : Prop :=
  active_uplink (g_status w') <> active_uplink (g_status w)
  \/ map is_active (g_uplinks w') <> map is_active (g_uplinks w)
  \/ switches_this_window (g_status w') <> switches_this_window (g_status w).

(** The duplication state: the three fields of [g_status] and the rule
    installed in [ns_vip]. *)
Definition dup_state (w : world) : bool * Z * Z * option dup_rule :=
  (dup_enabled (g_status w), dup_enabled_at_us (g_status w),
   dup_engaged_at_us (g_status w), dup_table w).

(** ** The tripwire, declaratively *)

Definition Qsum (l : list Q) : Q := fold_right Qplus 0%Q l.

Definition Qmean (l : list Q) : Q := (Qsum l / inject_Z (Z.of_nat (length l)))%Q.

(** The three most recent history entries, newest first. *)
Definition last_three (u : uplink_t) : list probe_t :=
  map (fun i => hist_at u (Z.rem (history_idx u - 1 - i) HISTORY_SIZE)) [0; 1; 2].

(** The round-trip times of those of the last three probes that succeeded. *)
Definition recent_successes (u : uplink_t) : list Q :=
  map p_rtt_ms (List.filter p_success (last_three u)).

(** Rule 2 as the code applies it. *)
Definition rtt_stepped (cfg : config_t) (u : uplink_t) : Prop :=
  5 <= history_idx u
  /\ recent_successes u <> []
  /\ (inject_Z (rtt_step_ms cfg) <= Qmean (recent_successes u) - rtt_baseline u)%Q.

Definition rsrp_dropped (u : uplink_t) : Prop :=
  u_type u = UPLINK_TYPE_LTE /\ (rsrp (cellular u) < -120)%Q.

Definition starlink_obstructed (u : uplink_t) : Prop :=
  u_type u = UPLINK_TYPE_STARLINK
  /\ (obstructed (starlink u) = true
      \/ 0 < obstruction_eta (starlink u) < 5).

(** The rules in their order; each one requires that the earlier ones do
    not apply. *)
Inductive tripwire_rule (cfg : config_t) : option uplink_t -> trigger_t -> Prop :=
  | rule_null : tripwire_rule cfg None TRIGGER_LINK_DOWN
  | rule_link_down u :
      enabled u = false \/ available u = false ->
      tripwire_rule cfg (Some u) TRIGGER_LINK_DOWN
  | rule_rtt_step u :
      enabled u = true -> available u = true ->
      rtt_stepped cfg u ->
      tripwire_rule cfg (Some u) TRIGGER_RTT_STEP
  | rule_probe_miss u :
      enabled u = true -> available u = true ->
      ~ rtt_stepped cfg u ->
      probe_miss_count cfg <= consec_fail u ->
      tripwire_rule cfg (Some u) TRIGGER_PROBE_MISS
  | rule_rsrp_drop u :
      enabled u = true -> available u = true ->
      ~ rtt_stepped cfg u ->
      consec_fail u < probe_miss_count cfg ->
      rsrp_dropped u ->
      tripwire_rule cfg (Some u) TRIGGER_RSRP_DROP
  | rule_starlink u :
      enabled u = true -> available u = true ->
      ~ rtt_stepped cfg u ->
      consec_fail u < probe_miss_count cfg ->
      ~ rsrp_dropped u ->
      starlink_obstructed u ->
      tripwire_rule cfg (Some u) TRIGGER_STARLINK_OBSTR
  | rule_none u :
      enabled u = true -> available u = true ->
      ~ rtt_stepped cfg u ->
      consec_fail u < probe_miss_count cfg ->
      ~ rsrp_dropped u ->
      ~ starlink_obstructed u ->
      tripwire_rule cfg (Some u) TRIGGER_NONE.

(** The same rules for the code's arithmetic in doubles.  [sum_fl fl l] is
    the sum of [l] as the loop forms it, from 0 and one rounded addition
    at a time, and [rtt_step_fl fl u] the step the code compares with the
    threshold: the rounded difference of the rounded mean and the
    baseline. *)
Definition sum_fl (fl : Q -> Q) (l : list Q) : Q :=
  fold_left (fun acc v => fl (acc + v)%Q) l 0%Q.

Definition rtt_step_fl (fl : Q -> Q) (u : uplink_t) : Q :=
  fl (fl (sum_fl fl (recent_successes u)
          / inject_Z (Z.of_nat (length (recent_successes u))))
      - rtt_baseline u)%Q.

Definition rtt_stepped_fl (fl : Q -> Q) (cfg : config_t) (u : uplink_t) : Prop :=
  5 <= history_idx u
  /\ recent_successes u <> []
  /\ (inject_Z (rtt_step_ms cfg) <= rtt_step_fl fl u)%Q.

Inductive tripwire_rule_fl (fl : Q -> Q) (cfg : config_t)
  : option uplink_t -> trigger_t -> Prop :=
  | rule_fl_null : tripwire_rule_fl fl cfg None TRIGGER_LINK_DOWN
  | rule_fl_link_down u :
      enabled u = false \/ available u = false ->
      tripwire_rule_fl fl cfg (Some u) TRIGGER_LINK_DOWN
  | rule_fl_rtt_step u :
      enabled u = true -> available u = true ->
      rtt_stepped_fl fl cfg u ->
      tripwire_rule_fl fl cfg (Some u) TRIGGER_RTT_STEP
  | rule_fl_probe_miss u :
      enabled u = true -> available u = true ->
      ~ rtt_stepped_fl fl cfg u ->
      probe_miss_count cfg <= consec_fail u ->
      tripwire_rule_fl fl cfg (Some u) TRIGGER_PROBE_MISS
  | rule_fl_rsrp_drop u :
      enabled u = true -> available u = true ->
      ~ rtt_stepped_fl fl cfg u ->
      consec_fail u < probe_miss_count cfg ->
      rsrp_dropped u ->
      tripwire_rule_fl fl cfg (Some u) TRIGGER_RSRP_DROP
  | rule_fl_starlink u :
      enabled u = true -> available u = true ->
      ~ rtt_stepped_fl fl cfg u ->
      consec_fail u < probe_miss_count cfg ->
      ~ rsrp_dropped u ->
      starlink_obstructed u ->
      tripwire_rule_fl fl cfg (Some u) TRIGGER_STARLINK_OBSTR
  | rule_fl_none u :
      enabled u = true -> available u = true ->
      ~ rtt_stepped_fl fl cfg u ->
      consec_fail u < probe_miss_count cfg ->
      ~ rsrp_dropped u ->
      ~ starlink_obstructed u ->
      tripwire_rule_fl fl cfg (Some u) TRIGGER_NONE.

(** Round-trip times and baselines of up to [10^6] ms: the sums, the mean
    and the step stay in the range of [double_rounding], and the five
    roundings move the step by [5 * 2^-31] at most. *)
Definition RTT_RANGE : Q := 1000000.

Definition rtt_in_range (u : uplink_t) : Prop :=
  Forall (fun v => (- RTT_RANGE <= v <= RTT_RANGE)%Q) (recent_successes u)
  /\ (- RTT_RANGE <= rtt_baseline u <= RTT_RANGE)%Q.

Definition RTT_STEP_ERR : Q := 5 # 2147483648.

(** Rule 2 read literally from the specification: the mean over the three
    most recent probes that succeeded, wherever they lie in the history. *)

(** The probes recorded so far, newest first. *)
Definition recorded (u : uplink_t) : list probe_t :=
  map (fun i => hist_at u (Z.rem (history_idx u - 1 - Z.of_nat i) HISTORY_SIZE))
      (seq 0 (Z.to_nat (Z.min (history_idx u) HISTORY_SIZE))).

Definition last_successful (n : nat) (u : uplink_t) : list Q :=
  take n (map p_rtt_ms (List.filter p_success (recorded u))).

Definition rtt_stepped_as_specified (cfg : config_t) (u : uplink_t) : Prop :=
  5 <= history_idx u
  /\ last_successful 3 u <> []
  /\ (inject_Z (rtt_step_ms cfg) <= Qmean (last_successful 3 u) - rtt_baseline u)%Q.

(** ** Best-uplink selection, declaratively *)

(** Uplink [i] takes part in the selection. *)
Definition candidate (w : world) (i : nat) : Prop :=
  (i < UPLINK_COUNT)%nat
  /\ enabled (uplink_at w i) = true /\ available (uplink_at w i) = true.

Definition bonus_starlink (u : uplink_t) : Q :=
  if type_eqb (u_type u) UPLINK_TYPE_STARLINK
     && online (starlink u) && negb (obstructed (starlink u))
  then 20%Q else 0%Q.

Definition bonus_lte (u : uplink_t) : Q :=
  if type_eqb (u_type u) UPLINK_TYPE_LTE && Qgtb (rsrp (cellular u)) (-90)
  then 15%Q else 0%Q.

(** ** Sample inputs *)

(** A configuration file with none of the keys: every value is its default. *)
Definition file_defaults : config_file :=
  mk_config_file None None None None None None None None None None None None [].

(** A clock reading (14 November 2023, in microseconds). *)
Definition T0 : Z := 1700000000000000.

Definition poll_fail (t : Z) : poll_in :=
  mk_poll_in t (-1)%Q 0 0 (Z.quot t 1000000) None None.

Definition poll_ok (t : Z) (rtt : Q) : poll_in :=
  mk_poll_in t rtt 0 0 (Z.quot t 1000000) None None.

(** Every clock reading of one pass is [t]; [verify] is the result of the
    route verification. *)
Definition env_at (t : Z) (verify : Z) : env := mk_env t t t verify t t 0.

(** First iteration: every probe fails.  Second iteration, 700 ms later:
    [cell_b] answers in 30 ms. *)
Definition iter_all_fail : iter_in :=
  mk_iter T0 None (replicate UPLINK_COUNT (poll_fail T0)) (env_at T0 0) [].

Definition iter_cell_b_back : iter_in :=
  mk_iter (T0 + 700000) None
    [poll_fail (T0 + 700000); poll_ok (T0 + 700000) 30%Q;
     poll_fail (T0 + 700000); poll_fail (T0 + 700000);
     poll_fail (T0 + 700000); poll_fail (T0 + 700000)]
    (env_at (T0 + 700000) 0) [].

(** The world after the first of these iterations: no uplink is available. *)
Definition world_no_peer : world :=
  snd (main_iteration 100000 (0, 0, main_startup (Some file_defaults)) iter_all_fail).

(** An iteration in which every probe answers in 30 ms, and the world
    after it: every uplink is available, the state is NORMAL. *)
Definition iter_all_ok : iter_in :=
  mk_iter T0 None (replicate UPLINK_COUNT (poll_ok T0 30%Q)) (env_at T0 0) [].

Definition world_all_up : world :=
  snd (main_iteration 100000 (0, 0, main_startup (Some file_defaults)) iter_all_ok).

(** The operator's [trigger] command in [world_all_up]: [cell_b] becomes
    the duplication peer and the state PROTECT. *)
Definition world_protected : world :=
  process_one_command "trigger" "1.cmd" (env_at T0 0) world_all_up.

(** The window opened by that [trigger], continued without any [force:]:
    the operator fails [cell_a], and 700 ms later the state machine
    arbitrates and switches to [cell_b]. *)
Definition world_window_switched : world :=
  run_op (OpStateMachine (env_at (T0 + 700000) 0))
    (run_op (OpCommand "fail:cell_a" "2.cmd" (env_at T0 0)) world_protected).

(** The same window after three verified [force:] commands instead: the
    counter is at 3 and the state still PROTECT. *)
Definition world_forced_thrice : world :=
  run_op (OpCommand "force:cell_b" "4.cmd" (env_at T0 0))
    (run_op (OpCommand "force:cell_a" "3.cmd" (env_at T0 0))
       (run_op (OpCommand "force:cell_b" "2.cmd" (env_at T0 0)) world_protected)).

(** [cell_a] after five probes: 30 ms, 30 ms, two failures, then 200 ms. *)
Definition uplink_after_glitch : uplink_t :=
  fold_left (fun u p => uplink_probe p u)
    [poll_ok T0 30%Q; poll_ok (T0 + 100000) 30%Q; poll_fail (T0 + 200000);
     poll_fail (T0 + 300000); poll_ok (T0 + 400000) 200%Q]
    (uplink_at (main_startup (Some file_defaults)) UPLINK_CELL_A).

(** [cell_a] with the doubles nearest 253.5 and 295.3 ms as its last two
    probes, a failure before them, and the double nearest 194.4 ms as its
    baseline: in exact arithmetic the step is 80 ms up to the rounding of
    the three inputs, the default threshold. *)
Definition uplink_at_threshold : uplink_t :=
  set_rtt_baseline (round_double (1944 # 10))
    (fold_left (fun u p => uplink_probe p u)
       [poll_ok T0 190%Q; poll_ok (T0 + 100000) 190%Q; poll_fail (T0 + 200000);
        poll_ok (T0 + 300000) (round_double (2953 # 10));
        poll_ok (T0 + 400000) (round_double (2535 # 10))]
       (uplink_at (main_startup (Some file_defaults)) UPLINK_CELL_A)).

(** The configuration [file_defaults] gives. *)
Definition config_defaults : config_t := g_config (main_startup (Some file_defaults)).

(** [world_all_up] after the operator forced [cell_b], at the point where a
    later [force:auto] has cleared the lock and calls [select_best_uplink]:
    [cell_a] and [cell_b] have the same metrics. *)
Definition world_tie : world :=
  upd_status (fun s =>
      set_state STATE_NORMAL (set_switches_this_window 0 (set_force_locked false s)))
    (set_g_last_cmd_id "3.cmd"
       (process_one_command "force:cell_b" "2.cmd" (env_at T0 0) world_all_up)).

(** After an iteration in which only the two cellular uplinks answer:
    [cell_a], the active uplink, has the double nearest 18.4 ms as its RTT,
    a risk of 0.5 and a loss of 10 %, [cell_b] the double nearest 43.4 ms,
    no risk and the same loss.  With the decimal values both score -28.4. *)
Definition iter_cells_up : iter_in :=
  mk_iter T0 None
    (poll_ok T0 30%Q :: poll_ok T0 30%Q :: replicate 4 (poll_fail T0))
    (env_at T0 0) [].

Definition world_near_tie : world :=
  upd_uplink UPLINK_CELL_B
    (fun u => set_loss_pct 10%Q (set_risk_now 0%Q (set_rtt_ms (round_double (434 # 10)) u)))
    (upd_uplink UPLINK_CELL_A
       (fun u => set_loss_pct 10%Q
                   (set_risk_now (1 # 2) (set_rtt_ms (round_double (184 # 10)) u)))
       (snd (main_iteration 100000 (0, 0, main_startup (Some file_defaults))
               iter_cells_up))).

(** A chaos file that injects a loss of -50 on [cell_a]. *)
Definition chaos_negative_loss : chaos_file :=
  [Some (mk_chaos None None (Some (-50)%Q)); None; None; None; None; None].

(** A chaos file that injects 30 % of loss on [cell_a] and 50 ms on
    [cell_b]. *)
Definition chaos_loss_and_rtt : chaos_file :=
  [Some (mk_chaos None None (Some 30%Q)); Some (mk_chaos (Some 50%Q) None None);
   None; None; None; None].

(** The first iteration when it reads that file and every probe answers
    in 30 ms. *)
Definition world_chaos_polled : world :=
  snd (main_iteration 100000 (0, 0, main_startup (Some file_defaults))
         (mk_iter T0 (Some chaos_loss_and_rtt) (replicate UPLINK_COUNT (poll_ok T0 30%Q))
            (env_at T0 0) [])).

(** A configuration file in which the test of [main] finds [sl_b]
    disabled. *)
Definition file_sl_b_disabled : config_file :=
  mk_config_file None None None None None None None None None None None None
    [false; false; false; true; false; false].

(** An iteration in which [cell_a] does not answer and the others do, and
    the world after it: the tripwire has fired (LINK_DOWN), packets are
    duplicated to [cell_b], the state is PROTECT. *)
Definition iter_cell_a_down : iter_in :=
  mk_iter T0 None
    (poll_fail T0 :: replicate 5 (poll_ok T0 30%Q)) (env_at T0 0) [].

Definition world_cell_a_down : world :=
  snd (main_iteration 100000 (0, 0, main_startup (Some file_defaults))
         iter_cell_a_down).

(** ** Invariants used in the proofs *)

(** The flags of an array in which uplink [a] alone is active. *)
Definition flags_for (a : nat) : list bool := map (Nat.eqb a) (seq 0 UPLINK_COUNT).

(** The invariant: the active uplink exists, and [is_active] is set on it
    and on no other. *)
Definition active_inv (w : world) : Prop :=
  (active_uplink (g_status w) < UPLINK_COUNT)%nat
  /\ map is_active (g_uplinks w) = flags_for (active_uplink (g_status w)).

(** What the invariant looks at. *)
Definition act_sig (w : world) : list bool * nat :=
  (map is_active (g_uplinks w), active_uplink (g_status w)).

(** Uplink [i] is enabled and available. *)
Definition candb (w : world) (i : nat) : bool :=
  enabled (uplink_at w i) && available (uplink_at w i).

(** The invariant of the loop of [select_best_uplink] after [n] rounds, on
    the scores as computed with the rounding [fl]. *)
Definition select_inv (fl : Q -> Q) (w : world) (n : nat) (acc : nat * Q) : Prop :=
  (acc = (active_uplink (g_status w), (-9999)%Q)
   /\ forall i, (i < n)%nat -> candb w i = true ->
                (score_fl fl (uplink_at w i) <= -9999)%Q)
  \/ ((fst acc < n)%nat
      /\ candb w (fst acc) = true
      /\ snd acc = score_fl fl (uplink_at w (fst acc))
      /\ (-9999 < snd acc)%Q
      /\ (forall i, (i < n)%nat -> candb w i = true ->
                    (score_fl fl (uplink_at w i) <= snd acc)%Q)
      /\ (forall i, (i < fst acc)%nat -> candb w i = true ->
                    (score_fl fl (uplink_at w i) < snd acc)%Q)).

(** Metrics for which the score stays in the range of [double_rounding];
    its six roundings at most then move it by [6 * 2^-31] at most. *)
Definition score_in_range (u : uplink_t) : Prop :=
  (- (1000000) <= rtt_ms u <= 1000000)%Q
  /\ (- (1000) <= risk_now u <= 1000)%Q
  /\ (- (1000) <= loss_pct u <= 1000)%Q.

Definition SCORE_ERR : Q := 6 # 2147483648.

Ltac break_ifs :=
  repeat match goal with
         | |- context [if ?c then _ else _] => destruct c
         end.

(** ** How one uplink record changes *)

(** The elementary updates the daemon applies to one [uplink_t] on its own:
    the assignments of [chaos_read], [uplink_poll], [cellular_poll],
    [starlink_poll], [prediction_tick] and [execute_switch].  The probe, the
    two signal polls and the risk update are only applied to an enabled
    uplink. *)
Inductive auto_step : uplink_t -> uplink_t -> Prop :=
  | as_chaos_reset u : auto_step u (chaos_reset u)
  | as_chaos_apply e u : auto_step u (chaos_apply e u)
  | as_probe p u : enabled u = true -> auto_step u (uplink_probe p u)
  | as_cellular rsrp' sinr' u :
      enabled u = true ->
      auto_step u
        (set_cellular (mk_cellular rsrp' sinr' (carrier (cellular u))) u)
  | as_starlink out u :
      enabled u = true -> auto_step u (starlink_poll out u)
  | as_risk u : enabled u = true -> auto_step u (risk_update u)
  | as_active b u : auto_step u (set_is_active b u).

(** The assignments of the operator commands [enable:], [disable:],
    [force:], [fail:] and [unfail:]. *)
Inductive cmd_step : uplink_t -> uplink_t -> Prop :=
  | cs_enabled b u : cmd_step u (set_enabled b u)
  | cs_force u :
      cmd_step u (set_available true (set_force_failed false u))
  | cs_fail u :
      cmd_step u
        (set_consec_fail 10 (set_force_failed true (set_available false u)))
  | cs_unfail u :
      cmd_step u
        (set_consec_fail 0 (set_available true (set_force_failed false u))).

Definition uplink_step (u u' : uplink_t) : Prop := auto_step u u' \/ cmd_step u u'.

(** Zero or more steps of [S]. *)
Inductive evolves (S : uplink_t -> uplink_t -> Prop) : uplink_t -> uplink_t -> Prop :=
  | ev_refl u : evolves S u u
  | ev_step u u' u'' : evolves S u u' -> S u' u'' -> evolves S u u''.

(** The uplink array as [uplinks_init] leaves it. *)
Definition init_uplinks : list uplink_t := g_uplinks (uplinks_init world_zero).

(** Run a list of operations, first to last. *)
Definition run_ops (ops : list op) (w : world) : world :=
  fold_left (fun w o => run_op o w) ops w.

(** Is [o] an operator command? *)
Definition is_command (o : op) : bool :=
  match o with OpCommand _ _ _ => true | _ => false end.

(** [w'] has the uplinks of [w], each possibly updated. *)
Definition follows (S : uplink_t -> uplink_t -> Prop) (w w' : world) : Prop :=
  Forall2 (evolves S) (g_uplinks w) (g_uplinks w').

(** ** The three parts of the body of [uplink_poll] *)

(** Record the sample in the history ring. *)
Definition probe_record (p : poll_in) (u : uplink_t) : uplink_t :=
  let idx := Z.rem (history_idx u) HISTORY_SIZE in
  let sample :=
    mk_probe (pi_rtt p + chaos_rtt u + jitter_term (chaos_jitter u) (pi_rand1 p))%Q
             (Qgtb (pi_rtt p) 0) (pi_start p) in
  let u := set_history (<[Z.to_nat idx := sample]> (history u)) u in
  set_history_idx (history_idx u + 1) u.

(** Update RTT, availability, failure count and baseline. *)
Definition probe_metrics (p : poll_in) (u : uplink_t) : uplink_t :=
  let rtt := pi_rtt p in
  if Qgtb rtt 0 then
    let u := set_rtt_ms
               (rtt + (chaos_rtt u + jitter_term (chaos_jitter u) (pi_rand2 p)))%Q u in
    let u := if negb (force_failed u) then set_available true u else u in
    let u := set_consec_fail 0 u in
    if Qeq_bool (rtt_baseline u) 0
    then set_rtt_baseline rtt u
    else set_rtt_baseline (rtt_baseline u * (95 # 100) + rtt * (5 # 100))%Q u
  else
    let u := set_consec_fail (consec_fail u + 1) u in
    if consec_fail u >? 5 then set_available false u else u.

(** Recompute the loss percentage. *)
Definition probe_loss (u : uplink_t) : uplink_t :=
  let '(success, total) := loss_loop 20 u 0 0 0 in
  if total >? 0 then
    let u := set_loss_pct (100 * inject_Z (total - success) / inject_Z total)%Q u in
    let u := set_loss_pct (loss_pct u + chaos_loss u)%Q u in
    if Qgtb (loss_pct u) 100 then set_loss_pct 100%Q u else u
  else u.

(** The fields of an uplink that say what it is. *)
Definition identity (u : uplink_t) :=
  (name u, interface u, netns u, veth u, u_id u, u_type u, carrier (cellular u)).

(** [world_all_up] after the operator's [fail:cell_b]. *)
Definition world_cell_b_failed : world :=
  process_one_command "fail:cell_b" "2.cmd" (env_at T0 0) world_all_up.

(** [world_all_up] after the operator forced [cell_b]: the lock is set. *)
Definition world_forced : world :=
  process_one_command "force:cell_b" "2.cmd" (env_at T0 0) world_all_up.

(** A run of probes on one uplink, first to last. *)
Definition probe_run (ps : list poll_in) (u : uplink_t) : uplink_t :=
  fold_left (fun u p => uplink_probe p u) ps u.

(** The running maximum of [prediction_tick]: the largest [risk_now] among
    the enabled, active uplinks, and at least [m]. *)
Definition max_active_risk (ups : list uplink_t) (m : Q) : Q :=
  fold_left
    (fun (m : Q) (u : uplink_t) =>
       if enabled u && is_active u && Qgtb (risk_now u) m then risk_now u else m)
    ups m.

(** [world_protected] one second later, after a protection tick that found
    the active uplink clean. *)
Definition world_protected_clean : world :=
  protection_tick (T0 + 1000000) world_protected.

(** What the daemon decides, as opposed to what it measures: [g_status]
    apart from the two outputs of the prediction pass, the [is_active]
    flags and the duplication rule installed in [ns_vip]. *)
Definition control (w : world) : status_t * list bool * option dup_rule :=
  (set_recommendation EmptyString (set_global_risk 0%Q (g_status w)),
   map is_active (g_uplinks w), dup_table w).

(** [world_all_up] after the operator's [mode:training]. *)
Definition world_training : world :=
  process_one_command "mode:training" "2.cmd" (env_at T0 0) world_all_up.

(** None of the operations [ops], run from [w] on, calls [tripwire_fire]. *)
Fixpoint no_fire (ops : list op) (w : world) : bool :=
  match ops with
  | [] => true
  | o :: ops' => negb (enters_protection o w) && no_fire ops' (run_op o w)
  end.

(** Is [o] a measurement: a chaos read, a poll or a prediction pass? *)
Definition is_measurement (o : op) : bool :=
  match o with
  | OpChaos _ | OpPoll _ _ | OpPredict => true
  | _ => false
  end.

(** What the daemon knows about the health of an uplink: every field but
    the identity, the chaos values and [is_active]. *)
Definition health (u : uplink_t) :=
  (enabled u, available u, force_failed u, consec_fail u,
   rtt_ms u, rtt_baseline u, loss_pct u, history u, history_idx u,
   risk_now u, cellular u, starlink u).

(** [world_all_up] after the operator's [disable:cell_b]. *)
Definition world_cell_b_disabled : world :=
  process_one_command "disable:cell_b" "2.cmd" (env_at T0 0) world_all_up.

(** * Theorems *)

(** ** Arithmetic of the clock *)

Lemma quot_ms_lt (d k : Z) : 0 < k -> d < k * 1000 -> Z.quot d 1000 < k.
Proof.
  intros Hk H.
  destruct (Z_le_gt_dec 0 d).
  - apply Z.quot_lt_upper_bound; lia.
  - assert (Z.quot d 1000 <= Z.quot 0 1000) by (apply Z.quot_le_mono; lia).
    rewrite Z.quot_0_l in H0 by lia. lia.
Qed.

Lemma quot_ms_ge (d k : Z) : k * 1000 <= d -> k <= Z.quot d 1000.
Proof.
  intros H.
  replace k with (Z.quot (k * 1000) 1000) by (apply Z.quot_mul; lia).
  apply Z.quot_le_mono; lia.
Qed.

Lemma settle_elapsed_iff (d : Z) :
  (Z.quot d 1000 >=? DUP_SETTLE_MS) = (DUP_SETTLE_MS * 1000 <=? d).
Proof.
  unfold DUP_SETTLE_MS.
  destruct (Z.leb_spec (50 * 1000) d) as [H|H].
  - apply quot_ms_ge in H. apply Z.geb_le. lia.
  - apply quot_ms_lt in H; [|lia].
    destruct (Z.geb_spec (Z.quot d 1000) 50); [lia|reflexivity].
Qed.

(** ** What [execute_switch] leaves alone *)

Lemma execute_switch_dup target verify t w :
  dup_state (execute_switch target verify t w) = dup_state w.
Proof. unfold execute_switch. destruct (verify =? 0); reflexivity. Qed.

Lemma execute_switch_failed target verify t w :
  verify <> 0 ->
  execute_switch target verify t w
  = log_event "switch_fail" (log_event "switch" w).
Proof.
  intros H. unfold execute_switch.
  destruct (Z.eqb_spec verify 0); [contradiction|reflexivity].
Qed.

Lemma not_committed_status (f : status_t -> status_t) w :
  (forall s, active_uplink (f s) = active_uplink s) ->
  (forall s, switches_this_window (f s) = switches_this_window s) ->
  ~ switch_committed w (upd_status f w).
Proof.
  intros Ha Hs [H|[H|H]]; cbn in H.
  - rewrite Ha in H. congruence.
  - congruence.
  - rewrite Hs in H. congruence.
Qed.

Lemma arbitrate_switch_dup elapsed_ms verify t_sw w :
  dup_state (arbitrate_switch elapsed_ms verify t_sw w) = dup_state w.
Proof.
  unfold arbitrate_switch.
  repeat match goal with |- context [if ?c then _ else _] => destruct c end;
    try reflexivity.
  cbv zeta. rewrite <- (execute_switch_dup (select_best_uplink w) verify t_sw w).
  reflexivity.
Qed.

Lemma arbitrate_switch_engaged elapsed_ms verify t_sw w :
  dup_engaged_at_us (g_status (arbitrate_switch elapsed_ms verify t_sw w))
  = dup_engaged_at_us (g_status w).
Proof.
  pose proof (arbitrate_switch_dup elapsed_ms verify t_sw w) as E.
  unfold dup_state in E. congruence.
Qed.

(** C1. In an arbitration tick with duplication enabled: while duplication
    is not yet engaged and less than [DUP_SETTLE_MS] has passed since
    [dup_enabled_at_us], the tick only sets the state to SWITCHING and
    commits no switch; once the settle delay has passed it sets
    [dup_engaged_at_us] to [now]; and whenever the tick commits a switch,
    [dup_engaged_at_us] is non-zero afterwards.  [now] is a reading of the
    wall clock, microseconds since 1970, hence positive. *)
Theorem settle_before_switch (now verify t_sw : Z) (w : world) :
  dup_enabled (g_status w) = true ->
  0 < now ->
  let w' := slowpath_arbitrate now verify t_sw w in
  (dup_engaged_at_us (g_status w) = 0 ->
   now - dup_enabled_at_us (g_status w) < DUP_SETTLE_MS * 1000 ->
   w' = upd_status (set_state STATE_SWITCHING) w
   /\ state (g_status w') = STATE_SWITCHING
   /\ ~ switch_committed w w')
  /\ (dup_engaged_at_us (g_status w) = 0 ->
      DUP_SETTLE_MS * 1000 <= now - dup_enabled_at_us (g_status w) ->
      dup_engaged_at_us (g_status w') = now)
  /\ (switch_committed w w' -> dup_engaged_at_us (g_status w') <> 0).
Proof.
  intros Hen Hnow w'. subst w'.
  unfold slowpath_arbitrate, settle_gate. rewrite Hen. cbn [andb].
  rewrite settle_elapsed_iff.
  destruct (Z.eqb_spec (dup_engaged_at_us (g_status w)) 0) as [He|He].
  - destruct (Z.leb_spec (DUP_SETTLE_MS * 1000) (now - dup_enabled_at_us (g_status w)))
      as [Hs|Hs].
    + split; [intros _ Hlt; lia|].
      rewrite arbitrate_switch_engaged. cbn.
      split; [reflexivity|intros _; lia].
    + split.
      * intros _ _. split; [reflexivity|]. split; [reflexivity|].
        apply not_committed_status; reflexivity.
      * split; [intros _ Hge; lia|].
        intros Hc. exfalso. revert Hc. apply not_committed_status; reflexivity.
  - split; [intros; congruence|]. split; [intros; congruence|].
    intros _. rewrite arbitrate_switch_engaged. assumption.
Qed.

Lemma settle_before_switch_witness :
  dup_enabled (g_status world_cell_a_down) = true
  /\ dup_engaged_at_us
       (g_status (slowpath_arbitrate (T0 + 700000) 0 (T0 + 700000) world_cell_a_down))
     = T0 + 700000.
Proof.
  split; [reflexivity|].
  refine (proj1 (proj2 (settle_before_switch (T0 + 700000) 0 (T0 + 700000)
                          world_cell_a_down eq_refl eq_refl)) _ _).
  - reflexivity.
  - vm_compute. discriminate.
Defined.

Lemma settle_gate_inr now w w1 :
  settle_gate now w = inr w1 ->
  w1 = w \/ w1 = log_event "dup_engaged" (upd_status (set_dup_engaged_at_us now) w).
Proof.
  unfold settle_gate.
  repeat match goal with |- context [if ?c then _ else _] => destruct c end;
    intros E; inversion E; auto.
Qed.

(** C3. When the route verification fails, [execute_switch] changes nothing
    in [g_status] (so [active_uplink], [switches_this_window] and
    [switch_start_us] keep their values) and nothing in the uplink array (so
    every [is_active] flag keeps its value); it logs [switch] and
    [switch_fail].  The arbitration that called it still ends in HOLDING. *)
Theorem switch_verification_failure (target : nat) (verify t : Z) (w : world) :
  verify <> 0 ->
  (let w' := execute_switch target verify t w in
   g_status w' = g_status w
   /\ g_uplinks w' = g_uplinks w
   /\ g_log w' = "switch_fail" :: "switch" :: g_log w)
  /\ forall now w1,
       settle_gate now w = inr w1 ->
       preroll_ms (g_config w) <= Z.quot (now - protect_start_us (g_status w)) 1000 ->
       switches_this_window (g_status w) < 3 ->
       select_best_uplink w1 <> active_uplink (g_status w) ->
       let w' := slowpath_arbitrate now verify t w in
       w' = upd_status (set_state STATE_HOLDING)
              (execute_switch (select_best_uplink w1) verify t w1)
       /\ state (g_status w') = STATE_HOLDING
       /\ active_uplink (g_status w') = active_uplink (g_status w)
       /\ g_uplinks w' = g_uplinks w
       /\ switches_this_window (g_status w') = switches_this_window (g_status w)
       /\ switch_start_us (g_status w') = switch_start_us (g_status w)
       /\ hd_error (g_log w') = Some "switch_fail".
Proof.
  intros Hv. split.
  - rewrite execute_switch_failed by assumption. cbn. auto.
  - intros now w1 Hgate Hpre Hsw Hbest w'. subst w'.
    unfold slowpath_arbitrate. rewrite Hgate.
    assert (Hw1 : g_config w1 = g_config w /\ g_uplinks w1 = g_uplinks w
                  /\ active_uplink (g_status w1) = active_uplink (g_status w)
                  /\ switches_this_window (g_status w1) = switches_this_window (g_status w)
                  /\ switch_start_us (g_status w1) = switch_start_us (g_status w)).
    { destruct (settle_gate_inr _ _ _ Hgate) as [->| ->]; cbn; auto. }
    destruct Hw1 as (Hc & Hu & Ha & Hs & Ht).
    unfold arbitrate_switch. rewrite Hc, Hs, Ha.
    destruct (Z.ltb_spec (Z.quot (now - protect_start_us (g_status w)) 1000)
                (preroll_ms (g_config w))); [lia|].
    destruct (Z.geb_spec (switches_this_window (g_status w)) 3); [lia|].
    destruct (Nat.eqb_spec (select_best_uplink w1) (active_uplink (g_status w)));
      [contradiction|].
    cbn [negb]. rewrite execute_switch_failed by assumption. cbn.
    rewrite Hu, Ha, Hs, Ht. auto 10.
Qed.

Lemma switch_verification_failure_witness :
  g_status (execute_switch UPLINK_CELL_B 1 (T0 + 700000) world_cell_a_down)
  = g_status world_cell_a_down
  /\ state (g_status (slowpath_arbitrate (T0 + 700000) 1 (T0 + 700000)
                        world_cell_a_down))
     = STATE_HOLDING.
Proof.
  assert (Hv : 1 <> 0) by discriminate.
  destruct (switch_verification_failure UPLINK_CELL_B 1 (T0 + 700000)
              world_cell_a_down Hv) as [(H1 & _) H2].
  split; [exact H1|].
  assert (Hgate : settle_gate (T0 + 700000) world_cell_a_down
                  = inr (log_event "dup_engaged"
                           (upd_status (set_dup_engaged_at_us (T0 + 700000))
                              world_cell_a_down)))
    by (vm_compute; reflexivity).
  assert (Hpre : preroll_ms (g_config world_cell_a_down)
                 <= Z.quot (T0 + 700000 - protect_start_us (g_status world_cell_a_down))
                      1000)
    by (vm_compute; discriminate).
  assert (Hsw : switches_this_window (g_status world_cell_a_down) < 3)
    by (vm_compute; reflexivity).
  assert (Hbest : select_best_uplink
                    (log_event "dup_engaged"
                       (upd_status (set_dup_engaged_at_us (T0 + 700000))
                          world_cell_a_down))
                  <> active_uplink (g_status world_cell_a_down))
    by (vm_compute; discriminate).
  exact (proj1 (proj2 (H2 (T0 + 700000) _ Hgate Hpre Hsw Hbest))).
Defined.

(** ** Duplication control *)

(** C9 (as amended). After [dup_enable] then [dup_disable], [dup_enabled]
    is false and no rule is installed; [dup_disable] clears neither
    timestamp: when the destination device has a gateway,
    [dup_enabled_at_us] keeps the time of the [dup_enable] call and
    [dup_engaged_at_us] is the zero that [dup_enable] stored; when it has
    none, [dup_enable] changed nothing and both timestamps keep their
    earlier values.  A second [dup_enable] with the same arguments gives the
    duplication state that a single call at that time gives. *)
Theorem dup_enable_disable (src dst : string) (t : Z) (w : world) :
  let w1 := snd (dup_enable src dst t w) in
  let w2 := snd (dup_disable w1) in
  dup_enabled (g_status w2) = false
  /\ dup_table w2 = None
  /\ match find_gw VIP_DEVS VIP_GWS dst with
     | Some _ =>
         dup_enabled_at_us (g_status w2) = t
         /\ dup_engaged_at_us (g_status w2) = 0
     | None =>
         dup_enabled_at_us (g_status w2) = dup_enabled_at_us (g_status w)
         /\ dup_engaged_at_us (g_status w2) = dup_engaged_at_us (g_status w)
     end
  /\ forall t', dup_state (snd (dup_enable src dst t' w1))
                = dup_state (snd (dup_enable src dst t' w)).
Proof.
  unfold dup_enable, dup_disable.
  destruct (find_gw VIP_DEVS VIP_GWS dst) as [gw|]; cbn; auto.
Qed.

(** C9, counterexample. [dup_enable] with a known destination followed by
    [dup_disable]: [dup_enabled] is false, but [dup_enabled_at_us] still
    holds the time of the [dup_enable] call. *)
Lemma dup_disable_keeps_timestamp_counterexample :
  let w1 := snd (dup_enable "vip_cell_a" "vip_cell_b" T0 world_all_up) in
  let w2 := snd (dup_disable w1) in
  dup_enabled_at_us (g_status world_all_up) = 0
  /\ dup_enabled (g_status w2) = false
  /\ dup_enabled_at_us (g_status w2) = T0
  /\ T0 = 1700000000000000.
Proof. vm_compute. repeat split. Qed.

(** ** The scan for a secondary uplink *)

Lemma scan_secondary_fuel (n : nat) (w : world) (active : nat) :
  (active < UPLINK_COUNT)%nat ->
  scan_secondary (UPLINK_COUNT + n) w active ((active + 1) mod UPLINK_COUNT)%nat
  = scan_secondary UPLINK_COUNT w active ((active + 1) mod UPLINK_COUNT)%nat.
Proof.
  unfold UPLINK_COUNT. intros H.
  do 6 (destruct active as [|active]; [
    cbn; repeat match goal with
                | |- context [if ?c then _ else _] => destruct c; try reflexivity
                end | ]).
  lia.
Qed.

Lemma find_secondary_spec (w : world) :
  (active_uplink (g_status w) < UPLINK_COUNT)%nat ->
  let s := find_secondary w in
  (s < UPLINK_COUNT)%nat
  /\ (s <> active_uplink (g_status w) ->
      enabled (uplink_at w s) && available (uplink_at w s) = true).
Proof.
  unfold find_secondary, UPLINK_COUNT. intros H.
  destruct (active_uplink (g_status w)) as [|a]; [|
  destruct a as [|a]; [|destruct a as [|a]; [|destruct a as [|a]; [|
  destruct a as [|a]; [|destruct a as [|a]; [|lia]]]]]];
    cbn;
    repeat match goal with
           | |- context [if ?c then _ else _] => destruct c eqn:?
           end; split; (lia || (intros; congruence) || (intros; assumption)).
Qed.

Lemma find_secondary_none (w : world) :
  (active_uplink (g_status w) < UPLINK_COUNT)%nat ->
  (forall i, (i < UPLINK_COUNT)%nat -> i <> active_uplink (g_status w) ->
             enabled (uplink_at w i) && available (uplink_at w i) = false) ->
  find_secondary w = active_uplink (g_status w).
Proof.
  intros Ha Hno.
  destruct (find_secondary_spec w Ha) as [Hlt Hs].
  destruct (Nat.eq_dec (find_secondary w) (active_uplink (g_status w))) as [E|E];
    [exact E|].
  specialize (Hs E). rewrite (Hno _ Hlt E) in Hs. discriminate.
Qed.

(** C10. When the tripwire fires and no uplink other than the active one is
    both enabled and available, the scan for a secondary comes back to the
    active uplink, [dup_enable] is not called (the duplication state is
    untouched, so [dup_enabled] stays false if it was, and the only event
    logged is [tripwire_fire]), and the state still becomes PROTECT with the
    window counters reset.  The settle gate of the arbitration lets every
    state with [dup_enabled] false through unchanged, and there is a run of
    the main loop in which a switch then commits with no duplication
    installed: all probes fail in the first iteration, [cell_b] answers in
    the second. *)
Theorem fire_without_peer (reason : trigger_t) (detail : string)
    (t_dup t_protect : Z) (w : world) :
  (active_uplink (g_status w) < UPLINK_COUNT)%nat ->
  (forall i, (i < UPLINK_COUNT)%nat -> i <> active_uplink (g_status w) ->
             enabled (uplink_at w i) && available (uplink_at w i) = false) ->
  let w' := tripwire_fire reason detail t_dup t_protect w in
  find_secondary w = active_uplink (g_status w)
  /\ dup_state w' = dup_state w
  /\ g_log w' = "tripwire_fire" :: g_log w
  /\ state (g_status w') = STATE_PROTECT
  /\ protect_start_us (g_status w') = t_protect
  /\ switches_this_window (g_status w') = 0
  /\ last_clean_us (g_status w') = 0
  /\ flap_suppressed (g_status w') = false
  /\ (forall now w2, dup_enabled (g_status w2) = false ->
                     settle_gate now w2 = inr w2)
  /\ exists file it1 it2,
       let st1 := main_iteration 100000 (0, 0, main_startup file) it1 in
       let st2 := main_iteration 100000 st1 it2 in
       state (g_status (snd st1)) = STATE_PROTECT
       /\ dup_state (snd st1) = (false, 0, 0, None)
       /\ active_uplink (g_status (snd st1)) = UPLINK_CELL_A
       /\ active_uplink (g_status (snd st2)) = UPLINK_CELL_B
       /\ switches_this_window (g_status (snd st2)) = 1
       /\ dup_state (snd st2) = (false, 0, 0, None).
Proof.
  intros Ha Hno w'. subst w'.
  pose proof (find_secondary_none w Ha Hno) as Hs.
  unfold tripwire_fire. rewrite Hs, Nat.eqb_refl. cbn.
  repeat (split; [reflexivity|]).
  split.
  - intros now w2 H. unfold settle_gate. rewrite H. reflexivity.
  - exists (Some file_defaults), iter_all_fail, iter_cell_b_back.
    vm_compute. repeat split.
Qed.

Lemma fire_without_peer_witness :
  dup_state (tripwire_fire TRIGGER_MANUAL "operator" T0 T0 world_no_peer)
  = dup_state world_no_peer
  /\ state (g_status (tripwire_fire TRIGGER_MANUAL "operator" T0 T0 world_no_peer))
     = STATE_PROTECT.
Proof.
  assert (Ha : (active_uplink (g_status world_no_peer) < UPLINK_COUNT)%nat)
    by (vm_compute; repeat constructor).
  assert (Hno : forall i, (i < UPLINK_COUNT)%nat ->
                  i <> active_uplink (g_status world_no_peer) ->
                  enabled (uplink_at world_no_peer i)
                  && available (uplink_at world_no_peer i) = false).
  { intros i Hi _. unfold UPLINK_COUNT in Hi.
    do 6 (destruct i as [|i]; [vm_compute; reflexivity|]). lia. }
  destruct (fire_without_peer TRIGGER_MANUAL "operator" T0 T0 world_no_peer Ha Hno)
    as (_ & H1 & _ & H2 & _).
  split; [exact H1|exact H2].
Defined.

(** ** The switch counter *)

Lemma execute_switch_counter target verify t w :
  let n := switches_this_window (g_status w) in
  let n' := switches_this_window (g_status (execute_switch target verify t w)) in
  n' = n \/ n' = n + 1.
Proof. unfold execute_switch. destruct (verify =? 0); cbn; auto. Qed.

Lemma arbitrate_switch_counter elapsed_ms verify t_sw w :
  let n := switches_this_window (g_status w) in
  let n' := switches_this_window (g_status (arbitrate_switch elapsed_ms verify t_sw w)) in
  n <= n' /\ (n <= 3 -> n' <= 3).
Proof.
  unfold arbitrate_switch.
  destruct (elapsed_ms <? preroll_ms (g_config w)); [cbn; lia|].
  destruct (Z.geb_spec (switches_this_window (g_status w)) 3); [cbn; lia|].
  cbv zeta.
  destruct (negb _); [|cbn; lia].
  cbn. pose proof (execute_switch_counter (select_best_uplink w) verify t_sw w) as Hx.
  cbv zeta in Hx. lia.
Qed.

Lemma arbitrate_switch_capped elapsed_ms verify t_sw w :
  3 <= switches_this_window (g_status w) ->
  let w' := arbitrate_switch elapsed_ms verify t_sw w in
  g_uplinks w' = g_uplinks w
  /\ active_uplink (g_status w') = active_uplink (g_status w)
  /\ switches_this_window (g_status w') = switches_this_window (g_status w)
  /\ g_log w' = g_log w
  /\ (preroll_ms (g_config w) <= elapsed_ms -> flap_suppressed (g_status w') = true).
Proof.
  intros H. unfold arbitrate_switch.
  destruct (Z.ltb_spec elapsed_ms (preroll_ms (g_config w))).
  - cbn. repeat split; auto. lia.
  - destruct (Z.geb_spec (switches_this_window (g_status w)) 3); [|lia].
    cbn. auto.
Qed.

Lemma settle_gate_cases now w :
  (exists w1, settle_gate now w = inl w1
              /\ w1 = upd_status (set_state STATE_SWITCHING) w)
  \/ (exists w1, settle_gate now w = inr w1
                 /\ (w1 = w \/ w1 = log_event "dup_engaged"
                                      (upd_status (set_dup_engaged_at_us now) w))).
Proof.
  unfold settle_gate. break_ifs; eauto.
Qed.

Lemma slowpath_arbitrate_counter now verify t_sw w :
  let n := switches_this_window (g_status w) in
  let n' := switches_this_window (g_status (slowpath_arbitrate now verify t_sw w)) in
  n <= n' /\ (n <= 3 -> n' <= 3).
Proof.
  unfold slowpath_arbitrate.
  destruct (settle_gate_cases now w) as [(w1 & -> & ->)|(w1 & -> & [->| ->])].
  - cbn. lia.
  - apply arbitrate_switch_counter.
  - pose proof (arbitrate_switch_counter
                  (Z.quot (now - protect_start_us (g_status w)) 1000) verify t_sw
                  (log_event "dup_engaged" (upd_status (set_dup_engaged_at_us now) w))) as H.
    exact H.
Qed.

Lemma protection_tick_counter now w :
  switches_this_window (g_status (protection_tick now w))
  = switches_this_window (g_status w).
Proof. unfold protection_tick. break_ifs; reflexivity. Qed.

Lemma protection_tick_state now w :
  state (g_status (protection_tick now w)) = state (g_status w)
  \/ state (g_status (protection_tick now w)) = STATE_NORMAL.
Proof. unfold protection_tick. break_ifs; auto. Qed.

Lemma dup_enable_status src dst t w :
  let s' := g_status (snd (dup_enable src dst t w)) in
  switches_this_window s' = switches_this_window (g_status w)
  /\ active_uplink s' = active_uplink (g_status w)
  /\ g_uplinks (snd (dup_enable src dst t w)) = g_uplinks w.
Proof. unfold dup_enable. destruct (find_gw _ _ _); cbn; auto. Qed.

Lemma tripwire_fire_counter reason detail t_dup t_protect w :
  switches_this_window (g_status (tripwire_fire reason detail t_dup t_protect w)) = 0.
Proof. reflexivity. Qed.

Lemma g_status_fold_upd (fs : nat -> uplink_t -> uplink_t) (l : list nat) (w : world) :
  g_status (fold_left (fun w i => upd_uplink i (fs i) w) l w) = g_status w.
Proof. revert w. induction l as [|i l IH]; intros w; cbn; [|rewrite IH]; reflexivity. Qed.

Lemma chaos_read_status file w : g_status (chaos_read file w) = g_status w.
Proof.
  unfold chaos_read. destruct file as [entries|]; [|reflexivity].
  rewrite (g_status_fold_upd (fun i => chaos_apply (default None (entries !! i)))).
  reflexivity.
Qed.

Lemma cellular_poll_status now out i w :
  g_status (cellular_poll now out i w) = g_status w.
Proof. unfold cellular_poll. destruct out; break_ifs; reflexivity. Qed.

Lemma uplink_poll_status p i w : g_status (uplink_poll p i w) = g_status w.
Proof.
  unfold uplink_poll. destruct (negb _); [reflexivity|].
  destruct (u_type _); [rewrite cellular_poll_status|..]; reflexivity.
Qed.

Lemma prediction_tick_counter w :
  switches_this_window (g_status (prediction_tick w))
  = switches_this_window (g_status w).
Proof. reflexivity. Qed.

Lemma command_counter cmd cmd_id e w :
  starts_with "force:" cmd = false ->
  String.eqb cmd "trigger" = false ->
  switches_this_window (g_status (process_one_command cmd cmd_id e w))
  = switches_this_window (g_status w).
Proof.
  intros Hf Ht.
  unfold process_one_command, named_uplink_cmd, c8000_switch, dup_enable, dup_disable.
  rewrite Hf, Ht.
  break_ifs; try reflexivity;
    repeat match goal with
           | |- context [match ?x with Some _ => _ | None => _ end] => destruct x
           end; reflexivity.
Qed.

Lemma state_machine_counter e w :
  enters_protection (OpStateMachine e) w = false ->
  let n := switches_this_window (g_status w) in
  let n' := switches_this_window (g_status (state_machine e w)) in
  n <= n' /\ (n <= 3 -> n' <= 3).
Proof.
  unfold enters_protection, state_machine.
  destruct (mode_eqb (mode (g_status w)) MODE_TRAINING); cbn [negb andb];
    [intros; lia|].
  destruct (state (g_status w)).
  - destruct (tripwire_check _ _); cbn; intros; (discriminate || lia).
  - destruct (tripwire_check _ _); cbn; intros; (discriminate || lia).
  - intros _. cbv zeta. rewrite protection_tick_counter.
    apply slowpath_arbitrate_counter.
  - intros _. cbv zeta. rewrite protection_tick_counter. lia.
  - intros _. cbv zeta. rewrite protection_tick_counter. lia.
Qed.

Lemma enters_protection_counter o w :
  enters_protection o w = true ->
  switches_this_window (g_status (run_op o w)) = 0.
Proof.
  destruct o as [file|p i| |e|cmd cmd_id e]; cbn [enters_protection run_op];
    try discriminate.
  - unfold state_machine.
    destruct (mode_eqb (mode (g_status w)) MODE_TRAINING); cbn [negb andb];
      [discriminate|].
    destruct (state (g_status w)); try discriminate;
      destruct (tripwire_check _ _); cbn; intros; (discriminate || reflexivity).
  - intros H. apply String.eqb_eq in H. subst cmd. reflexivity.
Qed.

Lemma auto_op_counter o w :
  is_force o = false ->
  enters_protection o w = false ->
  let n := switches_this_window (g_status w) in
  let n' := switches_this_window (g_status (run_op o w)) in
  n <= n' /\ (n <= 3 -> n' <= 3).
Proof.
  destruct o as [file|p i| |e|cmd cmd_id e]; cbn [is_force enters_protection run_op];
    intros Hf He; cbv zeta.
  - rewrite chaos_read_status. lia.
  - rewrite uplink_poll_status. lia.
  - rewrite prediction_tick_counter. lia.
  - apply state_machine_counter. exact He.
  - rewrite command_counter by assumption. lia.
Qed.

(** The operator's [force:<name>] for a known uplink. *)
Lemma after_app (p s : string) : after (String.length p) (p ++ s) = s.
Proof.
  unfold after. induction p as [|c p IH]; cbn.
  - rewrite Nat.sub_0_r. induction s as [|c s IHs]; cbn; [reflexivity|].
    rewrite IHs. reflexivity.
  - exact IH.
Qed.

Lemma starts_with_app (p s : string) : starts_with p (p ++ s) = true.
Proof.
  unfold starts_with. induction p as [|c p IH]; cbn; [destruct s; reflexivity|].
  destruct (ascii_dec c c); [exact IH|contradiction].
Qed.

Lemma find_name_lt (names : list string) (k : nat) (uplink : string) (i : nat) :
  find_name names k uplink = Some i -> (k <= i < k + length names)%nat.
Proof.
  revert k. induction names as [|n names IH]; intros k; cbn; [discriminate|].
  destruct (String.eqb n uplink).
  - intros E. injection E as <-. lia.
  - intros E. apply IH in E. lia.
Qed.

Lemma find_name_not_auto (i : nat) (uplink : string) :
  find_name UPLINK_NAMES 0 uplink = Some i -> String.eqb uplink "auto" = false.
Proof.
  intros H. destruct (String.eqb_spec uplink "auto") as [->|]; [|reflexivity].
  vm_compute in H. discriminate.
Qed.

Lemma process_force_named (name : string) (i : nat) cmd_id e w :
  find_name UPLINK_NAMES 0 name = Some i ->
  process_one_command ("force:" ++ name) cmd_id e w
  = log_event "cmd_result"
      (cmd_done "exec" ("force=" ++ name)
         (upd_status (set_force_locked true)
            (execute_switch i (env_verify e) (env_t_sw e)
               (upd_uplink i (fun u => set_available true (set_force_failed false u))
                  (set_g_last_cmd_id (truncate 63 cmd_id) w))))).
Proof.
  intros Hi. unfold process_one_command.
  change (starts_with "mode:" ("force:" ++ name)) with false.
  rewrite (starts_with_app "force:" name).
  change (after 6 ("force:" ++ name)) with (after (String.length "force:") ("force:" ++ name)).
  rewrite after_app, (find_name_not_auto i name Hi), Hi. reflexivity.
Qed.

Lemma command_state cmd cmd_id e w :
  starts_with "force:" cmd = false ->
  String.eqb cmd "trigger" = false ->
  state (g_status (process_one_command cmd cmd_id e w)) = state (g_status w).
Proof.
  intros Hf Ht.
  unfold process_one_command, named_uplink_cmd, c8000_switch, dup_enable, dup_disable.
  rewrite Hf, Ht.
  break_ifs; try reflexivity;
    repeat match goal with
           | |- context [match ?x with Some _ => _ | None => _ end] => destruct x
           end; reflexivity.
Qed.

(** The first arbitration of a window: it leaves PROTECT, with at most one
    switch. *)
Lemma slowpath_arbitrate_first now verify t_sw w :
  switches_this_window (g_status w) = 0 ->
  state (g_status (slowpath_arbitrate now verify t_sw w)) <> STATE_PROTECT
  /\ 0 <= switches_this_window (g_status (slowpath_arbitrate now verify t_sw w)) <= 1.
Proof.
  intros H0. unfold slowpath_arbitrate.
  assert (Ha : forall x, switches_this_window (g_status x) = 0 ->
             state (g_status (arbitrate_switch
                                (Z.quot (now - protect_start_us (g_status w)) 1000)
                                verify t_sw x)) <> STATE_PROTECT
             /\ 0 <= switches_this_window
                       (g_status (arbitrate_switch
                                    (Z.quot (now - protect_start_us (g_status w)) 1000)
                                    verify t_sw x)) <= 1).
  { intros x Hx. unfold arbitrate_switch.
    destruct (_ <? preroll_ms (g_config x)); [cbn; split; [discriminate|lia]|].
    rewrite Hx. change (0 >=? 3) with false. cbv iota zeta.
    destruct (negb _).
    - pose proof (execute_switch_counter (select_best_uplink x) verify t_sw x) as Hc.
      cbv zeta in Hc. cbn. split; [discriminate|]. lia.
    - cbn. split; [discriminate|]. lia. }
  destruct (settle_gate_cases now w) as [(w1 & -> & ->)|(w1 & -> & [->| ->])].
  - cbn. split; [discriminate|]. lia.
  - apply Ha, H0.
  - apply Ha. exact H0.
Qed.

(** What holds throughout a window without [force:]. *)
Lemma window_step_cap o w :
  is_force o = false ->
  enters_protection o w = false ->
  0 <= switches_this_window (g_status w) <= 1
  /\ (state (g_status w) = STATE_PROTECT -> switches_this_window (g_status w) = 0) ->
  0 <= switches_this_window (g_status (run_op o w)) <= 1
  /\ (state (g_status (run_op o w)) = STATE_PROTECT ->
      switches_this_window (g_status (run_op o w)) = 0).
Proof.
  intros Hf He [Hb Hp].
  destruct o as [file|p i| |e|cmd cmd_id e]; cbn [is_force enters_protection run_op] in *.
  - rewrite chaos_read_status. auto.
  - rewrite uplink_poll_status. auto.
  - rewrite prediction_tick_counter. split; [exact Hb|exact Hp].
  - revert He. unfold state_machine.
    destruct (mode_eqb _ _); cbn [negb andb]; [auto|].
    destruct (state (g_status w)) eqn:Es.
    + destruct (tripwire_check _ _); cbn; try discriminate. rewrite Es. auto.
    + destruct (tripwire_check _ _); cbn; try discriminate. rewrite Es. auto.
    + intros _. rewrite protection_tick_counter.
      destruct (slowpath_arbitrate_first (env_now e) (env_verify e) (env_t_sw e) w
                  (Hp eq_refl)) as [Hs Hc].
      split; [exact Hc|]. intros Hx. exfalso.
      destruct (protection_tick_state (env_now_prot e)
                  (slowpath_arbitrate (env_now e) (env_verify e) (env_t_sw e) w))
        as [H|H]; rewrite H in Hx; [contradiction|discriminate].
    + intros _. rewrite protection_tick_counter. split; [exact Hb|].
      intros Hx. exfalso.
      destruct (protection_tick_state (env_now_prot e) w) as [H|H];
        rewrite H in Hx; [rewrite Es in Hx|]; discriminate.
    + intros _. rewrite protection_tick_counter. split; [exact Hb|].
      intros Hx. exfalso.
      destruct (protection_tick_state (env_now_prot e) w) as [H|H];
        rewrite H in Hx; [rewrite Es in Hx|]; discriminate.
  - rewrite command_counter, command_state by assumption. auto.
Qed.

Lemma process_force_auto cmd_id e w :
  process_one_command "force:auto" cmd_id e w
  = let w := set_g_last_cmd_id (truncate 63 cmd_id) w in
    let w := upd_status (fun s =>
               set_state STATE_NORMAL
                 (set_switches_this_window 0 (set_force_locked false s))) w in
    let best := select_best_uplink w in
    let w := if negb (best =? active_uplink (g_status w))%nat
             then execute_switch best (env_verify e) (env_t_sw e) w else w in
    log_event "cmd_result" (cmd_done "exec" "force=auto" w).
Proof. reflexivity. Qed.

(** C4 (as amended). In a protection window in which no [force:] command
    is processed, [switches_this_window] is 0 or 1, it is 0 as long as the
    state is PROTECT, and no operation lowers it: the arbitration runs in
    PROTECT only and always leaves that state, so the cap of 3 is never
    reached there.  In every state, an arbitration that finds the counter
    at 3 or more commits no switch (the uplink array, the active uplink,
    the counter and the log are as before), and it sets [flap_suppressed]
    when it gets past the settle gate and the preroll test.  The operator's
    [force:<name>] does not look at the counter: verified, it makes the
    named uplink active and adds one to the counter, whatever the counter
    was.  [force:auto] sets the state to NORMAL, clears the lock and resets
    the counter to 0 before its own selection, which then counts as the
    first switch if it changes the active uplink. *)
Theorem flap_cap_without_force (w0 w : world) :
  window (fun o => negb (is_force o)) w0 w ->
  0 <= switches_this_window (g_status w) <= 1
  /\ (state (g_status w) = STATE_PROTECT -> switches_this_window (g_status w) = 0)
  /\ (forall o, is_force o = false -> enters_protection o w = false ->
        switches_this_window (g_status w)
        <= switches_this_window (g_status (run_op o w)))
  /\ (forall now verify t_sw (x : world),
        3 <= switches_this_window (g_status x) ->
        let x' := slowpath_arbitrate now verify t_sw x in
        ~ switch_committed x x'
        /\ active_uplink (g_status x') = active_uplink (g_status x)
        /\ g_uplinks x' = g_uplinks x
        /\ (forall x1, settle_gate now x = inr x1 ->
              preroll_ms (g_config x)
              <= Z.quot (now - protect_start_us (g_status x)) 1000 ->
              flap_suppressed (g_status x') = true))
  /\ (forall name i cmd_id e (x : world),
        find_name UPLINK_NAMES 0 name = Some i ->
        let x' := process_one_command ("force:" ++ name) cmd_id e x in
        (env_verify e = 0 ->
           switches_this_window (g_status x') = switches_this_window (g_status x) + 1
           /\ active_uplink (g_status x') = i)
        /\ (env_verify e <> 0 ->
              switches_this_window (g_status x') = switches_this_window (g_status x)))
  /\ (forall cmd_id e (x : world),
        let x' := process_one_command "force:auto" cmd_id e x in
        state (g_status x') = STATE_NORMAL
        /\ force_locked (g_status x') = false
        /\ switches_this_window (g_status x')
           = (if (active_uplink (g_status x') =? active_uplink (g_status x))%nat
              then 0 else 1)).
Proof.
  intros Hw.
  assert (Hinv : 0 <= switches_this_window (g_status w) <= 1
                 /\ (state (g_status w) = STATE_PROTECT ->
                     switches_this_window (g_status w) = 0)).
  { induction Hw as [o w He|w0 w o Hw IH Hf He].
    - rewrite enters_protection_counter by assumption. split; [lia|reflexivity].
    - apply negb_true_iff in Hf. apply window_step_cap; assumption. }
  destruct Hinv as [Hb Hp].
  split; [exact Hb|]. split; [exact Hp|]. split; [|split; [|split]].
  - intros o Hf He. pose proof (auto_op_counter o w Hf He) as Hc.
    cbv zeta in Hc. lia.
  - intros now verify t_sw x Hx x'. subst x'.
    unfold slowpath_arbitrate.
    destruct (settle_gate_cases now x) as [(x1 & -> & ->)|(x1 & Hg & Hx1)].
    + split; [apply not_committed_status; reflexivity|].
      cbn. split; [reflexivity|]. split; [reflexivity|]. intros ? Hd. discriminate.
    + rewrite Hg.
      assert (Hsame : g_uplinks x1 = g_uplinks x
                      /\ active_uplink (g_status x1) = active_uplink (g_status x)
                      /\ switches_this_window (g_status x1)
                         = switches_this_window (g_status x)
                      /\ g_config x1 = g_config x)
        by (destruct Hx1 as [->| ->]; cbn; auto).
      destruct Hsame as (Hu & Ha & Hs & Hc).
      pose proof (arbitrate_switch_capped
                    (Z.quot (now - protect_start_us (g_status x)) 1000)
                    verify t_sw x1) as Hcap.
      rewrite Hs in Hcap. specialize (Hcap Hx). cbv zeta in Hcap.
      destruct Hcap as (Hu' & Ha' & Hs' & _ & Hflap).
      split.
      * intros [H|[H|H]]; congruence.
      * split; [congruence|]. split; [congruence|].
        intros _ _ Hpre. apply Hflap. rewrite Hc. exact Hpre.
  - intros name i cmd_id e x Hi. cbv zeta.
    rewrite (process_force_named name i cmd_id e x Hi).
    unfold execute_switch. split.
    + intros ->. cbn. split; reflexivity.
    + intros Hv. destruct (Z.eqb_spec (env_verify e) 0); [contradiction|]. reflexivity.
  - intros cmd_id e x. cbv zeta. rewrite process_force_auto. cbv zeta.
    set (x1 := upd_status _ (set_g_last_cmd_id (truncate 63 cmd_id) x)).
    assert (Ha1 : active_uplink (g_status x1) = active_uplink (g_status x)) by reflexivity.
    set (b := select_best_uplink x1). clearbody b.
    destruct (Nat.eqb_spec b (active_uplink (g_status x1))) as [Eb|Eb]; cbn [negb].
    + cbn. rewrite Nat.eqb_refl. repeat split; reflexivity.
    + unfold execute_switch. destruct (Z.eqb_spec (env_verify e) 0) as [Ev|Ev]; cbn.
      * rewrite <- Ha1. destruct (Nat.eqb_spec b (active_uplink (g_status x1)));
          [contradiction|].
        repeat split; reflexivity.
      * rewrite Nat.eqb_refl. repeat split; reflexivity.
Qed.

Lemma flap_cap_without_force_witness :
  window (fun o => negb (is_force o)) world_protected world_window_switched
  /\ active_uplink (g_status world_protected) = UPLINK_CELL_A
  /\ active_uplink (g_status world_window_switched) = UPLINK_CELL_B
  /\ switches_this_window (g_status world_window_switched) = 1
  /\ 0 <= switches_this_window (g_status world_window_switched) <= 1
  /\ switches_this_window (g_status world_forced_thrice) = 3
  /\ flap_suppressed
       (g_status (slowpath_arbitrate (T0 + 700000) 0 (T0 + 700000) world_forced_thrice))
     = true
  /\ active_uplink
       (g_status (slowpath_arbitrate (T0 + 700000) 0 (T0 + 700000) world_forced_thrice))
     = active_uplink (g_status world_forced_thrice).
Proof.
  assert (Hw : window (fun o => negb (is_force o)) world_protected world_window_switched).
  { unfold world_window_switched.
    apply window_step; [|reflexivity|vm_compute; reflexivity].
    apply window_step; [|reflexivity|vm_compute; reflexivity].
    exact (window_open _ (OpCommand "trigger" "1.cmd" (env_at T0 0)) world_all_up
             eq_refl). }
  assert (H3 : 3 <= switches_this_window (g_status world_forced_thrice))
    by (vm_compute; discriminate).
  destruct (flap_cap_without_force world_protected world_window_switched Hw)
    as (Hb & _ & _ & Hcap & _).
  destruct (Hcap (T0 + 700000) 0 (T0 + 700000) world_forced_thrice H3)
    as (_ & Ha & _ & Hflap).
  split; [exact Hw|].
  split; [vm_compute; reflexivity|].
  split; [vm_compute; reflexivity|].
  split; [vm_compute; reflexivity|].
  split; [exact Hb|].
  split; [vm_compute; reflexivity|].
  split; [|exact Ha].
  apply (Hflap (log_event "dup_engaged"
                  (upd_status (set_dup_engaged_at_us (T0 + 700000)) world_forced_thrice)));
    vm_compute; [reflexivity|discriminate].
Defined.

(** C4, counterexample. In the window opened by [trigger], four [force:]
    commands, each verified, take [switches_this_window] to 4; the state is
    PROTECT throughout. *)
Lemma flap_cap_counterexample :
  exists w0 w,
    window (fun _ => true) w0 w
    /\ switches_this_window (g_status w0) = 0
    /\ switches_this_window (g_status w) = 4
    /\ state (g_status w) = STATE_PROTECT.
Proof.
  exists world_protected.
  exists (run_op (OpCommand "force:fa" "5.cmd" (env_at T0 0))
           (run_op (OpCommand "force:sl_b" "4.cmd" (env_at T0 0))
             (run_op (OpCommand "force:sl_a" "3.cmd" (env_at T0 0))
               (run_op (OpCommand "force:cell_b" "2.cmd" (env_at T0 0))
                 world_protected)))).
  split.
  - repeat (apply window_step; [|reflexivity|reflexivity]).
    exact (window_open _ (OpCommand "trigger" "1.cmd" (env_at T0 0)) world_all_up
             eq_refl).
  - vm_compute. auto.
Qed.

(** ** Exactly one active uplink *)

Lemma filter_map_length (l : list uplink_t) :
  length (List.filter is_active l)
  = length (List.filter (fun b : bool => b) (map is_active l)).
Proof.
  induction l as [|u l IH]; [reflexivity|].
  cbn. destruct (is_active u); cbn; rewrite IH; reflexivity.
Qed.

Lemma active_inv_count w : active_inv w -> active_count w = 1%nat.
Proof.
  intros [Hlt Hm]. unfold active_count.
  rewrite filter_map_length, Hm.
  unfold UPLINK_COUNT in Hlt.
  generalize dependent (active_uplink (g_status w)). intros a Hlt _.
  do 6 (destruct a as [|a]; [reflexivity|]).
  lia.
Qed.

Lemma map_alter_flag (b : bool) (i : nat) (l : list uplink_t) :
  map is_active (alter (set_is_active b) i l) = <[i := b]> (map is_active l).
Proof.
  revert i. induction l as [|u l IH]; intros [|i]; cbn; try reflexivity.
  f_equal. apply IH.
Qed.

Lemma map_alter_keep (f : uplink_t -> uplink_t) (i : nat) (l : list uplink_t) :
  (forall u, is_active (f u) = is_active u) ->
  map is_active (alter f i l) = map is_active l.
Proof.
  intros Hf. revert i. induction l as [|u l IH]; intros [|i]; cbn; try reflexivity.
  - rewrite Hf. reflexivity.
  - f_equal. apply IH.
Qed.

Lemma map_map_keep (f : uplink_t -> uplink_t) (l : list uplink_t) :
  (forall u, is_active (f u) = is_active u) ->
  map is_active (map f l) = map is_active l.
Proof.
  intros Hf. induction l as [|u l IH]; cbn; [reflexivity|].
  rewrite Hf, IH. reflexivity.
Qed.

Lemma active_inv_sig w w' : act_sig w' = act_sig w -> active_inv w -> active_inv w'.
Proof.
  unfold act_sig, active_inv. intros E [H1 H2].
  injection E as E1 E2. rewrite E1, E2. auto.
Qed.

Lemma sig_upd_uplink i f w :
  (forall u, is_active (f u) = is_active u) ->
  act_sig (upd_uplink i f w) = act_sig w.
Proof.
  intros Hf. unfold act_sig. cbn. rewrite map_alter_keep by assumption. reflexivity.
Qed.

Lemma sig_fold_upd (fs : nat -> uplink_t -> uplink_t) (l : list nat) (w : world) :
  (forall i u, is_active (fs i u) = is_active u) ->
  act_sig (fold_left (fun w i => upd_uplink i (fs i) w) l w) = act_sig w.
Proof.
  intros Hf. revert w. induction l as [|i l IH]; intros w; cbn; [reflexivity|].
  rewrite IH. apply sig_upd_uplink. apply Hf.
Qed.

Lemma chaos_apply_active e u : is_active (chaos_apply e u) = is_active u.
Proof.
  destruct e as [[[r|] [j|] [l|]]|]; reflexivity.
Qed.

Lemma sig_chaos_read file w : act_sig (chaos_read file w) = act_sig w.
Proof.
  unfold chaos_read. destruct file as [entries|]; [|reflexivity].
  rewrite (sig_fold_upd (fun i => chaos_apply (default None (entries !! i))))
    by (intros; apply chaos_apply_active).
  unfold act_sig. cbn. rewrite map_map_keep by reflexivity. reflexivity.
Qed.

Lemma uplink_probe_active p u : is_active (uplink_probe p u) = is_active u.
Proof.
  unfold uplink_probe.
  destruct (loss_loop _ _ _ _ _) as [success total] eqn:E.
  revert E. break_ifs; intros E; reflexivity.
Qed.

Lemma starlink_poll_active out u : is_active (starlink_poll out u) = is_active u.
Proof. destruct out; reflexivity. Qed.

Lemma sig_cellular_poll now out i w : act_sig (cellular_poll now out i w) = act_sig w.
Proof.
  unfold cellular_poll.
  destruct (now - _ <? 5); [reflexivity|].
  destruct out as [r|].
  - rewrite sig_upd_uplink by reflexivity. break_ifs; reflexivity.
  - break_ifs; reflexivity.
Qed.

Lemma sig_uplink_poll p i w : act_sig (uplink_poll p i w) = act_sig w.
Proof.
  unfold uplink_poll. destruct (negb _); [reflexivity|].
  destruct (u_type _).
  - rewrite sig_cellular_poll. apply sig_upd_uplink, uplink_probe_active.
  - rewrite sig_upd_uplink by apply starlink_poll_active.
    apply sig_upd_uplink, uplink_probe_active.
  - apply sig_upd_uplink, uplink_probe_active.
Qed.

Lemma sig_prediction_tick w : act_sig (prediction_tick w) = act_sig w.
Proof.
  unfold act_sig, prediction_tick. cbn.
  rewrite map_map_keep; [reflexivity|].
  intros u. destruct (enabled u); reflexivity.
Qed.

Lemma sig_dup_enable src dst t w : act_sig (snd (dup_enable src dst t w)) = act_sig w.
Proof. unfold dup_enable. destruct (find_gw _ _ _); reflexivity. Qed.

Lemma sig_tripwire_fire reason detail t_dup t_protect w :
  act_sig (tripwire_fire reason detail t_dup t_protect w) = act_sig w.
Proof.
  unfold tripwire_fire. destruct (negb _).
  - rewrite <- (sig_dup_enable (vip_dev (active_uplink (g_status w)))
                  (vip_dev (find_secondary w)) t_dup w).
    reflexivity.
  - reflexivity.
Qed.

Lemma sig_protection_tick now w : act_sig (protection_tick now w) = act_sig w.
Proof. unfold protection_tick. break_ifs; reflexivity. Qed.

Lemma flags_switch (old target : nat) :
  (old < UPLINK_COUNT)%nat -> (target < UPLINK_COUNT)%nat ->
  <[target := true]> (<[old := false]> (flags_for old)) = flags_for target.
Proof.
  unfold UPLINK_COUNT. intros Ho Ht.
  do 6 (destruct old as [|old];
        [do 6 (destruct target as [|target]; [reflexivity|]); lia|]).
  lia.
Qed.

Lemma inv_execute_switch target verify t w :
  (target < UPLINK_COUNT)%nat ->
  active_inv w -> active_inv (execute_switch target verify t w).
Proof.
  intros Ht [Ha Hm]. unfold execute_switch.
  destruct (verify =? 0); cbn [negb].
  - split; [exact Ht|].
    cbn. rewrite !map_alter_flag, Hm. apply flags_switch; assumption.
  - split; assumption.
Qed.

Lemma select_fold_bound (w : world) (l : list nat) (acc : nat * Q) :
  (fst acc < UPLINK_COUNT)%nat ->
  (forall i, In i l -> (i < UPLINK_COUNT)%nat) ->
  (fst (fold_left (select_step w) l acc) < UPLINK_COUNT)%nat.
Proof.
  revert acc. induction l as [|i l IH]; intros acc Hacc Hl; [exact Hacc|].
  cbn [fold_left]. apply IH.
  - unfold select_step. break_ifs; try assumption. cbn. apply Hl. left. reflexivity.
  - intros j Hj. apply Hl. right. exact Hj.
Qed.

Lemma select_best_uplink_bound w :
  (active_uplink (g_status w) < UPLINK_COUNT)%nat ->
  (select_best_uplink w < UPLINK_COUNT)%nat.
Proof.
  intros Ha. unfold select_best_uplink.
  destruct (force_locked (g_status w)); [exact Ha|].
  apply select_fold_bound; [exact Ha|].
  intros i Hi. apply in_seq in Hi. lia.
Qed.

Lemma find_name_bound uplink i :
  find_name UPLINK_NAMES 0 uplink = Some i -> (i < UPLINK_COUNT)%nat.
Proof.
  unfold UPLINK_NAMES, UPLINK_COUNT. cbn.
  break_ifs; intros E; inversion E; lia.
Qed.

Lemma inv_status (f : status_t -> status_t) w :
  (forall s, active_uplink (f s) = active_uplink s) ->
  active_inv w -> active_inv (upd_status f w).
Proof.
  intros Hf. apply active_inv_sig. unfold act_sig. cbn. rewrite Hf. reflexivity.
Qed.

Lemma inv_arbitrate_switch elapsed_ms verify t_sw w :
  active_inv w -> active_inv (arbitrate_switch elapsed_ms verify t_sw w).
Proof.
  intros Hw. unfold arbitrate_switch.
  destruct (elapsed_ms <? _); [apply inv_status; [reflexivity|exact Hw]|].
  destruct (_ >=? 3); [apply inv_status; [reflexivity|exact Hw]|].
  cbv zeta. apply inv_status; [reflexivity|].
  destruct (negb _); [|exact Hw].
  apply inv_execute_switch; [|exact Hw].
  apply select_best_uplink_bound, Hw.
Qed.

Lemma inv_slowpath_arbitrate now verify t_sw w :
  active_inv w -> active_inv (slowpath_arbitrate now verify t_sw w).
Proof.
  intros Hw. unfold slowpath_arbitrate.
  destruct (settle_gate_cases now w) as [(w1 & -> & ->)|(w1 & -> & [->| ->])].
  - apply inv_status; [reflexivity|exact Hw].
  - apply inv_arbitrate_switch, Hw.
  - apply inv_arbitrate_switch. revert Hw. apply active_inv_sig. reflexivity.
Qed.

Lemma inv_state_machine e w : active_inv w -> active_inv (state_machine e w).
Proof.
  intros Hw. unfold state_machine.
  destruct (mode_eqb _ _); [exact Hw|].
  destruct (state (g_status w)).
  - destruct (tripwire_check _ _); try exact Hw;
      (revert Hw; apply active_inv_sig, sig_tripwire_fire).
  - destruct (tripwire_check _ _); try exact Hw;
      (revert Hw; apply active_inv_sig, sig_tripwire_fire).
  - apply (active_inv_sig (slowpath_arbitrate (env_now e) (env_verify e) (env_t_sw e) w));
      [apply sig_protection_tick|apply inv_slowpath_arbitrate, Hw].
  - revert Hw. apply active_inv_sig, sig_protection_tick.
  - revert Hw. apply active_inv_sig, sig_protection_tick.
Qed.

Lemma inv_outer (f : world -> world) w :
  (forall x, act_sig (f x) = act_sig x) -> active_inv w -> active_inv (f w).
Proof. intros Hf. apply active_inv_sig, Hf. Qed.

Lemma inv_named_uplink_cmd uplink key event f w :
  (forall u, is_active (f u) = is_active u) ->
  active_inv w -> active_inv (named_uplink_cmd uplink key event f w).
Proof.
  intros Hf. apply active_inv_sig. unfold named_uplink_cmd.
  destruct (find_name _ _ _); [|reflexivity].
  rewrite <- (sig_upd_uplink n f w Hf). reflexivity.
Qed.

Lemma inv_process_one_command cmd cmd_id e w :
  active_inv w -> active_inv (process_one_command cmd cmd_id e w).
Proof.
  intros Hw. unfold process_one_command.
  apply (inv_outer (log_event "cmd_result")); [reflexivity|].
  assert (Hw0 : active_inv (set_g_last_cmd_id (truncate 63 cmd_id) w))
    by (revert Hw; apply active_inv_sig; reflexivity).
  revert Hw0. generalize (set_g_last_cmd_id (truncate 63 cmd_id) w). clear w Hw. intros w Hw.
  destruct (starts_with "mode:" cmd).
  { revert Hw. apply active_inv_sig.
    destruct (String.eqb _ "training"); [reflexivity|].
    destruct (String.eqb _ "tripwire"); [reflexivity|].
    destruct (String.eqb _ "mirror"); [|reflexivity].
    exact (sig_dup_enable "br-lan"
             (veth (uplink_at (upd_status (set_mode MODE_MIRROR) w) 1))
             (env_t_dup e) (upd_status (set_mode MODE_MIRROR) w)). }
  destruct (starts_with "force:" cmd).
  { destruct (String.eqb _ "auto").
    - cbv zeta. apply (inv_outer (cmd_done "exec" "force=auto")); [reflexivity|].
      set (w1 := upd_status _ w).
      assert (Hw1 : active_inv w1) by (revert Hw; apply active_inv_sig; reflexivity).
      destruct (negb _); [|exact Hw1].
      apply inv_execute_switch; [|exact Hw1].
      apply select_best_uplink_bound, Hw1.
    - destruct (find_name _ _ _) as [i|] eqn:Hi.
      + cbv zeta. apply (inv_outer (cmd_done "exec" _)); [reflexivity|].
        apply inv_status; [reflexivity|].
        apply inv_execute_switch; [exact (find_name_bound _ _ Hi)|].
        revert Hw. apply active_inv_sig, sig_upd_uplink. reflexivity.
      + revert Hw. apply active_inv_sig. reflexivity. }
  destruct (String.eqb cmd "trigger").
  { cbv zeta. apply (inv_outer (cmd_done "exec" _)); [reflexivity|].
    revert Hw. apply active_inv_sig, sig_tripwire_fire. }
  destruct (starts_with "c8000:" cmd).
  { revert Hw. apply active_inv_sig. unfold c8000_switch. cbn.
    destruct (env_c8000_ret e =? 0); reflexivity. }
  destruct (starts_with "enable:" cmd);
    [apply inv_named_uplink_cmd; [reflexivity|exact Hw]|].
  destruct (starts_with "disable:" cmd);
    [apply inv_named_uplink_cmd; [reflexivity|exact Hw]|].
  destruct (starts_with "fail:" cmd);
    [apply inv_named_uplink_cmd; [reflexivity|exact Hw]|].
  destruct (starts_with "unfail:" cmd);
    [apply inv_named_uplink_cmd; [reflexivity|exact Hw]|].
  revert Hw. apply active_inv_sig. reflexivity.
Qed.

Lemma sig_main_startup file :
  act_sig (main_startup file) = (flags_for UPLINK_CELL_A, UPLINK_CELL_A).
Proof.
  unfold main_startup.
  change (act_sig (main_startup file))
    with (act_sig
            (match file with
             | Some f =>
                 fold_left
                   (fun w i =>
                      if default false (cf_disabled f !! i)
                      then upd_uplink i (set_enabled false) w else w)
                   (seq 0 UPLINK_COUNT)
                   (uplinks_init (snd (config_load file world_zero)))
             | None => uplinks_init (snd (config_load file world_zero))
             end)).
  assert (H0 : act_sig (uplinks_init (snd (config_load file world_zero)))
               = (flags_for UPLINK_CELL_A, UPLINK_CELL_A)) by reflexivity.
  destruct file as [f|]; [|exact H0].
  rewrite <- H0.
  generalize (uplinks_init (snd (config_load (Some f) world_zero))).
  generalize (seq 0 UPLINK_COUNT).
  intros l. induction l as [|i l IH]; intros w; cbn [fold_left]; [reflexivity|].
  rewrite IH. destruct (default false _); [|reflexivity].
  apply sig_upd_uplink. reflexivity.
Qed.

Lemma inv_main_startup file : active_inv (main_startup file).
Proof.
  pose proof (f_equal fst (sig_main_startup file)) as E1.
  pose proof (f_equal snd (sig_main_startup file)) as E2.
  unfold act_sig in E1, E2. cbn [fst snd] in E1, E2.
  unfold active_inv. rewrite E1, E2.
  split; [unfold UPLINK_CELL_A, UPLINK_COUNT; lia|reflexivity].
Qed.

Lemma inv_run_op o w : active_inv w -> active_inv (run_op o w).
Proof.
  destruct o as [file|p i| |e|cmd cmd_id e]; cbn [run_op].
  - apply active_inv_sig, sig_chaos_read.
  - apply active_inv_sig, sig_uplink_poll.
  - apply active_inv_sig, sig_prediction_tick.
  - apply inv_state_machine.
  - apply inv_process_one_command.
Qed.

Lemma reachable_inv w : reachable w -> active_inv w.
Proof.
  induction 1 as [file|o w Hr IH]; [apply inv_main_startup|apply inv_run_op, IH].
Qed.

Lemma active_inv_flag w j :
  active_inv w -> (j < UPLINK_COUNT)%nat ->
  is_active (uplink_at w j) = (j =? active_uplink (g_status w))%nat.
Proof.
  intros [Hlt Hm] Hj. unfold uplink_at.
  assert (E : map is_active (g_uplinks w) !! j
              = Some (j =? active_uplink (g_status w))%nat).
  { rewrite Hm. unfold UPLINK_COUNT in *.
    generalize dependent (active_uplink (g_status w)). intros a Hlt _.
    do 6 (destruct j as [|j];
          [do 6 (destruct a as [|a]; [reflexivity|]); lia|]).
    lia. }
  change (map is_active (g_uplinks w)) with (is_active <$> g_uplinks w) in E.
  rewrite list_lookup_fmap in E.
  destruct (g_uplinks w !! j) as [u|]; [|discriminate].
  cbn in E. injection E as E. exact E.
Qed.

(** What [execute_switch] does to the flags in a state that has exactly
    the active uplink flagged. *)
Lemma execute_switch_flags target verify t w :
  active_inv w -> (target < UPLINK_COUNT)%nat ->
  (verify = 0 ->
     active_uplink (g_status (execute_switch target verify t w)) = target
     /\ forall j, (j < UPLINK_COUNT)%nat ->
          is_active (uplink_at (execute_switch target verify t w) j)
          = (j =? target)%nat)
  /\ (verify <> 0 ->
        active_uplink (g_status (execute_switch target verify t w))
        = active_uplink (g_status w)
        /\ g_uplinks (execute_switch target verify t w) = g_uplinks w).
Proof.
  intros Hinv Ht. split.
  - intros ->.
    assert (Ha : active_uplink (g_status (execute_switch target 0 t w)) = target)
      by reflexivity.
    split; [exact Ha|]. intros j Hj.
    rewrite (active_inv_flag _ j (inv_execute_switch target 0 t w Ht Hinv) Hj), Ha.
    reflexivity.
  - intros Hv. rewrite (execute_switch_failed target verify t w Hv).
    split; reflexivity.
Qed.

(** C2. In every reachable state exactly one uplink of the array has
    [is_active] set, and it is the one [active_uplink] names.  The state
    [main] sets up has the flag on [cell_a] alone.  From any reachable
    state, [execute_switch] to an uplink of the array, and the operator's
    [force:<name>] that calls it, either pass the route verification, and
    then the target is the active uplink and the only one flagged (the
    flag of the old uplink is cleared), or fail it, and then the active
    uplink and every flag are as before. *)
Theorem one_active_uplink (w : world) :
  reachable w ->
  active_count w = 1%nat
  /\ is_active (uplink_at w (active_uplink (g_status w))) = true
  /\ (forall file,
        map is_active (g_uplinks (main_startup file))
        = [true; false; false; false; false; false])
  /\ (forall target verify t,
        (target < UPLINK_COUNT)%nat ->
        let w' := execute_switch target verify t w in
        (verify = 0 ->
           active_uplink (g_status w') = target
           /\ (forall j, (j < UPLINK_COUNT)%nat ->
                  is_active (uplink_at w' j) = (j =? target)%nat)
           /\ (active_uplink (g_status w) <> target ->
               is_active (uplink_at w' (active_uplink (g_status w))) = false))
        /\ (verify <> 0 ->
              active_uplink (g_status w') = active_uplink (g_status w)
              /\ g_uplinks w' = g_uplinks w))
  /\ (forall name i cmd_id e,
        find_name UPLINK_NAMES 0 name = Some i ->
        let w' := process_one_command ("force:" ++ name) cmd_id e w in
        (env_verify e = 0 ->
           active_uplink (g_status w') = i
           /\ (forall j, (j < UPLINK_COUNT)%nat ->
                  is_active (uplink_at w' j) = (j =? i)%nat)
           /\ (active_uplink (g_status w) <> i ->
               is_active (uplink_at w' (active_uplink (g_status w))) = false))
        /\ (env_verify e <> 0 ->
              active_uplink (g_status w') = active_uplink (g_status w)
              /\ map is_active (g_uplinks w') = map is_active (g_uplinks w))).
Proof.
  intros Hr. pose proof (reachable_inv w Hr) as Hinv.
  split; [apply active_inv_count, Hinv|]. split.
  { rewrite (active_inv_flag w _ Hinv (proj1 Hinv)). apply Nat.eqb_refl. }
  split.
  { intros file. exact (f_equal fst (sig_main_startup file)). }
  split.
  - intros target verify t Ht. cbv zeta.
    destruct (execute_switch_flags target verify t w Hinv Ht) as [H0 H1].
    split; [|exact H1].
    intros Hv. destruct (H0 Hv) as [Ha Hf].
    split; [exact Ha|]. split; [exact Hf|].
    intros Hne. rewrite (Hf _ (proj1 Hinv)).
    apply Nat.eqb_neq. exact Hne.
  - intros name i cmd_id e Hi. cbv zeta.
    rewrite (process_force_named name i cmd_id e w Hi).
    set (w0 := upd_uplink i (fun u => set_available true (set_force_failed false u))
                 (set_g_last_cmd_id (truncate 63 cmd_id) w)).
    assert (Hs0 : act_sig w0 = act_sig w).
    { subst w0.
      rewrite (sig_upd_uplink i _ (set_g_last_cmd_id (truncate 63 cmd_id) w))
        by reflexivity.
      reflexivity. }
    assert (Hinv0 : active_inv w0) by (revert Hinv; apply active_inv_sig; exact Hs0).
    assert (Ha0 : active_uplink (g_status w0) = active_uplink (g_status w)) by reflexivity.
    pose proof (find_name_bound name i Hi) as Hlt.
    destruct (execute_switch_flags i (env_verify e) (env_t_sw e) w0 Hinv0 Hlt)
      as [H0 H1].
    set (w1 := execute_switch i (env_verify e) (env_t_sw e) w0) in *.
    change (active_uplink
              (g_status (log_event "cmd_result"
                           (cmd_done "exec" ("force=" ++ name)
                              (upd_status (set_force_locked true) w1)))))
      with (active_uplink (g_status w1)).
    change (g_uplinks (log_event "cmd_result"
                         (cmd_done "exec" ("force=" ++ name)
                            (upd_status (set_force_locked true) w1))))
      with (g_uplinks w1).
    assert (Hat : forall j,
              uplink_at (log_event "cmd_result"
                           (cmd_done "exec" ("force=" ++ name)
                              (upd_status (set_force_locked true) w1))) j
              = uplink_at w1 j) by reflexivity.
    split.
    + intros Hv. destruct (H0 Hv) as [Ha Hf].
      split; [exact Ha|]. split.
      * intros j Hj. rewrite Hat. apply Hf, Hj.
      * intros Hne. rewrite Hat, (Hf _ (proj1 Hinv)).
        apply Nat.eqb_neq. exact Hne.
    + intros Hv. destruct (H1 Hv) as [Ha Hu].
      split; [rewrite Ha; exact Ha0|].
      rewrite Hu. exact (f_equal fst Hs0).
Qed.

Lemma reachable_fold (mk : nat -> op) (l : list nat) (w : world) :
  reachable w -> reachable (fold_left (fun w i => run_op (mk i) w) l w).
Proof.
  revert w. induction l as [|i l IH]; intros w Hw; [exact Hw|].
  cbn [fold_left]. apply IH, reach_step, Hw.
Qed.

Lemma reachable_commands cmds w :
  reachable w -> reachable (commands_process cmds w).
Proof.
  unfold commands_process. revert w.
  induction cmds as [|c cmds IH]; intros w Hw; [exact Hw|].
  cbn [fold_left]. apply IH.
  exact (reach_step (OpCommand (snd (fst c)) (fst (fst c)) (snd c)) w Hw).
Qed.

(** The worlds the main loop goes through are reachable. *)
Lemma main_iteration_reachable probe_interval st it :
  reachable (snd st) -> reachable (snd (main_iteration probe_interval st it)).
Proof.
  destruct st as [[last_probe last_predict] w]. cbn [snd]. intros Hw.
  unfold main_iteration.
  assert (H1 : reachable
            (snd (if it_now it - last_probe >=? probe_interval
                  then (it_now it,
                        fold_left
                          (fun w i => uplink_poll (default poll_zero (it_polls it !! i)) i w)
                          (seq 0 UPLINK_COUNT) (chaos_read (it_chaos it) w))
                  else (last_probe, w)))).
  { destruct (_ >=? _); cbn [snd]; [|exact Hw].
    apply (reachable_fold (fun i => OpPoll (default poll_zero (it_polls it !! i)) i)).
    exact (reach_step (OpChaos (it_chaos it)) w Hw). }
  destruct (if it_now it - last_probe >=? probe_interval then _ else _)
    as [lp w1]. cbn [snd] in H1.
  assert (H2 : reachable
            (snd (if it_now it - last_predict >=? RISK_INTERVAL_MS * 1000
                  then (it_now it, prediction_tick w1) else (last_predict, w1)))).
  { destruct (_ >=? _); cbn [snd]; [|exact H1].
    exact (reach_step OpPredict w1 H1). }
  destruct (if it_now it - last_predict >=? RISK_INTERVAL_MS * 1000 then _ else _)
    as [lpr w2]. cbn [snd] in *.
  apply reachable_commands.
  exact (reach_step (OpStateMachine (it_env it)) w2 H2).
Qed.

Lemma main_loop_reachable probe_interval its st :
  reachable (snd st) ->
  reachable (snd (fold_left (main_iteration probe_interval) its st)).
Proof.
  revert st. induction its as [|it its IH]; intros st Hst; [exact Hst|].
  cbn [fold_left]. apply IH, main_iteration_reachable, Hst.
Qed.

Lemma one_active_uplink_witness :
  active_count world_all_up = 1%nat
  /\ active_uplink (g_status world_all_up) = UPLINK_CELL_A
  /\ active_uplink
       (g_status (process_one_command ("force:" ++ "cell_b") "2.cmd" (env_at T0 0)
                    world_all_up)) = UPLINK_CELL_B
  /\ is_active
       (uplink_at (process_one_command ("force:" ++ "cell_b") "2.cmd" (env_at T0 0)
                     world_all_up) UPLINK_CELL_B) = true
  /\ is_active
       (uplink_at (process_one_command ("force:" ++ "cell_b") "2.cmd" (env_at T0 0)
                     world_all_up) UPLINK_CELL_A) = false
  /\ is_active (uplink_at (execute_switch UPLINK_SL_A 0 T0 world_all_up) UPLINK_SL_A)
     = true
  /\ is_active (uplink_at (execute_switch UPLINK_SL_A 0 T0 world_all_up) UPLINK_CELL_A)
     = false
  /\ g_uplinks (execute_switch UPLINK_SL_A 1 T0 world_all_up) = g_uplinks world_all_up.
Proof.
  assert (Hr : reachable world_all_up).
  { apply (main_iteration_reachable 100000 (0, 0, main_startup (Some file_defaults))).
    apply reach_startup. }
  assert (Ha : active_uplink (g_status world_all_up) = UPLINK_CELL_A)
    by (vm_compute; reflexivity).
  assert (Hn : find_name UPLINK_NAMES 0 "cell_b" = Some UPLINK_CELL_B)
    by (vm_compute; reflexivity).
  assert (Hb : (UPLINK_CELL_B < UPLINK_COUNT)%nat) by (vm_compute; repeat constructor).
  assert (Hc : (UPLINK_CELL_A < UPLINK_COUNT)%nat) by (vm_compute; repeat constructor).
  assert (Hs : (UPLINK_SL_A < UPLINK_COUNT)%nat) by (vm_compute; repeat constructor).
  destruct (one_active_uplink world_all_up Hr) as (H1 & _ & _ & Hx & Hf).
  destruct (Hf "cell_b" UPLINK_CELL_B "2.cmd" (env_at T0 0) Hn) as [Hf0 _].
  destruct (Hf0 eq_refl) as (F1 & F2 & _).
  destruct (Hx UPLINK_SL_A 0 T0 Hs) as [Hx0 _].
  destruct (Hx0 eq_refl) as (_ & X2 & _).
  destruct (Hx UPLINK_SL_A 1 T0 Hs) as [_ Hx1].
  destruct (Hx1 ltac:(discriminate)) as [_ X3].
  split; [exact H1|]. split; [exact Ha|]. split; [exact F1|].
  split; [exact (F2 UPLINK_CELL_B Hb)|].
  split; [exact (F2 UPLINK_CELL_A Hc)|].
  split; [exact (X2 UPLINK_SL_A Hs)|].
  split; [exact (X2 UPLINK_CELL_A Hc)|].
  exact X3.
Defined.

(** ** The tripwire rules *)

Lemma Qltb_iff (x y : Q) : Qltb x y = true <-> (x < y)%Q.
Proof.
  unfold Qltb. rewrite negb_true_iff. split.
  - intros H. apply Qnot_le_lt. intros Hle.
    apply Qle_bool_iff in Hle. congruence.
  - intros H. destruct (Qle_bool y x) eqn:E; [|reflexivity].
    apply Qle_bool_iff in E. exfalso. exact (Qlt_not_le _ _ H E).
Qed.

Lemma type_eqb_iff (a b : uplink_type_t) : type_eqb a b = true <-> a = b.
Proof. destruct a, b; cbn; split; (reflexivity || discriminate). Qed.

Lemma rtt_recent_spec (u : uplink_t) :
  snd (rtt_recent u) = Z.of_nat (length (recent_successes u))
  /\ (fst (rtt_recent u) == Qsum (recent_successes u))%Q.
Proof.
  unfold rtt_recent, recent_successes, last_three. cbn [map fold_left List.filter].
  destruct (p_success (hist_at u (Z.rem (history_idx u - 1 - 0) HISTORY_SIZE)));
    destruct (p_success (hist_at u (Z.rem (history_idx u - 1 - 1) HISTORY_SIZE)));
    destruct (p_success (hist_at u (Z.rem (history_idx u - 1 - 2) HISTORY_SIZE)));
    cbn; split; (reflexivity || ring).
Qed.

Lemma rtt_step_check_iff (cfg : config_t) (u : uplink_t) :
  rtt_step_check cfg u = true <-> rtt_stepped cfg u.
Proof.
  unfold rtt_step_check, rtt_stepped, Qmean.
  destruct (rtt_recent_spec u) as [Hc Hs].
  destruct (rtt_recent u) as [recent_sum count]. cbn [fst snd] in Hc, Hs.
  destruct (Z.geb_spec (history_idx u) 5) as [H5|H5];
    [|split; [discriminate|intros [? _]; lia]].
  destruct (Z.gtb_spec count 0) as [Hp|Hp].
  - unfold Qgeb. rewrite Qle_bool_iff, Hs, Hc.
    split.
    + intros H. split; [lia|]. split; [|exact H].
      intros E. rewrite E in Hc. cbn in Hc. lia.
    + intros (_ & _ & H). exact H.
  - split; [discriminate|]. intros (_ & Hne & _).
    destruct (recent_successes u); [congruence|cbn in Hc; lia].
Qed.

Lemma rsrp_dropped_iff (u : uplink_t) :
  type_eqb (u_type u) UPLINK_TYPE_LTE && Qltb (rsrp (cellular u)) (-120) = true
  <-> rsrp_dropped u.
Proof.
  unfold rsrp_dropped. rewrite andb_true_iff, type_eqb_iff, Qltb_iff. reflexivity.
Qed.

Lemma starlink_obstructed_iff (u : uplink_t) :
  type_eqb (u_type u) UPLINK_TYPE_STARLINK
  && (obstructed (starlink u)
      || ((obstruction_eta (starlink u) >? 0) && (obstruction_eta (starlink u) <? 5)))
  = true
  <-> starlink_obstructed u.
Proof.
  unfold starlink_obstructed.
  rewrite andb_true_iff, orb_true_iff, andb_true_iff, type_eqb_iff.
  rewrite Z.gtb_lt, Z.ltb_lt. tauto.
Qed.

Lemma not_true_iff (b : bool) (P : Prop) : (b = true <-> P) -> (b = false <-> ~ P).
Proof.
  intros [H1 H2]. destruct b; split; intros H.
  - discriminate.
  - exfalso. apply H, H1. reflexivity.
  - intros HP. specialize (H2 HP). discriminate.
  - reflexivity.
Qed.

(** The code follows the rules. *)
Lemma tripwire_check_sound (cfg : config_t) (a : option uplink_t) :
  tripwire_rule cfg a (tripwire_check cfg a).
Proof.
  destruct a as [u|]; [|constructor].
  unfold tripwire_check.
  destruct (enabled u) eqn:Hen; [|apply rule_link_down; auto].
  destruct (available u) eqn:Hav; [|apply rule_link_down; auto].
  cbn [negb orb].
  destruct (rtt_step_check cfg u) eqn:Hrtt.
  { apply rule_rtt_step; auto. apply rtt_step_check_iff, Hrtt. }
  apply (not_true_iff _ _ (rtt_step_check_iff cfg u)) in Hrtt.
  destruct (Z.geb_spec (consec_fail u) (probe_miss_count cfg)) as [Hm|Hm].
  { apply rule_probe_miss; auto. }
  destruct (type_eqb (u_type u) UPLINK_TYPE_LTE && _) eqn:Hr.
  { apply rule_rsrp_drop; auto. apply rsrp_dropped_iff, Hr. }
  apply (not_true_iff _ _ (rsrp_dropped_iff u)) in Hr.
  destruct (type_eqb (u_type u) UPLINK_TYPE_STARLINK && _) eqn:Ho.
  { apply rule_starlink; auto. apply starlink_obstructed_iff, Ho. }
  apply (not_true_iff _ _ (starlink_obstructed_iff u)) in Ho.
  apply rule_none; auto.
Qed.

(** The rules determine the trigger. *)
Lemma tripwire_rule_functional (cfg : config_t) (a : option uplink_t) (t1 t2 : trigger_t) :
  tripwire_rule cfg a t1 -> tripwire_rule cfg a t2 -> t1 = t2.
Proof.
  intros H1 H2.
  inversion H1; subst; inversion H2; subst; try reflexivity;
    try congruence; try tauto; try lia;
    repeat match goal with
           | H : _ \/ _ |- _ => destruct H
           end; congruence.
Qed.

Lemma rtt_recent_fl_spec (fl : Q -> Q) (u : uplink_t) :
  rtt_recent_fl fl u
  = (sum_fl fl (recent_successes u), Z.of_nat (length (recent_successes u))).
Proof.
  unfold rtt_recent_fl, recent_successes, last_three, sum_fl.
  cbn [map fold_left List.filter].
  destruct (p_success (hist_at u (Z.rem (history_idx u - 1 - 0) HISTORY_SIZE)));
    destruct (p_success (hist_at u (Z.rem (history_idx u - 1 - 1) HISTORY_SIZE)));
    destruct (p_success (hist_at u (Z.rem (history_idx u - 1 - 2) HISTORY_SIZE)));
    reflexivity.
Qed.

Lemma rtt_step_check_fl_iff (fl : Q -> Q) (cfg : config_t) (u : uplink_t) :
  rtt_step_check_fl fl cfg u = true <-> rtt_stepped_fl fl cfg u.
Proof.
  unfold rtt_step_check_fl, rtt_stepped_fl, rtt_step_fl.
  rewrite rtt_recent_fl_spec.
  destruct (Z.geb_spec (history_idx u) 5) as [H5|H5];
    [|split; [discriminate|intros [? _]; lia]].
  destruct (Z.gtb_spec (Z.of_nat (length (recent_successes u))) 0) as [Hp|Hp].
  - unfold Qgeb. rewrite Qle_bool_iff. split.
    + intros H. split; [lia|]. split; [|exact H].
      intros E. rewrite E in Hp. cbn in Hp. lia.
    + intros (_ & _ & H). exact H.
  - split; [discriminate|]. intros (_ & Hne & _).
    destruct (recent_successes u); [congruence|cbn in Hp; lia].
Qed.

Lemma tripwire_check_fl_sound (fl : Q -> Q) (cfg : config_t) (a : option uplink_t) :
  tripwire_rule_fl fl cfg a (tripwire_check_fl fl cfg a).
Proof.
  destruct a as [u|]; [|constructor].
  unfold tripwire_check_fl.
  destruct (enabled u) eqn:Hen; [|apply rule_fl_link_down; auto].
  destruct (available u) eqn:Hav; [|apply rule_fl_link_down; auto].
  cbn [negb orb].
  destruct (rtt_step_check_fl fl cfg u) eqn:Hrtt.
  { apply rule_fl_rtt_step; auto. apply rtt_step_check_fl_iff, Hrtt. }
  apply (not_true_iff _ _ (rtt_step_check_fl_iff fl cfg u)) in Hrtt.
  destruct (Z.geb_spec (consec_fail u) (probe_miss_count cfg)) as [Hm|Hm].
  { apply rule_fl_probe_miss; auto. }
  destruct (type_eqb (u_type u) UPLINK_TYPE_LTE && _) eqn:Hr.
  { apply rule_fl_rsrp_drop; auto. apply rsrp_dropped_iff, Hr. }
  apply (not_true_iff _ _ (rsrp_dropped_iff u)) in Hr.
  destruct (type_eqb (u_type u) UPLINK_TYPE_STARLINK && _) eqn:Ho.
  { apply rule_fl_starlink; auto. apply starlink_obstructed_iff, Ho. }
  apply (not_true_iff _ _ (starlink_obstructed_iff u)) in Ho.
  apply rule_fl_none; auto.
Qed.

Lemma tripwire_rule_fl_functional (fl : Q -> Q) (cfg : config_t) (a : option uplink_t)
    (t1 t2 : trigger_t) :
  tripwire_rule_fl fl cfg a t1 -> tripwire_rule_fl fl cfg a t2 -> t1 = t2.
Proof.
  intros H1 H2.
  inversion H1; subst; inversion H2; subst; try reflexivity;
    try congruence; try tauto; try lia;
    repeat match goal with
           | H : _ \/ _ |- _ => destruct H
           end; congruence.
Qed.

(** ** Rounding *)

Lemma round_half_even_near (m : Q) :
  (- (1 # 2) <= inject_Z (round_half_even m) - m <= 1 # 2)%Q.
Proof.
  unfold round_half_even.
  pose proof (Qfloor_le m) as H1. pose proof (Qlt_floor m) as H2.
  rewrite inject_Z_plus in H2. change (inject_Z 1) with 1%Q in H2.
  destruct (Qle_bool (m - inject_Z (Qfloor m)) (1 # 2)) eqn:E1.
  - apply Qle_bool_iff in E1.
    destruct (Qle_bool (1 # 2) (m - inject_Z (Qfloor m))) eqn:E2.
    + apply Qle_bool_iff in E2. destruct (Z.even (Qfloor m)).
      * lra.
      * rewrite inject_Z_plus. change (inject_Z 1) with 1%Q. lra.
    + lra.
  - assert (E : ~ (m - inject_Z (Qfloor m) <= 1 # 2)%Q).
    { intros H. apply Qle_bool_iff in H. congruence. }
    rewrite inject_Z_plus. change (inject_Z 1) with 1%Q. lra.
Qed.

Lemma qlog2_le (y : Q) : (0 < y)%Q -> (y <= ROUND_RANGE)%Q -> qlog2 y <= 22.
Proof.
  intros Hpos Hle. unfold qlog2.
  assert (H0 : Z.log2 (Qnum y) - Z.log2 (Z.pos (Qden y)) <= 22).
  { destruct y as [a b]. cbn [Qnum Qden].
    unfold Qlt in Hpos. unfold Qle, ROUND_RANGE in Hle. cbn in Hpos, Hle.
    assert (Ha : 0 < a) by lia.
    pose proof (Z.log2_spec (Z.pos b) ltac:(lia)) as [_ Hb].
    assert (Hlt : a < 2 ^ (23 + Z.log2 (Z.pos b))).
    { pose proof (Z.log2_nonneg (Z.pos b)).
      rewrite Z.pow_add_r by lia.
      change (2 ^ 23) with 8388608.
      replace (Z.succ (Z.log2 (Z.pos b))) with (Z.log2 (Z.pos b) + 1) in Hb by lia.
      rewrite Z.pow_add_r in Hb by lia. change (2 ^ 1) with 2 in Hb. nia. }
    apply Z.log2_lt_pow2 in Hlt; [lia|exact Ha]. }
  destruct (Qle_bool _ y); lia.
Qed.

Lemma Qabs_pos_lt (x : Q) : ~ (x == 0)%Q -> (0 < Qabs x)%Q.
Proof.
  intros Hne. destruct (Qlt_le_dec 0 x) as [H|H].
  - rewrite Qabs_pos by lra. exact H.
  - rewrite Qabs_neg by exact H.
    assert (x < 0)%Q; [|lra].
    apply Qle_lteq in H. destruct H as [H|H]; [exact H|contradiction].
Qed.

(** Rounding to the nearest double moves a number of magnitude up to
    [2^22] by [2^-31] at most. *)
Lemma round_double_rounding : double_rounding round_double.
Proof.
  intros x Hx. unfold round_double.
  destruct (Qeq_bool x 0) eqn:E0.
  - apply Qeq_bool_iff in E0. unfold ROUND_ERR. lra.
  - assert (Hne : ~ (x == 0)%Q) by (intros H; apply Qeq_bool_iff in H; congruence).
    set (e := Z.max (qlog2 (Qabs x)) (-1022)).
    assert (He : e <= 22).
    { subst e. apply Z.max_lub; [|lia]. apply qlog2_le.
      - apply Qabs_pos_lt, Hne.
      - apply Qabs_Qle_condition. exact Hx. }
    clearbody e.
    set (q := (2 ^ (e - 52))%Q).
    assert (Hq0 : (0 < q)%Q) by (apply Qpower_0_lt; reflexivity).
    assert (Hq1 : (q <= 1 # 1073741824)%Q).
    { change (1 # 1073741824)%Q with (2 ^ (-30))%Q.
      apply Qpower_le_compat_l; [lia|discriminate]. }
    clearbody q.
    pose proof (round_half_even_near (x / q)) as Hn.
    set (n := inject_Z (round_half_even (x / q))) in *. clearbody n.
    assert (Hx' : (x == (x / q) * q)%Q) by (field; lra).
    set (m := (x / q)%Q) in *. clearbody m.
    unfold ROUND_ERR.
    assert (Hd : (n * q - x == (n - m) * q)%Q) by (rewrite Hx'; ring).
    rewrite Hd. split; nra.
Qed.

Lemma identity_rounding : double_rounding (fun x => x).
Proof. intros x _. unfold ROUND_ERR. lra. Qed.

(** Round the innermost operation: name its result and keep its bound. *)
Ltac round_innermost H :=
  match goal with
  | |- context [?f ?x] =>
      lazymatch type of H with
      | double_rounding f =>
          lazymatch x with
          | context [f _] => fail
          | _ =>
              let B := fresh "B" in
              let y := fresh "y" in
              assert (B : (- ROUND_ERR <= f x - x <= ROUND_ERR)%Q)
                by (apply H; unfold ROUND_RANGE, ROUND_ERR, RTT_RANGE in *; lra);
              set (y := f x) in *; clearbody y
          end
      end
  end.

Lemma rtt_step_fl_accurate (fl : Q -> Q) (u : uplink_t) :
  double_rounding fl -> rtt_in_range u -> recent_successes u <> [] ->
  (- RTT_STEP_ERR
   <= rtt_step_fl fl u - (Qmean (recent_successes u) - rtt_baseline u)
   <= RTT_STEP_ERR)%Q.
Proof.
  intros Hfl [Hl Hb] Hne. unfold rtt_step_fl, Qmean, sum_fl, Qsum.
  assert (Hlen : (length (recent_successes u) <= 3)%nat).
  { unfold recent_successes, last_three. cbn [map List.filter].
    repeat match goal with
           | |- context [if ?c then _ else _] => destruct c
           end; cbn; lia. }
  set (b := rtt_baseline u) in *. clearbody b.
  destruct (recent_successes u) as [|v0 [|v1 [|v2 [|v3 l]]]];
    [congruence| | | |cbn in Hlen; lia]; clear Hne Hlen;
    cbn [fold_left fold_right length];
    repeat match goal with
           | H : Forall _ (_ :: _) |- _ => inversion H; subst; clear H
           | H : Forall _ [] |- _ => clear H
           end;
    unfold Qdiv;
    [ change (/ inject_Z (Z.of_nat 1))%Q with 1%Q
    | change (/ inject_Z (Z.of_nat 2))%Q with (1 # 2)%Q
    | change (/ inject_Z (Z.of_nat 3))%Q with (1 # 3)%Q ];
    repeat round_innermost Hfl;
    unfold RTT_STEP_ERR, ROUND_ERR, RTT_RANGE in *; lra.
Qed.

(** C6 (as amended). [tripwire_check] is a function of the configuration
    and the active uplink alone, and it returns the trigger of the first
    rule that applies, in this order: (1) null, disabled or unavailable:
    LINK_DOWN; (2) history depth at least 5, at least one of the last three
    probes succeeded, and the step is at least [rtt_step_ms]: RTT_STEP;
    (3) [consec_fail >= probe_miss_count]: PROBE_MISS; (4) LTE with
    [rsrp < -120]: RSRP_DROP; (5) Starlink that is obstructed or has
    [0 < obstruction_eta < 5]: STARLINK_OBSTR; otherwise NONE.  The step
    is the mean RTT of those of the last three probes that succeeded, less
    [rtt_baseline], as the code computes it in doubles: sum from 0, newest
    probe first, then the quotient, then the difference, each rounded.
    This holds for every rounding [fl]; without rounding the function is
    the [tripwire_check] of the main loop.  For a rounding that moves no
    number up to [2^22] by more than [2^-31], as rounding to the nearest
    double does, and for round-trip times and a baseline of up to [10^6]
    ms, the computed step is within [5 * 2^-31] of the exact one: the
    verdict can differ from the one of exact arithmetic only when the
    exact step is that near the threshold. *)
Theorem tripwire_first_match (fl : Q -> Q) (cfg : config_t) (a : option uplink_t)
    (t : trigger_t) :
  (tripwire_check_fl fl cfg a = t <-> tripwire_rule_fl fl cfg a t)
  /\ tripwire_check_fl (fun x => x) cfg a = tripwire_check cfg a
  /\ (double_rounding fl ->
      forall u, rtt_in_range u -> recent_successes u <> [] ->
        (- RTT_STEP_ERR
         <= rtt_step_fl fl u - (Qmean (recent_successes u) - rtt_baseline u)
         <= RTT_STEP_ERR)%Q)
  /\ double_rounding round_double.
Proof.
  split; [|split; [reflexivity|split; [|exact round_double_rounding]]].
  - split.
    + intros <-. apply tripwire_check_fl_sound.
    + intros H.
      exact (tripwire_rule_fl_functional fl cfg a _ _ (tripwire_check_fl_sound fl cfg a) H).
  - intros Hfl u. apply rtt_step_fl_accurate, Hfl.
Qed.

(** The theorem at [uplink_at_threshold] with rounding to the nearest
    double: the computed step is [80 - 2^-45], below the threshold of 80,
    and no rule applies, while the exact step of the same inputs is 80 and
    [tripwire_check] without rounding returns RTT_STEP. *)
Lemma tripwire_first_match_witness :
  tripwire_rule_fl round_double config_defaults (Some uplink_at_threshold) TRIGGER_NONE
  /\ tripwire_check_fl round_double config_defaults (Some uplink_at_threshold)
     = TRIGGER_NONE
  /\ (rtt_step_fl round_double uplink_at_threshold == 80 - (1 # 35184372088832))%Q
  /\ (Qmean (recent_successes uplink_at_threshold) - rtt_baseline uplink_at_threshold
      == 80)%Q
  /\ tripwire_check config_defaults (Some uplink_at_threshold) = TRIGGER_RTT_STEP
  /\ (- RTT_STEP_ERR
      <= rtt_step_fl round_double uplink_at_threshold
         - (Qmean (recent_successes uplink_at_threshold)
            - rtt_baseline uplink_at_threshold)
      <= RTT_STEP_ERR)%Q.
Proof.
  destruct (tripwire_first_match round_double config_defaults
              (Some uplink_at_threshold) TRIGGER_NONE) as ([Hr _] & _ & Hacc & Hrd).
  split; [apply Hr; vm_compute; reflexivity|].
  split; [vm_compute; reflexivity|].
  split; [vm_compute; reflexivity|].
  split; [vm_compute; reflexivity|].
  split; [vm_compute; reflexivity|].
  apply (Hacc Hrd).
  - split.
    + let l := eval vm_compute in (recent_successes uplink_at_threshold) in
      replace (recent_successes uplink_at_threshold) with l
        by (vm_compute; reflexivity).
      constructor; [split; vm_compute; discriminate|].
      constructor; [split; vm_compute; discriminate|].
      constructor.
    + split; vm_compute; discriminate.
  - intros E.
    apply (f_equal (@length Q)) in E. vm_compute in E. discriminate E.
Defined.

(** C6, counterexample. After the probes 30, 30, lost, lost, 200 ms the
    uplink is enabled and available, the three most recent successful
    probes are 200, 30 and 30 ms, whose mean is less than 80 ms above the
    baseline of 38.5 ms, and no later rule applies; yet [tripwire_check]
    returns RTT_STEP, because it averages the one success among the last
    three probes. *)
Lemma tripwire_last_successful_counterexample :
  enabled uplink_after_glitch = true
  /\ available uplink_after_glitch = true
  /\ Forall2 Qeq (last_successful 3 uplink_after_glitch) [200%Q; 30%Q; 30%Q]
  /\ ~ rtt_stepped_as_specified config_defaults uplink_after_glitch
  /\ consec_fail uplink_after_glitch < probe_miss_count config_defaults
  /\ ~ rsrp_dropped uplink_after_glitch
  /\ ~ starlink_obstructed uplink_after_glitch
  /\ tripwire_check config_defaults (Some uplink_after_glitch) = TRIGGER_RTT_STEP.
Proof.
  split; [reflexivity|]. split; [reflexivity|].
  split; [vm_compute; repeat constructor|].
  split.
  { intros (_ & _ & H). vm_compute in H. apply H. reflexivity. }
  split; [reflexivity|].
  split.
  { intros [_ H]. vm_compute in H. discriminate. }
  split.
  { intros [H _]. vm_compute in H. discriminate. }
  reflexivity.
Qed.

(** ** Best-uplink selection *)

Lemma Qgtb_true (x y : Q) : Qgtb x y = true <-> (y < x)%Q.
Proof. unfold Qgtb. apply Qltb_iff. Qed.

Lemma Qgtb_false (x y : Q) : Qgtb x y = false <-> (x <= y)%Q.
Proof.
  unfold Qgtb, Qltb. rewrite negb_false_iff. apply Qle_bool_iff.
Qed.

Lemma select_step_inv (fl : Q -> Q) (w : world) (n : nat) (acc : nat * Q) :
  select_inv fl w n acc -> select_inv fl w (S n) (select_step_fl fl w acc n).
Proof.
  intros Hinv. unfold select_step_fl. fold (candb w n).
  assert (Hc : negb (enabled (uplink_at w n)) || negb (available (uplink_at w n))
               = negb (candb w n))
    by (unfold candb; destruct (enabled _), (available _); reflexivity).
  rewrite Hc. clear Hc.
  destruct (candb w n) eqn:Hcand; cbn [negb].
  - destruct (Qgtb (score_fl fl (uplink_at w n)) (snd acc)) eqn:Hgt.
    + apply Qgtb_true in Hgt. right. cbn [fst snd].
      split; [lia|]. split; [exact Hcand|]. split; [reflexivity|].
      destruct Hinv as [[-> Hle]|(Hb & Hcb & Hs & Hlo & Hle & Hlt)]; cbn [fst snd] in *.
      * split; [exact Hgt|]. split.
        -- intros i Hi Hci. destruct (Nat.eq_dec i n) as [->|Hne];
             [apply Qle_refl|].
           apply Qlt_le_weak. eapply Qle_lt_trans; [apply Hle; [lia|exact Hci]|exact Hgt].
        -- intros i Hi Hci. eapply Qle_lt_trans; [apply Hle; [lia|exact Hci]|exact Hgt].
      * split; [eapply Qlt_trans; eassumption|]. split.
        -- intros i Hi Hci. destruct (Nat.eq_dec i n) as [->|Hne];
             [apply Qle_refl|].
           apply Qlt_le_weak. eapply Qle_lt_trans; [apply Hle; [lia|exact Hci]|exact Hgt].
        -- intros i Hi Hci. eapply Qle_lt_trans; [apply Hle; [lia|exact Hci]|exact Hgt].
    + apply Qgtb_false in Hgt.
      destruct Hinv as [[-> Hle]|(Hb & Hcb & Hs & Hlo & Hle & Hlt)]; cbn [fst snd] in *.
      * left. split; [reflexivity|]. intros i Hi Hci.
        destruct (Nat.eq_dec i n) as [->|Hne]; [exact Hgt|apply Hle; [lia|exact Hci]].
      * right. split; [lia|]. split; [exact Hcb|]. split; [exact Hs|].
        split; [exact Hlo|]. split; [|exact Hlt].
        intros i Hi Hci.
        destruct (Nat.eq_dec i n) as [->|Hne]; [exact Hgt|apply Hle; [lia|exact Hci]].
  - destruct Hinv as [[-> Hle]|(Hb & Hcb & Hs & Hlo & Hle & Hlt)].
    + left. split; [reflexivity|]. intros i Hi Hci.
      destruct (Nat.eq_dec i n) as [->|Hne]; [congruence|apply Hle; [lia|exact Hci]].
    + right. split; [lia|]. split; [exact Hcb|]. split; [exact Hs|].
      split; [exact Hlo|]. split; [|exact Hlt].
      intros i Hi Hci.
      destruct (Nat.eq_dec i n) as [->|Hne]; [congruence|apply Hle; [lia|exact Hci]].
Qed.

Lemma select_loop_inv (fl : Q -> Q) (w : world) (n : nat) :
  select_inv fl w n
    (fold_left (select_step_fl fl w) (seq 0 n) (active_uplink (g_status w), (-9999)%Q)).
Proof.
  induction n as [|n IH].
  - left. split; [reflexivity|]. intros i Hi. lia.
  - rewrite seq_S, fold_left_app. cbn [fold_left Nat.add]. apply select_step_inv, IH.
Qed.

Lemma score_formula (u : uplink_t) :
  (score u == 100 - rtt_ms u - 50 * risk_now u - 10 * loss_pct u
              + bonus_starlink u + bonus_lte u)%Q.
Proof.
  unfold score, bonus_starlink, bonus_lte.
  destruct (type_eqb (u_type u) UPLINK_TYPE_STARLINK && online (starlink u)
            && negb (obstructed (starlink u)));
    destruct (type_eqb (u_type u) UPLINK_TYPE_LTE && Qgtb (rsrp (cellular u)) (-90));
    ring.
Qed.

Lemma score_fl_accurate (fl : Q -> Q) (u : uplink_t) :
  double_rounding fl -> score_in_range u ->
  (- SCORE_ERR
   <= score_fl fl u
      - (100 - rtt_ms u - 50 * risk_now u - 10 * loss_pct u
         + bonus_starlink u + bonus_lte u)
   <= SCORE_ERR)%Q.
Proof.
  intros Hfl (Hr & Hk & Hl). unfold score_fl, bonus_starlink, bonus_lte.
  set (r := rtt_ms u) in *. set (k := risk_now u) in *. set (l := loss_pct u) in *.
  set (c1 := online (starlink u) && negb (obstructed (starlink u))).
  set (c2 := Qgtb (rsrp (cellular u)) (-90)).
  rewrite <- andb_assoc. fold c1.
  clearbody r k l c1 c2.
  destruct (u_type u); cbn [type_eqb andb]; destruct c1, c2; cbn [andb];
    repeat round_innermost Hfl;
    unfold SCORE_ERR, ROUND_ERR in *; lra.
Qed.

Lemma score_error_of_formula (fl : Q -> Q) (u : uplink_t) (f : Q) :
  (score_fl (fun x => x) u == f)%Q ->
  (- SCORE_ERR <= score_fl fl u - f <= SCORE_ERR)%Q ->
  (- SCORE_ERR <= score_fl fl u - score u <= SCORE_ERR)%Q.
Proof.
  intros He Hs. change (score_fl (fun x => x) u) with (score u) in He.
  set (a := score u) in *. set (b := score_fl fl u) in *.
  clearbody a b. unfold SCORE_ERR in *. lra.
Qed.

(** C7 (as amended). With [force_locked] set, [select_best_uplink] returns
    the active uplink.  Otherwise every enabled and available uplink is
    scored [100 - rtt_ms - 50*risk_now - 10*loss_pct], plus 20 for a
    Starlink uplink that is online and unobstructed, plus 15 for an LTE
    uplink with [rsrp > -90], the score being computed in doubles in the
    code's order: [100 - rtt_ms], less the product [risk_now * 50], less
    the product [loss_pct * 10], plus the bonuses, each operation rounded.
    If no computed score exceeds -9999 the active uplink is returned; else
    the result is the lowest-numbered uplink among those with the highest
    computed score.  A tie of computed scores is therefore resolved towards
    the lower index, and towards the active uplink only when no uplink of
    lower index shares the highest computed score.  This holds for every
    rounding [fl]; without rounding the function is the
    [select_best_uplink] of the main loop and the score is exactly the
    formula.  For a rounding that moves no number up to [2^22] by more than
    [2^-31], as rounding to the nearest double does, and for an RTT up to
    [10^6] and a risk and a loss up to [10^3], the computed score is within
    [6 * 2^-31] of the formula: two uplinks whose exact scores are nearer
    than that to each other can be ordered either way. *)
Theorem select_best_first_maximum (fl : Q -> Q) (w : world) :
  (force_locked (g_status w) = true ->
   select_best_uplink_fl fl w = active_uplink (g_status w))
  /\ (force_locked (g_status w) = false ->
      let b := select_best_uplink_fl fl w in
      (b = active_uplink (g_status w)
       /\ forall i, candidate w i -> (score_fl fl (uplink_at w i) <= -9999)%Q)
      \/ (candidate w b
          /\ (-9999 < score_fl fl (uplink_at w b))%Q
          /\ (forall i, candidate w i ->
                        (score_fl fl (uplink_at w i) <= score_fl fl (uplink_at w b))%Q)
          /\ (forall i, candidate w i -> (i < b)%nat ->
                        (score_fl fl (uplink_at w i) < score_fl fl (uplink_at w b))%Q)))
  /\ select_best_uplink_fl (fun x => x) w = select_best_uplink w
  /\ (forall u,
       (score_fl (fun x => x) u
        == 100 - rtt_ms u - 50 * risk_now u - 10 * loss_pct u
           + bonus_starlink u + bonus_lte u)%Q)
  /\ (double_rounding fl ->
      forall u, score_in_range u ->
        (- SCORE_ERR
         <= score_fl fl u
            - (100 - rtt_ms u - 50 * risk_now u - 10 * loss_pct u
               + bonus_starlink u + bonus_lte u)
         <= SCORE_ERR)%Q)
  /\ double_rounding round_double.
Proof.
  split; [|split; [|split; [reflexivity|split; [exact score_formula|split]]]].
  - intros H. unfold select_best_uplink_fl. rewrite H. reflexivity.
  - intros H b. subst b. unfold select_best_uplink_fl. rewrite H.
    assert (Hcand : forall i, candidate w i <-> (i < UPLINK_COUNT)%nat /\ candb w i = true).
    { intros i. unfold candidate, candb. rewrite andb_true_iff. tauto. }
    pose proof (select_loop_inv fl w UPLINK_COUNT) as Hinv.
    destruct (fold_left _ _ _) as [b s].
    destruct Hinv as [[E Hle]|(Hb & Hcb & Hs & Hlo & Hle & Hlt)]; cbn [fst snd] in *.
    + left. injection E as -> ->. split; [reflexivity|].
      intros i Hi. apply Hcand in Hi. apply Hle; tauto.
    + right. subst s. split; [apply Hcand; tauto|]. split; [exact Hlo|]. split.
      * intros i Hi. apply Hcand in Hi. apply Hle; tauto.
      * intros i Hi Hib. apply Hcand in Hi. apply Hlt; tauto.
  - intros Hfl u. apply score_fl_accurate, Hfl.
  - exact round_double_rounding.
Qed.

(** The theorem at [world_near_tie] with rounding to the nearest double:
    the computed score of [cell_a] is [-28.4 - 1/175921860444160], that of
    [cell_b] is higher, and [cell_b] is selected; in exact arithmetic the
    two scores are equal and [select_best_uplink] without rounding returns
    [cell_a]. *)
Lemma select_best_first_maximum_witness :
  force_locked (g_status world_near_tie) = false
  /\ active_uplink (g_status world_near_tie) = UPLINK_CELL_A
  /\ select_best_uplink_fl round_double world_near_tie = UPLINK_CELL_B
  /\ candidate world_near_tie UPLINK_CELL_B
  /\ (score_fl round_double (uplink_at world_near_tie UPLINK_CELL_A)
      < score_fl round_double (uplink_at world_near_tie UPLINK_CELL_B))%Q
  /\ (score_fl round_double (uplink_at world_near_tie UPLINK_CELL_A)
      == - (284 # 10) - (1 # 175921860444160))%Q
  /\ (score_fl round_double (uplink_at world_near_tie UPLINK_CELL_B)
      == - (284 # 10) + (1 # 703687441776640))%Q
  /\ (score (uplink_at world_near_tie UPLINK_CELL_A)
      == score (uplink_at world_near_tie UPLINK_CELL_B))%Q
  /\ select_best_uplink world_near_tie = UPLINK_CELL_A
  /\ (- SCORE_ERR
      <= score_fl round_double (uplink_at world_near_tie UPLINK_CELL_A)
         - score (uplink_at world_near_tie UPLINK_CELL_A)
      <= SCORE_ERR)%Q.
Proof.
  destruct (select_best_first_maximum round_double world_near_tie)
    as (_ & Hsel & _ & Hex & Hacc & Hrd).
  assert (Hb : select_best_uplink_fl round_double world_near_tie = UPLINK_CELL_B)
    by (vm_compute; reflexivity).
  assert (Hl : force_locked (g_status world_near_tie) = false)
    by (vm_compute; reflexivity).
  assert (Ha : active_uplink (g_status world_near_tie) = UPLINK_CELL_A)
    by (vm_compute; reflexivity).
  specialize (Hsel Hl). cbv zeta in Hsel. rewrite Hb, Ha in Hsel.
  destruct Hsel as [[E _]|(Hc & _ & _ & Hlt)]; [discriminate E|].
  split; [exact Hl|]. split; [exact Ha|].
  split; [exact Hb|]. split; [exact Hc|].
  split.
  { apply Hlt; [|unfold UPLINK_CELL_A, UPLINK_CELL_B; lia].
    split; [unfold UPLINK_CELL_A, UPLINK_COUNT; lia|].
    split; vm_compute; reflexivity. }
  split; [vm_compute; reflexivity|].
  split; [vm_compute; reflexivity|].
  split; [vm_compute; reflexivity|].
  split; [vm_compute; reflexivity|].
  apply (score_error_of_formula round_double _ _ (Hex _)).
  apply (Hacc Hrd).
  unfold score_in_range. split; [|split]; (split; vm_compute; discriminate).
Defined.

(** C7, counterexample. [cell_b] is active, the lock is off, [cell_a] and
    [cell_b] are both candidates and tie for the highest score (85), and
    [select_best_uplink] returns [cell_a], not the active uplink: the
    commands [force:cell_b], [force:auto] end with [cell_a] active. *)
Lemma select_best_tie_counterexample :
  force_locked (g_status world_tie) = false
  /\ active_uplink (g_status world_tie) = UPLINK_CELL_B
  /\ candidate world_tie UPLINK_CELL_A
  /\ candidate world_tie UPLINK_CELL_B
  /\ (score (uplink_at world_tie UPLINK_CELL_A) == 85)%Q
  /\ (score (uplink_at world_tie UPLINK_CELL_B) == 85)%Q
  /\ Forall (fun i => (score (uplink_at world_tie i) <= 85)%Q) (seq 0 UPLINK_COUNT)
  /\ select_best_uplink world_tie = UPLINK_CELL_A
  /\ active_uplink
       (g_status
          (process_one_command "force:auto" "3.cmd" (env_at T0 0)
             (process_one_command "force:cell_b" "2.cmd" (env_at T0 0)
                world_all_up)))
     = UPLINK_CELL_A.
Proof.
  split; [reflexivity|]. split; [reflexivity|].
  split; [vm_compute; repeat constructor|].
  split; [vm_compute; repeat constructor|].
  split; [reflexivity|]. split; [reflexivity|].
  split; [repeat constructor; vm_compute; discriminate|].
  split; vm_compute; reflexivity.
Qed.

(** ** The loss percentage *)

Lemma loss_loop_bounds (fuel : nat) (u : uplink_t) (i success total : Z) :
  0 <= success <= total ->
  0 <= fst (loss_loop fuel u i success total) <= snd (loss_loop fuel u i success total)
  /\ total <= snd (loss_loop fuel u i success total).
Proof.
  revert i success total.
  induction fuel as [|fuel IH]; intros i success total H; cbn [loss_loop fst snd];
    [lia|].
  destruct ((i <? 20) && (i <? history_idx u)); cbn [fst snd]; [|lia].
  destruct (p_success _).
  - destruct (IH (i + 1) (success + 1) (total + 1)); lia.
  - destruct (IH (i + 1) success (total + 1)); lia.
Qed.

Lemma loss_loop_step (fuel : nat) (u : uplink_t) (i success total : Z) :
  loss_loop (S fuel) u i success total
  = if (i <? 20) && (i <? history_idx u) then
      loss_loop fuel u (i + 1)
        (if p_success (hist_at u (Z.rem (history_idx u - 1 - i) HISTORY_SIZE))
         then success + 1 else success)
        (total + 1)
    else (success, total).
Proof. reflexivity. Qed.

Lemma loss_loop_total (u : uplink_t) :
  0 < history_idx u -> 0 < snd (loss_loop 20 u 0 0 0).
Proof.
  intros H. rewrite loss_loop_step.
  destruct (Z.ltb_spec 0 (history_idx u)); [|lia].
  change ((0 <? 20) && true) with true. cbv iota.
  match goal with
  | |- context [loss_loop ?f ?u ?i ?s ?t] =>
      pose proof (loss_loop_bounds f u i s t) as Hb
  end.
  destruct (p_success _); destruct Hb; lia.
Qed.

Lemma loss_ratio_bounds (success total : Z) :
  0 <= success <= total -> 0 < total ->
  (0 <= 100 * inject_Z (total - success) / inject_Z total <= 100)%Q.
Proof.
  intros H Ht.
  destruct total as [|t|t]; try lia.
  unfold Qle, Qdiv, Qmult, Qinv, inject_Z. cbn.
  split; nia.
Qed.

(** What the poll does guarantee: the recomputed [loss_pct] never exceeds
    100, and it is non-negative when the injected loss is. *)
Lemma loss_pct_bounds (p : poll_in) (u : uplink_t) :
  0 <= history_idx u ->
  (loss_pct (uplink_probe p u) <= 100)%Q
  /\ ((0 <= chaos_loss u)%Q -> (0 <= loss_pct (uplink_probe p u))%Q).
Proof.
  intros Hidx. unfold uplink_probe.
  set (u1 := set_history_idx _ _).
  set (u2 := if Qgtb (pi_rtt p) 0 then _ else _).
  assert (Hi2 : history_idx u2 = history_idx u + 1)
    by (subst u2 u1; break_ifs; reflexivity).
  assert (Hc2 : chaos_loss u2 = chaos_loss u)
    by (subst u2 u1; break_ifs; reflexivity).
  pose proof (loss_loop_bounds 20 u2 0 0 0 ltac:(lia)) as [Hb _].
  pose proof (loss_loop_total u2 ltac:(lia)) as Ht.
  destruct (loss_loop 20 u2 0 0 0) as [success total]. cbn [fst snd] in *.
  destruct (Z.gtb_spec total 0); [|lia].
  pose proof (loss_ratio_bounds success total Hb Ht) as [Hlo Hhi].
  cbn [loss_pct set_loss_pct chaos_loss]. rewrite Hc2.
  destruct (Qgtb _ 100) eqn:Hg; cbn [loss_pct set_loss_pct].
  - split; [apply Qle_refl|]. intros _. discriminate.
  - apply Qgtb_false in Hg. split; [exact Hg|].
    intros Hch.
    apply (Qle_trans _ (100 * inject_Z (total - success) / inject_Z total + 0)).
    + rewrite Qplus_0_r. exact Hlo.
    + apply Qplus_le_r. exact Hch.
Qed.

(** C8. With a negative loss injected through the chaos file, the poll
    leaves [loss_pct] negative: [cell_a] has answered every probe, the file
    sets its [chaos_loss] to -50, and after the next poll its [loss_pct]
    is -50.  Only the upper bound is clamped. *)
Theorem loss_pct_negative_injection :
  let w1 := chaos_read (Some chaos_negative_loss) world_all_up in
  let w2 := uplink_poll (poll_ok (T0 + 100000) 30%Q) UPLINK_CELL_A w1 in
  (chaos_loss (uplink_at w1 UPLINK_CELL_A) == -50)%Q
  /\ (loss_pct (uplink_at w2 UPLINK_CELL_A) == -50)%Q
  /\ (loss_pct (uplink_at w2 UPLINK_CELL_A) < 0)%Q.
Proof. vm_compute. repeat split. Qed.

(** ** Startup *)

(** C5. When the configuration file cannot be opened, [config_load]
    returns -1 and [main] goes on: it never returns a non-zero code.  With
    [g_config] still zero it reaches [1000000 / g_config.sample_rate_hz]
    with a zero divisor.  Whenever [main] returns, it returns 0. *)
Theorem config_missing_not_fatal (its : list iter_in) :
  fst (config_load None world_zero) = -1
  /\ snd (config_load None world_zero) = world_zero
  /\ sample_rate_hz (g_config (main_startup None)) = 0
  /\ main None its = MainDivByZero (main_startup None)
  /\ forall file its',
       match main file its' with
       | MainReturn code _ => code = 0
       | MainDivByZero _ => True
       end.
Proof.
  assert (E : sample_rate_hz (g_config (main_startup None)) = 0)
    by (vm_compute; reflexivity).
  split; [reflexivity|]. split; [reflexivity|]. split; [exact E|]. split.
  - unfold main. rewrite E. reflexivity.
  - intros file its'. unfold main.
    destruct (sample_rate_hz _ =? 0); [exact I|].
    destruct (fold_left _ _ _) as [[? ?] ?]. reflexivity.
Qed.

(** * Further properties *)

(** ** Every change of an uplink record is one of the elementary updates *)

Section Evolution.
Variable S : uplink_t -> uplink_t -> Prop.

Lemma evolves_trans u u' u'' : evolves S u u' -> evolves S u' u'' -> evolves S u u''.
Proof.
  intros H1 H2. induction H2 as [|u1 u2 u3 H2 IH H3]; [exact H1|].
  eapply ev_step; [apply IH, H1|exact H3].
Qed.

Lemma evolves_one u u' : S u u' -> evolves S u u'.
Proof. intros H. eapply ev_step; [apply ev_refl|exact H]. Qed.

Lemma evolves_list_refl (l : list uplink_t) : Forall2 (evolves S) l l.
Proof. induction l; constructor; [apply ev_refl|assumption]. Qed.

Lemma evolves_list_trans (l1 l2 l3 : list uplink_t) :
  Forall2 (evolves S) l1 l2 -> Forall2 (evolves S) l2 l3 -> Forall2 (evolves S) l1 l3.
Proof.
  intros H1. revert l3. induction H1 as [|u1 u2 l1 l2 Hu H1 IH]; intros l3 H2.
  - inversion H2. constructor.
  - inversion H2 as [|? u3 ? l3' Hu' H2']; subst. constructor.
    + eapply evolves_trans; eassumption.
    + apply IH, H2'.
Qed.

Lemma evolves_alter (f : uplink_t -> uplink_t) (i : nat) (l : list uplink_t) :
  (forall u, l !! i = Some u -> evolves S u (f u)) ->
  Forall2 (evolves S) l (alter f i l).
Proof.
  revert i. induction l as [|u l IH]; intros i Hf; [constructor|].
  destruct i as [|i]; cbn.
  - constructor; [apply Hf; reflexivity|apply evolves_list_refl].
  - constructor; [apply ev_refl|]. apply IH. intros u' Hu'. apply Hf. exact Hu'.
Qed.

Lemma evolves_map (f : uplink_t -> uplink_t) (l : list uplink_t) :
  (forall u, evolves S u (f u)) -> Forall2 (evolves S) l (map f l).
Proof. intros Hf. induction l; cbn; constructor; [apply Hf|assumption]. Qed.

Lemma follows_trans w1 w2 w3 : follows S w1 w2 -> follows S w2 w3 -> follows S w1 w3.
Proof. apply evolves_list_trans. Qed.

Lemma follows_same w w' : g_uplinks w' = g_uplinks w -> follows S w w'.
Proof. unfold follows. intros ->. apply evolves_list_refl. Qed.

Lemma follows_upd_uplink i f w :
  (forall u, g_uplinks w !! i = Some u -> evolves S u (f u)) ->
  follows S w (upd_uplink i f w).
Proof. intros Hf. unfold follows. cbn. apply evolves_alter, Hf. Qed.

Lemma follows_fold_upd (fs : nat -> uplink_t -> uplink_t) (l : list nat) (w : world) :
  (forall i u, evolves S u (fs i u)) ->
  follows S w (fold_left (fun w i => upd_uplink i (fs i) w) l w).
Proof.
  intros Hf. revert w. induction l as [|i l IH]; intros w; cbn [fold_left];
    [apply follows_same; reflexivity|].
  eapply follows_trans; [|apply IH].
  apply follows_upd_uplink. intros u _. apply Hf.
Qed.

(** A property kept by every step is kept along [evolves]. *)
Lemma evolves_keeps (P : uplink_t -> Prop) u u' :
  (forall x x', S x x' -> P x -> P x') -> evolves S u u' -> P u -> P u'.
Proof.
  intros HS H. induction H as [|u u1 u2 H IH H2]; [auto|].
  intros Hu. eapply HS; [exact H2|apply IH, Hu].
Qed.
End Evolution.

Lemma evolves_mono (S S' : uplink_t -> uplink_t -> Prop) u u' :
  (forall x x', S x x' -> S' x x') -> evolves S u u' -> evolves S' u u'.
Proof.
  intros HS H. induction H as [|u u1 u2 H IH H2]; [apply ev_refl|].
  eapply ev_step; [exact IH|apply HS, H2].
Qed.

Lemma follows_mono (S S' : uplink_t -> uplink_t -> Prop) w w' :
  (forall x x', S x x' -> S' x x') -> follows S w w' -> follows S' w w'.
Proof.
  intros HS H. unfold follows in *.
  induction H; constructor; [eapply evolves_mono; eassumption|assumption].
Qed.

Lemma follows_chaos_read file w : follows auto_step w (chaos_read file w).
Proof.
  unfold chaos_read. destruct file as [entries|]; [|apply follows_same; reflexivity].
  eapply follows_trans;
    [|apply (follows_fold_upd auto_step
               (fun i => chaos_apply (default None (entries !! i))))].
  - unfold follows. cbn. apply evolves_map. intros u.
    apply evolves_one, as_chaos_reset.
  - intros i u. apply evolves_one, as_chaos_apply.
Qed.

Lemma uplink_at_lookup w i u : g_uplinks w !! i = Some u -> uplink_at w i = u.
Proof. unfold uplink_at. intros ->. reflexivity. Qed.

(** ** The parts of a poll *)

Lemma uplink_probe_stages p u :
  uplink_probe p u = probe_loss (probe_metrics p (probe_record p u)).
Proof.
  unfold uplink_probe, probe_loss, probe_metrics, probe_record.
  cbv beta zeta. reflexivity.
Qed.

Lemma probe_loss_fields u :
  let u' := probe_loss u in
  identity u' = identity u /\ enabled u' = enabled u
  /\ available u' = available u /\ force_failed u' = force_failed u
  /\ consec_fail u' = consec_fail u /\ rtt_ms u' = rtt_ms u
  /\ rtt_baseline u' = rtt_baseline u /\ history u' = history u
  /\ history_idx u' = history_idx u /\ starlink u' = starlink u
  /\ cellular u' = cellular u /\ is_active u' = is_active u
  /\ chaos_loss u' = chaos_loss u.
Proof.
  unfold probe_loss. destruct (loss_loop 20 u 0 0 0) as [success total].
  break_ifs; repeat split; reflexivity.
Qed.

Lemma probe_record_fields p u :
  let u' := probe_record p u in
  identity u' = identity u /\ enabled u' = enabled u
  /\ available u' = available u /\ force_failed u' = force_failed u
  /\ consec_fail u' = consec_fail u /\ rtt_ms u' = rtt_ms u
  /\ rtt_baseline u' = rtt_baseline u /\ starlink u' = starlink u
  /\ cellular u' = cellular u /\ is_active u' = is_active u
  /\ chaos_loss u' = chaos_loss u /\ loss_pct u' = loss_pct u.
Proof. repeat split; reflexivity. Qed.

Lemma probe_metrics_fields p u :
  let u' := probe_metrics p u in
  identity u' = identity u /\ enabled u' = enabled u
  /\ force_failed u' = force_failed u
  /\ history u' = history u /\ history_idx u' = history_idx u
  /\ starlink u' = starlink u /\ cellular u' = cellular u
  /\ is_active u' = is_active u /\ chaos_loss u' = chaos_loss u
  /\ loss_pct u' = loss_pct u.
Proof. unfold probe_metrics. break_ifs; repeat split; reflexivity. Qed.

Lemma probe_metrics_health p u :
  let u' := probe_metrics p u in
  consec_fail u' = (if Qgtb (pi_rtt p) 0 then 0 else consec_fail u + 1)
  /\ available u'
     = (if Qgtb (pi_rtt p) 0
        then (if force_failed u then available u else true)
        else if consec_fail u + 1 >? 5 then false else available u).
Proof.
  unfold probe_metrics.
  destruct (Qgtb (pi_rtt p) 0).
  - cbv zeta. change (force_failed (set_rtt_ms ?x u)) with (force_failed u).
    destruct (force_failed u); cbv iota beta; cbn [negb];
      destruct (Qeq_bool _ 0); split; reflexivity.
  - cbv zeta. change (consec_fail (set_consec_fail ?x u)) with x.
    destruct (consec_fail u + 1 >? 5); split; reflexivity.
Qed.

(** What a probe does to the health fields of an uplink. *)
Lemma uplink_probe_health p u :
  let u' := uplink_probe p u in
  identity u' = identity u /\ enabled u' = enabled u
  /\ force_failed u' = force_failed u
  /\ starlink u' = starlink u /\ cellular u' = cellular u
  /\ consec_fail u' = (if Qgtb (pi_rtt p) 0 then 0 else consec_fail u + 1)
  /\ available u'
     = (if Qgtb (pi_rtt p) 0
        then (if force_failed u then available u else true)
        else if consec_fail u + 1 >? 5 then false else available u).
Proof.
  cbv zeta. rewrite uplink_probe_stages.
  pose proof (probe_loss_fields (probe_metrics p (probe_record p u))) as HL.
  pose proof (probe_metrics_fields p (probe_record p u)) as HM.
  pose proof (probe_metrics_health p (probe_record p u)) as HH.
  pose proof (probe_record_fields p u) as HR.
  cbv zeta in HL, HM, HH, HR.
  destruct HL as (L1 & L2 & L3 & L4 & L5 & _ & _ & _ & _ & L6 & L7 & _).
  destruct HM as (M1 & M2 & M3 & _ & _ & M4 & M5 & _).
  destruct HH as (H1 & H2).
  destruct HR as (R1 & R2 & R3 & R4 & R5 & _ & _ & R6 & R7 & _).
  rewrite L1, L2, L3, L4, L5, L6, L7, M1, M2, M3, M4, M5, H1, H2, R1, R2, R3, R4, R5, R6, R7.
  auto 10.
Qed.

Lemma enabled_after_probe p i w :
  enabled (uplink_at w i) = true ->
  forall u, g_uplinks (upd_uplink i (uplink_probe p) w) !! i = Some u ->
            enabled u = true.
Proof.
  intros Hen u. unfold upd_uplink. cbn [g_uplinks set_g_uplinks].
  rewrite list_lookup_alter_eq. unfold uplink_at in Hen.
  destruct (g_uplinks w !! i) as [u0|]; [|discriminate].
  cbn. intros E. injection E as <-.
  pose proof (uplink_probe_health p u0) as H. cbv zeta in H.
  destruct H as (_ & H & _). rewrite H. exact Hen.
Qed.

Lemma follows_cellular_poll now out i w :
  (forall u, g_uplinks w !! i = Some u -> enabled u = true) ->
  follows auto_step w (cellular_poll now out i w).
Proof.
  intros Hen. unfold cellular_poll.
  destruct (now - _ <? 5); [apply follows_same; reflexivity|].
  destruct out as [r|].
  - eapply follows_trans; [|apply follows_upd_uplink].
    + apply follows_same. destruct (_ =? _)%nat; reflexivity.
    + intros u Hu. apply evolves_one.
      assert (He : enabled u = true).
      { apply Hen. revert Hu. destruct (_ =? _)%nat; exact (fun H => H). }
      clear Hu. revert He.
      destruct u as [? ? ? ? ? ? ? ? ? ? ? ? ? ? ? ? ? [r0 s0 c0] ? ? ? ?].
      intros He.
      destruct r as [[s1|] [r1|]]; cbn;
        apply (as_cellular _ _
                 (mk_uplink _ _ _ _ _ _ _ _ _ _ _ _ _ _ _ _ _
                    (mk_cellular r0 s0 c0) _ _ _ _) He).
  - apply follows_same. destruct (_ =? _)%nat; reflexivity.
Qed.

Lemma follows_uplink_poll p i w : follows auto_step w (uplink_poll p i w).
Proof.
  unfold uplink_poll.
  destruct (enabled (uplink_at w i)) eqn:Hen; cbn [negb];
    [|apply follows_same; reflexivity].
  assert (H1 : follows auto_step w (upd_uplink i (uplink_probe p) w)).
  { apply follows_upd_uplink. intros u Hu. apply evolves_one, as_probe.
    rewrite <- (uplink_at_lookup w i u Hu). exact Hen. }
  destruct (u_type _).
  - eapply follows_trans; [exact H1|].
    apply follows_cellular_poll, enabled_after_probe, Hen.
  - eapply follows_trans; [exact H1|]. apply follows_upd_uplink.
    intros u Hu. apply evolves_one, as_starlink.
    exact (enabled_after_probe p i w Hen u Hu).
  - exact H1.
Qed.

Lemma follows_prediction_tick w : follows auto_step w (prediction_tick w).
Proof.
  unfold follows, prediction_tick. cbn. apply evolves_map. intros u.
  destruct (enabled u) eqn:E; [apply evolves_one, as_risk, E|apply ev_refl].
Qed.

Lemma follows_execute_switch target verify t w :
  follows auto_step w (execute_switch target verify t w).
Proof.
  unfold execute_switch. destruct (verify =? 0); cbn [negb];
    [|apply follows_same; reflexivity].
  unfold follows. cbn.
  eapply evolves_list_trans; apply evolves_alter; intros u _;
    apply evolves_one, as_active.
Qed.

Lemma uplinks_dup_enable src dst t w : g_uplinks (snd (dup_enable src dst t w)) = g_uplinks w.
Proof. unfold dup_enable. destruct (find_gw _ _ _); reflexivity. Qed.

Lemma uplinks_tripwire_fire reason detail t_dup t_protect w :
  g_uplinks (tripwire_fire reason detail t_dup t_protect w) = g_uplinks w.
Proof.
  unfold tripwire_fire. destruct (negb _); cbn; [apply uplinks_dup_enable|reflexivity].
Qed.

Lemma uplinks_protection_tick now w : g_uplinks (protection_tick now w) = g_uplinks w.
Proof. unfold protection_tick. break_ifs; reflexivity. Qed.

Lemma follows_arbitrate_switch elapsed_ms verify t_sw w :
  follows auto_step w (arbitrate_switch elapsed_ms verify t_sw w).
Proof.
  unfold arbitrate_switch. break_ifs; try (apply follows_same; reflexivity).
  cbv zeta. apply (follows_execute_switch (select_best_uplink w) verify t_sw w).
Qed.

Lemma follows_slowpath_arbitrate now verify t_sw w :
  follows auto_step w (slowpath_arbitrate now verify t_sw w).
Proof.
  unfold slowpath_arbitrate.
  destruct (settle_gate_cases now w) as [(w1 & -> & ->)|(w1 & -> & [->| ->])].
  - apply follows_same; reflexivity.
  - apply follows_arbitrate_switch.
  - apply (follows_arbitrate_switch _ verify t_sw
             (log_event "dup_engaged" (upd_status (set_dup_engaged_at_us now) w))).
Qed.

Lemma follows_state_machine e w : follows auto_step w (state_machine e w).
Proof.
  unfold state_machine. destruct (mode_eqb _ _); [apply follows_same; reflexivity|].
  destruct (state (g_status w)).
  - destruct (tripwire_check _ _); try (apply follows_same; reflexivity);
      apply follows_same, uplinks_tripwire_fire.
  - destruct (tripwire_check _ _); try (apply follows_same; reflexivity);
      apply follows_same, uplinks_tripwire_fire.
  - eapply follows_trans; [apply follows_slowpath_arbitrate|].
    apply follows_same, uplinks_protection_tick.
  - apply follows_same, uplinks_protection_tick.
  - apply follows_same, uplinks_protection_tick.
Qed.

(** The operations of the loop other than commands take automatic steps. *)
Lemma follows_auto_op o w : is_command o = false -> follows auto_step w (run_op o w).
Proof.
  destruct o; cbn [run_op is_command]; intros H; try discriminate.
  - apply follows_chaos_read.
  - apply follows_uplink_poll.
  - apply follows_prediction_tick.
  - apply follows_state_machine.
Qed.

Lemma auto_is_step x x' : auto_step x x' -> uplink_step x x'.
Proof. intros H. left. exact H. Qed.

Lemma cmd_is_step x x' : cmd_step x x' -> uplink_step x x'.
Proof. intros H. right. exact H. Qed.

Lemma follows_named_uplink_cmd uplink key event f w :
  (forall u, cmd_step u (f u)) ->
  follows uplink_step w (named_uplink_cmd uplink key event f w).
Proof.
  intros Hf. unfold named_uplink_cmd.
  destruct (find_name _ _ _) as [i|]; [|apply follows_same; reflexivity].
  apply (follows_upd_uplink uplink_step i f w). intros u _.
  apply evolves_one, cmd_is_step, Hf.
Qed.

Lemma follows_process_one_command cmd cmd_id e w :
  follows uplink_step w (process_one_command cmd cmd_id e w).
Proof.
  unfold process_one_command.
  change (follows uplink_step w ?x)
    with (follows uplink_step (set_g_last_cmd_id (truncate 63 cmd_id) w) x).
  generalize (set_g_last_cmd_id (truncate 63 cmd_id) w). clear w. intros w.
  destruct (starts_with "mode:" cmd).
  { apply follows_same.
    destruct (String.eqb _ "training"); [reflexivity|].
    destruct (String.eqb _ "tripwire"); [reflexivity|].
    destruct (String.eqb _ "mirror"); [|reflexivity].
    exact (uplinks_dup_enable "br-lan" _ (env_t_dup e)
             (upd_status (set_mode MODE_MIRROR) w)). }
  destruct (starts_with "force:" cmd).
  { destruct (String.eqb _ "auto").
    - cbv zeta. destruct (negb _); [|apply follows_same; reflexivity].
      apply (follows_mono auto_step uplink_step _ _ auto_is_step).
      apply (follows_execute_switch _ (env_verify e) (env_t_sw e)
               (upd_status _ w)).
    - destruct (find_name _ _ _) as [i|]; [|apply follows_same; reflexivity].
      cbv zeta.
      eapply follows_trans;
        [apply (follows_upd_uplink uplink_step i
                  (fun u => set_available true (set_force_failed false u)) w);
         intros u _; apply evolves_one, cmd_is_step, cs_force|].
      apply (follows_mono auto_step uplink_step _ _ auto_is_step).
      apply (follows_execute_switch i (env_verify e) (env_t_sw e)). }
  destruct (String.eqb cmd "trigger").
  { apply follows_same. cbv zeta.
    exact (uplinks_tripwire_fire TRIGGER_MANUAL "operator" _ _ w). }
  destruct (starts_with "c8000:" cmd).
  { apply follows_same. unfold c8000_switch. cbn.
    destruct (env_c8000_ret e =? 0); reflexivity. }
  destruct (starts_with "enable:" cmd);
    [apply follows_named_uplink_cmd; intros u; apply cs_enabled|].
  destruct (starts_with "disable:" cmd);
    [apply follows_named_uplink_cmd; intros u; apply cs_enabled|].
  destruct (starts_with "fail:" cmd);
    [apply follows_named_uplink_cmd; intros u; apply cs_fail|].
  destruct (starts_with "unfail:" cmd);
    [apply follows_named_uplink_cmd; intros u; apply cs_unfail|].
  apply follows_same; reflexivity.
Qed.

Lemma follows_run_op o w : follows uplink_step w (run_op o w).
Proof.
  destruct o as [file|p i| |e|cmd cmd_id e];
    try (apply (follows_mono auto_step uplink_step _ _ auto_is_step);
         apply follows_auto_op; reflexivity).
  apply follows_process_one_command.
Qed.

Lemma follows_auto_ops ops w :
  forallb (fun o => negb (is_command o)) ops = true ->
  follows auto_step w (run_ops ops w).
Proof.
  unfold run_ops. revert w.
  induction ops as [|o ops IH]; intros w H; cbn [fold_left];
    [apply follows_same; reflexivity|].
  cbn [forallb] in H. apply andb_true_iff in H as [Ho H].
  apply negb_true_iff in Ho.
  eapply follows_trans; [apply follows_auto_op, Ho|apply IH, H].
Qed.

Lemma startup_evolves file :
  Forall2 (evolves uplink_step) init_uplinks (g_uplinks (main_startup file)).
Proof.
  unfold main_startup.
  change (Forall2 (evolves uplink_step) init_uplinks
            (g_uplinks
               (match file with
                | Some f =>
                    fold_left
                      (fun w i =>
                         if default false (cf_disabled f !! i)
                         then upd_uplink i (set_enabled false) w else w)
                      (seq 0 UPLINK_COUNT)
                      (uplinks_init (snd (config_load file world_zero)))
                | None => uplinks_init (snd (config_load file world_zero))
                end))).
  assert (H0 : g_uplinks (uplinks_init (snd (config_load file world_zero)))
               = init_uplinks) by reflexivity.
  destruct file as [f|]; [|rewrite H0; apply evolves_list_refl].
  rewrite <- H0.
  generalize (uplinks_init (snd (config_load (Some f) world_zero))).
  generalize (seq 0 UPLINK_COUNT).
  intros l. induction l as [|i l IH]; intros w; cbn [fold_left];
    [apply evolves_list_refl|].
  eapply evolves_list_trans; [|apply IH].
  destruct (default false _); [|apply evolves_list_refl].
  apply (follows_upd_uplink uplink_step i (set_enabled false) w).
  intros u _. apply evolves_one, cmd_is_step, cs_enabled.
Qed.

Lemma reachable_evolves w :
  reachable w -> Forall2 (evolves uplink_step) init_uplinks (g_uplinks w).
Proof.
  induction 1 as [file|o w Hr IH]; [apply startup_evolves|].
  eapply evolves_list_trans; [exact IH|apply follows_run_op].
Qed.

Lemma step_invariant (P : uplink_t -> Prop) :
  (forall u u', uplink_step u u' -> P u -> P u') ->
  Forall P init_uplinks ->
  forall w, reachable w -> Forall P (g_uplinks w).
Proof.
  intros Hstep Hinit w Hr.
  pose proof (reachable_evolves w Hr) as H.
  induction H as [|u0 u l0 l Hu H IH]; [constructor|].
  inversion Hinit as [|? ? Hu0 Hl0]; subst.
  constructor; [|apply IH, Hl0].
  exact (evolves_keeps uplink_step P u0 u Hstep Hu Hu0).
Qed.

Lemma reachable_length w : reachable w -> length (g_uplinks w) = UPLINK_COUNT.
Proof.
  intros Hr. pose proof (reachable_evolves w Hr) as H.
  apply Forall2_length in H. rewrite <- H. reflexivity.
Qed.

(** ** Invariants of the uplink array *)

Lemma world_all_up_reachable : reachable world_all_up.
Proof.
  apply (main_iteration_reachable 100000 (0, 0, main_startup (Some file_defaults))).
  apply reach_startup.
Qed.

Lemma auto_step_fields u u' :
  auto_step u u' ->
  identity u' = identity u
  /\ obstruction_eta (starlink u') = obstruction_eta (starlink u)
  /\ enabled u' = enabled u
  /\ force_failed u' = force_failed u.
Proof.
  intros H. destruct H as [u|e u|p u Hen|r s u Hen|out u Hen|u Hen|b u].
  - repeat split; reflexivity.
  - destruct e as [[[r|] [j|] [l|]]|]; repeat split; reflexivity.
  - pose proof (uplink_probe_health p u) as H. cbv zeta in H.
    destruct H as (H1 & H3 & H4 & H2 & _). rewrite H1, H2, H3, H4.
    repeat split; reflexivity.
  - repeat split; reflexivity.
  - destruct out as [[[?|] [?|] [?|] [?|] [?|]]|]; repeat split; reflexivity.
  - unfold risk_update. repeat split; reflexivity.
  - repeat split; reflexivity.
Qed.

Lemma uplink_step_fields u u' :
  uplink_step u u' ->
  identity u' = identity u
  /\ obstruction_eta (starlink u') = obstruction_eta (starlink u).
Proof.
  intros [H|H].
  - destruct (auto_step_fields u u' H) as (H1 & H2 & _). auto.
  - destruct H; split; reflexivity.
Qed.

(** A failed uplink stays failed and unavailable through automatic steps. *)
Lemma auto_step_failed u u' :
  auto_step u u' ->
  force_failed u = true /\ available u = false ->
  force_failed u' = true /\ available u' = false.
Proof.
  intros H. destruct H as [u|e u|p u Hen|r s u Hen|out u Hen|u Hen|b u].
  - intros HP; exact HP.
  - destruct e as [[[r|] [j|] [l|]]|]; intros HP; exact HP.
  - pose proof (uplink_probe_health p u) as H. cbv zeta in H.
    destruct H as (_ & _ & H1 & _ & _ & _ & H2). rewrite H1, H2.
    intros [Hff Hav]. rewrite Hff. split; [reflexivity|].
    destruct (Qgtb (pi_rtt p) 0); [exact Hav|].
    destruct (consec_fail u + 1 >? 5); [reflexivity|exact Hav].
  - intros HP; exact HP.
  - destruct out as [[[?|] [?|] [?|] [?|] [?|]]|]; intros HP; exact HP.
  - unfold risk_update. intros HP; exact HP.
  - intros HP; exact HP.
Qed.

Lemma force_failed_step u u' :
  uplink_step u u' ->
  (force_failed u = true -> available u = false) ->
  force_failed u' = true -> available u' = false.
Proof.
  intros [H|H].
  - intros HP Hff.
    destruct (auto_step_fields u u' H) as (_ & _ & _ & E).
    rewrite E in Hff.
    exact (proj2 (auto_step_failed u u' H (conj Hff (HP Hff)))).
  - destruct H.
    + intros HP; exact HP.
    + intros _ Hff. discriminate Hff.
    + intros _ _. reflexivity.
    + intros _ Hff. discriminate Hff.
Qed.

(** X1. In every reachable state an uplink the operator has failed
    ([force_failed]) is unavailable: probes do not bring it back, only
    [unfail:] and [force:] do, and they clear the flag. *)
Theorem force_failed_unavailable (w : world) :
  reachable w ->
  Forall (fun u => force_failed u = true -> available u = false) (g_uplinks w).
Proof.
  apply (step_invariant (fun u => force_failed u = true -> available u = false)).
  - intros u u' H. apply force_failed_step, H.
  - repeat constructor; discriminate.
Qed.

Lemma force_failed_unavailable_witness :
  Forall (fun u => force_failed u = true -> available u = false)
    (g_uplinks world_cell_b_failed).
Proof.
  apply force_failed_unavailable.
  exact (reach_step (OpCommand "fail:cell_b" "2.cmd" (env_at T0 0)) world_all_up
           world_all_up_reachable).
Defined.

Lemma identity_evolves u u' : evolves uplink_step u u' -> identity u' = identity u.
Proof.
  induction 1 as [|u u1 u2 H IH Hs]; [reflexivity|].
  rewrite <- IH. apply (uplink_step_fields u1 u2 Hs).
Qed.

Lemma identity_reachable (w : world) :
  reachable w -> map identity (g_uplinks w) = map identity init_uplinks.
Proof.
  intros Hr. pose proof (reachable_evolves w Hr) as H.
  induction H as [|u0 u l0 l Hu H IH]; [reflexivity|].
  cbn [map]. rewrite IH. rewrite (identity_evolves u0 u Hu). reflexivity.
Qed.

(** X2. The identity of the uplinks is fixed by [uplinks_init]: in every
    reachable state the array has its six entries and each has the name,
    interface, namespace, veth device, id, type and carrier it was given at
    startup. *)
Theorem uplink_identity_fixed (w : world) :
  reachable w ->
  map identity (g_uplinks w) = map identity init_uplinks.
Proof. apply identity_reachable. Qed.

Lemma uplink_identity_fixed_witness :
  map identity (g_uplinks world_cell_b_failed) = map identity init_uplinks.
Proof.
  apply uplink_identity_fixed.
  exact (reach_step (OpCommand "fail:cell_b" "2.cmd" (env_at T0 0)) world_all_up
           world_all_up_reachable).
Defined.

Lemma eta_reachable (w : world) :
  reachable w -> Forall (fun u => obstruction_eta (starlink u) = 0) (g_uplinks w).
Proof.
  apply (step_invariant (fun u => obstruction_eta (starlink u) = 0)).
  - intros u u' H E. rewrite <- E. apply (uplink_step_fields u u' H).
  - repeat constructor.
Qed.

(** X3. No code path assigns [starlink.obstruction_eta]: it is 0 in every
    reachable state.  The tripwire therefore reports STARLINK_OBSTR for an
    uplink of the array only when [obstructed] is set; the
    [0 < obstruction_eta < 5] test never decides. *)
Theorem obstruction_eta_never_set (w : world) :
  reachable w ->
  forall i u, g_uplinks w !! i = Some u ->
    obstruction_eta (starlink u) = 0
    /\ forall cfg, tripwire_check cfg (Some u) = TRIGGER_STARLINK_OBSTR ->
                   obstructed (starlink u) = true.
Proof.
  intros Hr i u Hu.
  pose proof (eta_reachable w Hr) as H.
  rewrite Forall_lookup in H. specialize (H i u Hu). split; [exact H|].
  intros cfg Ht. pose proof (tripwire_check_sound cfg (Some u)) as Hs.
  rewrite Ht in Hs. inversion Hs as [| | | | |? _ _ _ _ _ [_ [Ho|Ho]]|]; subst.
  - exact Ho.
  - cbn in H. lia.
Qed.

Lemma obstruction_eta_never_set_witness :
  obstruction_eta (starlink (uplink_at world_all_up UPLINK_SL_A)) = 0.
Proof.
  assert (H : g_uplinks world_all_up !! UPLINK_SL_A
              = Some (uplink_at world_all_up UPLINK_SL_A))
    by (vm_compute; reflexivity).
  exact (proj1 (obstruction_eta_never_set world_all_up world_all_up_reachable
                  UPLINK_SL_A (uplink_at world_all_up UPLINK_SL_A) H)).
Defined.

(** ** Operator commands *)

Lemma veth_never_vip (w : world) (i : nat) :
  reachable w -> find_gw VIP_DEVS VIP_GWS (veth (uplink_at w i)) = None.
Proof.
  intros Hr. pose proof (identity_reachable w Hr) as H.
  assert (E : veth (uplink_at w i) = veth (default uplink_zero (init_uplinks !! i))).
  { unfold uplink_at.
    assert (E1 : identity <$> (g_uplinks w !! i) = identity <$> (init_uplinks !! i)).
    { rewrite <- !list_lookup_fmap.
      change (identity <$> g_uplinks w) with (map identity (g_uplinks w)).
      rewrite H. reflexivity. }
    destruct (g_uplinks w !! i) as [u|], (init_uplinks !! i) as [u0|];
      cbn in E1; try discriminate; [|reflexivity].
    injection E1 as E1. unfold identity in E1. cbn. congruence. }
  rewrite E. do 6 (destruct i as [|i]; [reflexivity|]). reflexivity.
Qed.

(** X4. The [mode:mirror] command never installs duplication: it passes the
    veth device of the second uplink to [dup_enable], [dup_enable] looks the
    device up among the [vip_*] devices and finds no gateway.  In every
    reachable state the command sets the mode to MIRROR, logs
    [dup_enable_fail] and leaves the duplication state as it was. *)
Theorem mirror_never_duplicates (w : world) (cmd_id : string) (e : env) :
  reachable w ->
  let w' := process_one_command "mode:mirror" cmd_id e w in
  mode (g_status w') = MODE_MIRROR
  /\ dup_state w' = dup_state w
  /\ g_log w' = "cmd_result" :: "mode_change" :: "dup_enable_fail" :: g_log w
  /\ g_last_cmd_result w' = "exec".
Proof.
  intros Hr w'. subst w'.
  pose proof (veth_never_vip w 1 Hr) as Hv.
  unfold process_one_command. cbn [starts_with prefix after].
  change (String.eqb (after 5 "mode:mirror") "training") with false.
  change (String.eqb (after 5 "mode:mirror") "tripwire") with false.
  change (String.eqb (after 5 "mode:mirror") "mirror") with true.
  cbv iota zeta beta.
  change (if starts_with "mode:" "mode:mirror" then ?a else ?b) with a.
  cbv beta zeta.
  unfold dup_enable.
  change (uplink_at (upd_status (set_mode MODE_MIRROR) (set_g_last_cmd_id (truncate 63 cmd_id) w)) 1)
    with (uplink_at w 1).
  rewrite Hv. cbn. auto.
Qed.

Lemma mirror_never_duplicates_witness :
  dup_state (process_one_command "mode:mirror" "2.cmd" (env_at T0 0) world_cell_a_down)
  = dup_state world_cell_a_down.
Proof.
  refine (proj1 (proj2 (mirror_never_duplicates world_cell_a_down "2.cmd"
                          (env_at T0 0) _))).
  apply (main_iteration_reachable 100000 (0, 0, main_startup (Some file_defaults))).
  apply reach_startup.
Defined.

Lemma command_result r d x :
  g_last_cmd_result (log_event "cmd_result" (cmd_done r d x)) = r.
Proof. reflexivity. Qed.

(** X5. A command whose result is [fail] (an unknown command, or an unknown
    uplink name after [force:], [enable:], [disable:], [fail:] or
    [unfail:]) changes nothing but the last-command triple and the log:
    status, uplinks and duplication rule are as before, and the id kept is
    the first 63 characters of the command's id. *)
Theorem failed_command_changes_nothing (cmd cmd_id : string) (e : env) (w : world) :
  g_last_cmd_result (process_one_command cmd cmd_id e w) = "fail" ->
  let w' := process_one_command cmd cmd_id e w in
  g_status w' = g_status w
  /\ g_uplinks w' = g_uplinks w
  /\ dup_table w' = dup_table w
  /\ g_log w' = "cmd_result" :: g_log w
  /\ g_last_cmd_id w' = truncate 63 cmd_id.
Proof.
  cbv zeta. unfold process_one_command, named_uplink_cmd.
  destruct (starts_with "mode:" cmd);
    [rewrite command_result; discriminate|].
  destruct (starts_with "force:" cmd).
  { destruct (String.eqb _ "auto"); [rewrite command_result; discriminate|].
    destruct (find_name _ _ _); [rewrite command_result; discriminate|].
    intros _. repeat split; reflexivity. }
  destruct (String.eqb cmd "trigger"); [rewrite command_result; discriminate|].
  destruct (starts_with "c8000:" cmd); [rewrite command_result; discriminate|].
  destruct (starts_with "enable:" cmd).
  { destruct (find_name _ _ _); [rewrite command_result; discriminate|].
    intros _. repeat split; reflexivity. }
  destruct (starts_with "disable:" cmd).
  { destruct (find_name _ _ _); [rewrite command_result; discriminate|].
    intros _. repeat split; reflexivity. }
  destruct (starts_with "fail:" cmd).
  { destruct (find_name _ _ _); [rewrite command_result; discriminate|].
    intros _. repeat split; reflexivity. }
  destruct (starts_with "unfail:" cmd).
  { destruct (find_name _ _ _); [rewrite command_result; discriminate|].
    intros _. repeat split; reflexivity. }
  intros _. repeat split; reflexivity.
Qed.

Lemma failed_command_changes_nothing_witness :
  g_status (process_one_command "force:cell_c" "2.cmd" (env_at T0 0) world_all_up)
  = g_status world_all_up.
Proof.
  refine (proj1 (failed_command_changes_nothing "force:cell_c" "2.cmd" (env_at T0 0)
                   world_all_up _)).
  vm_compute. reflexivity.
Defined.

(** ** The active uplink changes only on a verified switch *)

Lemma sig_execute_switch_failed target verify t w :
  verify <> 0 -> act_sig (execute_switch target verify t w) = act_sig w.
Proof. intros H. rewrite execute_switch_failed by assumption. reflexivity. Qed.

Lemma sig_arbitrate_switch_failed elapsed_ms verify t_sw w :
  verify <> 0 -> act_sig (arbitrate_switch elapsed_ms verify t_sw w) = act_sig w.
Proof.
  intros H. unfold arbitrate_switch. break_ifs; try reflexivity.
  cbv zeta. rewrite <- (sig_execute_switch_failed (select_best_uplink w) verify t_sw w H).
  reflexivity.
Qed.

Lemma sig_slowpath_arbitrate_failed now verify t_sw w :
  verify <> 0 -> act_sig (slowpath_arbitrate now verify t_sw w) = act_sig w.
Proof.
  intros H. unfold slowpath_arbitrate.
  destruct (settle_gate_cases now w) as [(w1 & -> & ->)|(w1 & -> & [->| ->])].
  - reflexivity.
  - apply sig_arbitrate_switch_failed, H.
  - rewrite sig_arbitrate_switch_failed by assumption. reflexivity.
Qed.

Lemma sig_state_machine_failed e w :
  env_verify e <> 0 -> act_sig (state_machine e w) = act_sig w.
Proof.
  intros H. unfold state_machine. destruct (mode_eqb _ _); [reflexivity|].
  destruct (state (g_status w)).
  - destruct (tripwire_check _ _); try reflexivity; apply sig_tripwire_fire.
  - destruct (tripwire_check _ _); try reflexivity; apply sig_tripwire_fire.
  - rewrite sig_protection_tick. apply sig_slowpath_arbitrate_failed, H.
  - apply sig_protection_tick.
  - apply sig_protection_tick.
Qed.

Lemma sig_named_uplink_cmd uplink key event f w :
  (forall u, is_active (f u) = is_active u) ->
  act_sig (named_uplink_cmd uplink key event f w) = act_sig w.
Proof.
  intros Hf. unfold named_uplink_cmd.
  destruct (find_name _ _ _) as [i|]; [|reflexivity].
  rewrite <- (sig_upd_uplink i f w Hf). reflexivity.
Qed.

Lemma sig_process_one_command_failed cmd cmd_id e w :
  env_verify e <> 0 -> act_sig (process_one_command cmd cmd_id e w) = act_sig w.
Proof.
  intros H. unfold process_one_command.
  change (act_sig w) with (act_sig (set_g_last_cmd_id (truncate 63 cmd_id) w)).
  generalize (set_g_last_cmd_id (truncate 63 cmd_id) w). clear w. intros w.
  destruct (starts_with "mode:" cmd).
  { destruct (String.eqb _ "training"); [reflexivity|].
    destruct (String.eqb _ "tripwire"); [reflexivity|].
    destruct (String.eqb _ "mirror"); [|reflexivity].
    exact (sig_dup_enable "br-lan" _ (env_t_dup e)
             (upd_status (set_mode MODE_MIRROR) w)). }
  destruct (starts_with "force:" cmd).
  { destruct (String.eqb _ "auto").
    - cbv zeta. destruct (negb _); [|reflexivity].
      exact (sig_execute_switch_failed _ (env_verify e) (env_t_sw e)
               (upd_status _ w) H).
    - destruct (find_name _ _ _) as [i|]; [|reflexivity].
      cbv zeta.
      change (act_sig (log_event "cmd_result" (cmd_done "exec" ?d (upd_status ?f ?x))))
        with (act_sig x).
      rewrite sig_execute_switch_failed by assumption.
      apply sig_upd_uplink. reflexivity. }
  destruct (String.eqb cmd "trigger").
  { cbv zeta. exact (sig_tripwire_fire TRIGGER_MANUAL "operator" _ _ w). }
  destruct (starts_with "c8000:" cmd).
  { unfold c8000_switch. cbn. destruct (env_c8000_ret e =? 0); reflexivity. }
  change (act_sig (log_event "cmd_result" ?x)) with (act_sig x).
  destruct (starts_with "enable:" cmd);
    [apply sig_named_uplink_cmd; reflexivity|].
  destruct (starts_with "disable:" cmd);
    [apply sig_named_uplink_cmd; reflexivity|].
  destruct (starts_with "fail:" cmd);
    [apply sig_named_uplink_cmd; reflexivity|].
  destruct (starts_with "unfail:" cmd);
    [apply sig_named_uplink_cmd; reflexivity|].
  reflexivity.
Qed.

(** X6. Whatever the loop does, [active_uplink] and the [is_active] flags
    change only in a pass of the state machine or in a command during which
    the route verification of [execute_switch] succeeded. *)
Theorem active_changes_only_when_verified (o : op) (w : world) :
  (active_uplink (g_status (run_op o w)) <> active_uplink (g_status w)
   \/ map is_active (g_uplinks (run_op o w)) <> map is_active (g_uplinks w)) ->
  exists e,
    (o = OpStateMachine e \/ exists cmd cmd_id, o = OpCommand cmd cmd_id e)
    /\ env_verify e = 0.
Proof.
  intros Hch.
  assert (Hsig : act_sig (run_op o w) <> act_sig w).
  { unfold act_sig. intros E. injection E as E1 E2. destruct Hch; congruence. }
  destruct o as [file|p i| |e|cmd cmd_id e]; cbn [run_op] in Hsig.
  - exfalso. apply Hsig, sig_chaos_read.
  - exfalso. apply Hsig, sig_uplink_poll.
  - exfalso. apply Hsig, sig_prediction_tick.
  - exists e. split; [left; reflexivity|].
    destruct (Z.eq_dec (env_verify e) 0) as [E|E]; [exact E|].
    exfalso. apply Hsig, sig_state_machine_failed, E.
  - exists e. split; [right; eauto|].
    destruct (Z.eq_dec (env_verify e) 0) as [E|E]; [exact E|].
    exfalso. apply Hsig, sig_process_one_command_failed, E.
Qed.

Lemma active_changes_only_when_verified_witness :
  exists e,
    (OpCommand "force:cell_b" "2.cmd" (env_at T0 0) = OpStateMachine e
     \/ exists cmd cmd_id,
          OpCommand "force:cell_b" "2.cmd" (env_at T0 0) = OpCommand cmd cmd_id e)
    /\ env_verify e = 0.
Proof.
  apply (active_changes_only_when_verified
           (OpCommand "force:cell_b" "2.cmd" (env_at T0 0)) world_all_up).
  left. vm_compute. discriminate.
Defined.

(** ** The operator's lock *)

Lemma select_best_locked w :
  force_locked (g_status w) = true -> select_best_uplink w = active_uplink (g_status w).
Proof. intros H. unfold select_best_uplink. rewrite H. reflexivity. Qed.

Lemma arbitrate_switch_locked elapsed_ms verify t_sw w :
  force_locked (g_status w) = true ->
  act_sig (arbitrate_switch elapsed_ms verify t_sw w) = act_sig w
  /\ force_locked (g_status (arbitrate_switch elapsed_ms verify t_sw w)) = true.
Proof.
  intros H. unfold arbitrate_switch.
  destruct (elapsed_ms <? _); [split; [reflexivity|exact H]|].
  destruct (_ >=? 3); [split; [reflexivity|exact H]|].
  cbv zeta. rewrite (select_best_locked w H), Nat.eqb_refl.
  split; [reflexivity|exact H].
Qed.

(** X7. While [force_locked] is set the state machine never moves the
    traffic: whatever the tripwire, the scores and the result of a route
    verification, a pass leaves [active_uplink] and every [is_active] flag
    as they were. *)
Theorem force_lock_pins_active (e : env) (w : world) :
  force_locked (g_status w) = true ->
  active_uplink (g_status (state_machine e w)) = active_uplink (g_status w)
  /\ map is_active (g_uplinks (state_machine e w)) = map is_active (g_uplinks w)
  /\ force_locked (g_status (state_machine e w)) = true.
Proof.
  intros H.
  assert (Hs : act_sig (state_machine e w) = act_sig w
               /\ force_locked (g_status (state_machine e w)) = true).
  { unfold state_machine. destruct (mode_eqb _ _); [auto|].
    assert (Hp : forall now x, force_locked (g_status (protection_tick now x))
                             = force_locked (g_status x))
      by (intros; unfold protection_tick; break_ifs; reflexivity).
    assert (Hf : forall r d t1 t2 x, force_locked (g_status (tripwire_fire r d t1 t2 x))
                                   = force_locked (g_status x)).
    { intros. unfold tripwire_fire, dup_enable.
      destruct (negb _); [destruct (find_gw _ _ _)|]; reflexivity. }
    destruct (state (g_status w)).
    - destruct (tripwire_check _ _); auto; rewrite sig_tripwire_fire, Hf; auto.
    - destruct (tripwire_check _ _); auto; rewrite sig_tripwire_fire, Hf; auto.
    - rewrite sig_protection_tick, Hp. unfold slowpath_arbitrate.
      destruct (settle_gate_cases (env_now e) w) as [(w1 & -> & ->)|(w1 & -> & [->| ->])].
      + auto.
      + exact (arbitrate_switch_locked
                 (Z.quot (env_now e - protect_start_us (g_status w)) 1000)
                 (env_verify e) (env_t_sw e) w H).
      + set (w1 := log_event "dup_engaged" _).
        assert (H1 : force_locked (g_status w1) = true) by exact H.
        destruct (arbitrate_switch_locked
                    (Z.quot (env_now e - protect_start_us (g_status w)) 1000)
                    (env_verify e) (env_t_sw e) w1 H1) as [E El].
        split; [rewrite E; reflexivity|exact El].
    - rewrite sig_protection_tick, Hp. auto.
    - rewrite sig_protection_tick, Hp. auto. }
  destruct Hs as [Hs Hl]. unfold act_sig in Hs.
  pose proof (f_equal fst Hs) as E1. pose proof (f_equal snd Hs) as E2.
  cbn [fst snd] in E1, E2. auto.
Qed.

Lemma force_lock_pins_active_witness :
  active_uplink (g_status (state_machine (env_at (T0 + 700000) 0) world_forced))
  = active_uplink (g_status world_forced).
Proof.
  refine (proj1 (force_lock_pins_active (env_at (T0 + 700000) 0) world_forced _)).
  vm_compute. reflexivity.
Defined.

(** ** Commands that name an uplink *)

(** X8. A [force:<name>] command for a known uplink whose route
    verification fails still sets [force_locked]: the uplink is marked
    available and not failed, the command reports [exec], the active uplink
    and the [is_active] flags stay as they were, and automatic switching is
    suppressed from then on. *)
Theorem force_locks_without_switch (name : string) (i : nat) (cmd_id : string)
    (e : env) (w : world) :
  find_name UPLINK_NAMES 0 name = Some i ->
  env_verify e <> 0 ->
  let w' := process_one_command ("force:" ++ name) cmd_id e w in
  force_locked (g_status w') = true
  /\ active_uplink (g_status w') = active_uplink (g_status w)
  /\ map is_active (g_uplinks w') = map is_active (g_uplinks w)
  /\ g_last_cmd_result w' = "exec"
  /\ g_uplinks w' = alter (fun u => set_available true (set_force_failed false u)) i
                      (g_uplinks w)
  /\ In "switch_fail" (g_log w').
Proof.
  intros Hi Hv w'. subst w'. rewrite (process_force_named name i cmd_id e w Hi).
  rewrite execute_switch_failed by assumption. cbn.
  rewrite map_alter_keep by reflexivity. auto 10.
Qed.

Lemma force_locks_without_switch_witness :
  force_locked (g_status (process_one_command ("force:" ++ "sl_a") "2.cmd"
                            (env_at T0 1) world_all_up)) = true
  /\ active_uplink (g_status (process_one_command ("force:" ++ "sl_a") "2.cmd"
                                (env_at T0 1) world_all_up))
     = active_uplink (g_status world_all_up).
Proof.
  assert (Hi : find_name UPLINK_NAMES 0 "sl_a" = Some UPLINK_SL_A) by reflexivity.
  assert (Hv : env_verify (env_at T0 1) <> 0) by discriminate.
  destruct (force_locks_without_switch "sl_a" UPLINK_SL_A "2.cmd" (env_at T0 1)
              world_all_up Hi Hv) as (H1 & H2 & _).
  split; [exact H1|exact H2].
Defined.

Lemma process_fail_named (name : string) cmd_id e w :
  process_one_command ("fail:" ++ name) cmd_id e w
  = log_event "cmd_result"
      (named_uplink_cmd name "fail=" "uplink_force_fail"
         (fun u => set_consec_fail 10 (set_force_failed true (set_available false u)))
         (set_g_last_cmd_id (truncate 63 cmd_id) w)).
Proof.
  unfold process_one_command.
  change (starts_with "mode:" ("fail:" ++ name)) with false.
  change (starts_with "force:" ("fail:" ++ name)) with false.
  change (String.eqb ("fail:" ++ name) "trigger") with false.
  change (starts_with "c8000:" ("fail:" ++ name)) with false.
  change (starts_with "enable:" ("fail:" ++ name)) with false.
  change (starts_with "disable:" ("fail:" ++ name)) with false.
  rewrite (starts_with_app "fail:" name).
  change (after 5 ("fail:" ++ name)) with (after (String.length "fail:") ("fail:" ++ name)).
  rewrite after_app. reflexivity.
Qed.

Lemma process_unfail_named (name : string) cmd_id e w :
  process_one_command ("unfail:" ++ name) cmd_id e w
  = log_event "cmd_result"
      (named_uplink_cmd name "unfail=" "uplink_unfail"
         (fun u => set_consec_fail 0 (set_available true (set_force_failed false u)))
         (set_g_last_cmd_id (truncate 63 cmd_id) w)).
Proof.
  unfold process_one_command.
  change (starts_with "mode:" ("unfail:" ++ name)) with false.
  change (starts_with "force:" ("unfail:" ++ name)) with false.
  change (String.eqb ("unfail:" ++ name) "trigger") with false.
  change (starts_with "c8000:" ("unfail:" ++ name)) with false.
  change (starts_with "enable:" ("unfail:" ++ name)) with false.
  change (starts_with "disable:" ("unfail:" ++ name)) with false.
  change (starts_with "fail:" ("unfail:" ++ name)) with false.
  rewrite (starts_with_app "unfail:" name).
  change (after 7 ("unfail:" ++ name))
    with (after (String.length "unfail:") ("unfail:" ++ name)).
  rewrite after_app. reflexivity.
Qed.

(** X9. An uplink failed by [fail:<name>] stays down until a command brings
    it back: after the command, through any sequence of polls, chaos
    reads, prediction ticks and passes of the state machine, it is
    [force_failed] and unavailable, however its probes go. *)
Theorem failed_uplink_stays_down (name : string) (i : nat) (cmd_id : string)
    (e : env) (ops : list op) (w : world) :
  reachable w ->
  find_name UPLINK_NAMES 0 name = Some i ->
  forallb (fun o => negb (is_command o)) ops = true ->
  let w' := run_ops ops (process_one_command ("fail:" ++ name) cmd_id e w) in
  exists u, g_uplinks w' !! i = Some u
            /\ force_failed u = true /\ available u = false.
Proof.
  intros Hr Hi Hops w'. subst w'.
  pose proof (reachable_length w Hr) as Hlen.
  pose proof (find_name_lt _ _ _ _ Hi) as Hlt. cbn in Hlt.
  destruct (lookup_lt_is_Some_2 (g_uplinks w) i) as [u0 Hu0];
    [rewrite Hlen; unfold UPLINK_COUNT; lia|].
  set (w1 := process_one_command ("fail:" ++ name) cmd_id e w).
  assert (H1 : g_uplinks w1 !! i
               = Some (set_consec_fail 10
                         (set_force_failed true (set_available false u0)))).
  { subst w1. rewrite process_fail_named. unfold named_uplink_cmd. rewrite Hi.
    cbn. rewrite list_lookup_alter_eq, Hu0. reflexivity. }
  pose proof (follows_auto_ops ops w1 Hops) as Hf. unfold follows in Hf.
  destruct (Forall2_lookup_l _ _ _ _ _ Hf H1) as (u & Hu & Hev).
  exists u. split; [exact Hu|].
  apply (evolves_keeps auto_step
           (fun x => force_failed x = true /\ available x = false) _ u
           auto_step_failed Hev).
  split; reflexivity.
Qed.

Lemma failed_uplink_stays_down_witness :
  exists u,
    g_uplinks (run_ops [OpPoll (poll_ok (T0 + 100000) 30%Q) UPLINK_CELL_B]
                 (process_one_command ("fail:" ++ "cell_b") "2.cmd" (env_at T0 0)
                    world_all_up)) !! UPLINK_CELL_B = Some u
    /\ force_failed u = true /\ available u = false.
Proof.
  exact (failed_uplink_stays_down "cell_b" UPLINK_CELL_B "2.cmd" (env_at T0 0)
           [OpPoll (poll_ok (T0 + 100000) 30%Q) UPLINK_CELL_B] world_all_up
           world_all_up_reachable eq_refl eq_refl).
Defined.

(** X10. [fail:<name>] followed by [unfail:<name>] does not restore the
    uplink's earlier availability: whatever it was, the uplink comes out
    available, not failed and with [consec_fail = 0]; the other uplinks and
    the status are untouched. *)
Theorem fail_then_unfail (name : string) (i : nat) (id1 id2 : string)
    (e1 e2 : env) (w : world) :
  find_name UPLINK_NAMES 0 name = Some i ->
  let w' := process_one_command ("unfail:" ++ name) id2 e2
              (process_one_command ("fail:" ++ name) id1 e1 w) in
  g_status w' = g_status w
  /\ g_uplinks w'
     = alter (fun u => set_consec_fail 0 (set_available true (set_force_failed false u)))
         i (g_uplinks w)
  /\ forall u, g_uplinks w' !! i = Some u ->
       available u = true /\ force_failed u = false /\ consec_fail u = 0.
Proof.
  intros Hi w'. subst w'.
  rewrite process_unfail_named, process_fail_named. unfold named_uplink_cmd.
  rewrite Hi. cbn.
  assert (E : alter (fun u => set_consec_fail 0 (set_available true (set_force_failed false u)))
                i (alter (fun u => set_consec_fail 10
                                     (set_force_failed true (set_available false u)))
                     i (g_uplinks w))
              = alter (fun u => set_consec_fail 0
                                  (set_available true (set_force_failed false u)))
                  i (g_uplinks w)).
  { rewrite list_alter_alter_eq. apply list_alter_ext; [|reflexivity].
    intros u _. reflexivity. }
  rewrite E. split; [reflexivity|]. split; [reflexivity|].
  intros u Hu. rewrite list_lookup_alter_eq in Hu.
  destruct (g_uplinks w !! i) as [u0|]; [|discriminate].
  cbn in Hu. injection Hu as <-. auto.
Qed.

Lemma fail_then_unfail_witness :
  g_status (process_one_command ("unfail:" ++ "cell_b") "3.cmd" (env_at T0 0)
              (process_one_command ("fail:" ++ "cell_b") "2.cmd" (env_at T0 0)
                 world_no_peer))
  = g_status world_no_peer.
Proof.
  exact (proj1 (fail_then_unfail "cell_b" UPLINK_CELL_B "2.cmd" "3.cmd"
                  (env_at T0 0) (env_at T0 0) world_no_peer eq_refl)).
Defined.

(** ** Probing *)

Lemma probe_run_snoc ps p u :
  probe_run (ps ++ [p]) u = uplink_probe p (probe_run ps u).
Proof. unfold probe_run. rewrite fold_left_app. reflexivity. Qed.

(** X11. Failed probes add up and take the uplink down at the sixth: after
    a run of [n] probes that all fail, [consec_fail] has grown by [n]; the
    uplink is unavailable once [consec_fail] exceeds 5, and its
    availability is untouched before that. *)
Theorem failures_take_uplink_down (ps : list poll_in) (u : uplink_t) :
  Forall (fun p => Qgtb (pi_rtt p) 0 = false) ps ->
  0 <= consec_fail u ->
  let u' := probe_run ps u in
  consec_fail u' = consec_fail u + Z.of_nat (length ps)
  /\ (ps <> [] -> 5 < consec_fail u' -> available u' = false)
  /\ (consec_fail u' <= 5 -> available u' = available u).
Proof.
  intros Hps Hc. cbv zeta.
  induction ps as [|p ps IH] using rev_ind.
  - cbn. split; [lia|]. split; [congruence|reflexivity].
  - apply Forall_app in Hps as [Hps Hp]. inversion Hp as [|? ? Hfail _]; subst.
    specialize (IH Hps). destruct IH as (IH1 & IH2 & IH3).
    rewrite probe_run_snoc.
    pose proof (uplink_probe_health p (probe_run ps u)) as H. cbv zeta in H.
    destruct H as (_ & _ & _ & _ & _ & H1 & H2).
    rewrite H1, H2, Hfail, IH1, length_app. cbn [length].
    split; [lia|]. split.
    + intros _ Hgt. destruct (Z.gtb_spec (consec_fail u + Z.of_nat (length ps) + 1) 5);
        [reflexivity|lia].
    + intros Hle. destruct (Z.gtb_spec (consec_fail u + Z.of_nat (length ps) + 1) 5);
        [lia|]. apply IH3. lia.
Qed.

Lemma failures_take_uplink_down_witness :
  available (probe_run (replicate 6 (poll_fail T0)) (uplink_at world_all_up UPLINK_CELL_A))
  = false.
Proof.
  assert (Hps : Forall (fun p => Qgtb (pi_rtt p) 0 = false) (replicate 6 (poll_fail T0)))
    by (repeat constructor).
  assert (Hc : 0 <= consec_fail (uplink_at world_all_up UPLINK_CELL_A))
    by (vm_compute; discriminate).
  destruct (failures_take_uplink_down (replicate 6 (poll_fail T0))
              (uplink_at world_all_up UPLINK_CELL_A) Hps Hc) as (H1 & H2 & _).
  apply H2; [discriminate|].
  rewrite H1. vm_compute. reflexivity.
Defined.

Lemma uplink_probe_history p u :
  history (uplink_probe p u)
  = <[Z.to_nat (Z.rem (history_idx u) HISTORY_SIZE) :=
        mk_probe (pi_rtt p + chaos_rtt u + jitter_term (chaos_jitter u) (pi_rand1 p))%Q
                 (Qgtb (pi_rtt p) 0) (pi_start p)]> (history u)
  /\ history_idx (uplink_probe p u) = history_idx u + 1.
Proof.
  rewrite uplink_probe_stages.
  pose proof (probe_loss_fields (probe_metrics p (probe_record p u))) as HL.
  pose proof (probe_metrics_fields p (probe_record p u)) as HM.
  cbv zeta in HL, HM.
  destruct HL as (_ & _ & _ & _ & _ & _ & _ & L1 & L2 & _).
  destruct HM as (_ & _ & _ & M1 & M2 & _).
  rewrite L1, L2, M1, M2. split; reflexivity.
Qed.

Lemma rem_slot_neq (k n : Z) :
  0 <= k -> k < n -> n < k + HISTORY_SIZE ->
  Z.to_nat (Z.rem k HISTORY_SIZE) <> Z.to_nat (Z.rem n HISTORY_SIZE).
Proof.
  unfold HISTORY_SIZE. intros Hk Hkn Hn.
  rewrite !Z.rem_mod_nonneg by lia.
  pose proof (Z.mod_pos_bound k 100 ltac:(lia)).
  pose proof (Z.mod_pos_bound n 100 ltac:(lia)).
  pose proof (Z.div_mod k 100 ltac:(lia)).
  pose proof (Z.div_mod n 100 ltac:(lia)).
  intros E. apply Z2Nat.inj in E; lia.
Qed.

(** X12. The history is a ring of the last 100 probes: after a run of
    probes on an uplink that starts with an empty history, [history_idx]
    counts the probes, the ring keeps its 100 slots, and each of the last
    100 probes (the [k]-th of the run, counted from 0) is found in slot
    [k % 100] with its start time and its success flag. *)
Theorem history_keeps_last_probes (ps : list poll_in) (u : uplink_t) :
  history_idx u = 0 ->
  length (history u) = Z.to_nat HISTORY_SIZE ->
  let u' := probe_run ps u in
  history_idx u' = Z.of_nat (length ps)
  /\ length (history u') = Z.to_nat HISTORY_SIZE
  /\ forall (k : nat) (p : poll_in),
       ps !! k = Some p ->
       Z.of_nat (length ps) <= Z.of_nat k + HISTORY_SIZE ->
       p_timestamp_us (hist_at u' (Z.rem (Z.of_nat k) HISTORY_SIZE)) = pi_start p
       /\ p_success (hist_at u' (Z.rem (Z.of_nat k) HISTORY_SIZE))
          = Qgtb (pi_rtt p) 0.
Proof.
  intros H0 Hlen. cbv zeta.
  induction ps as [|q ps IH] using rev_ind.
  - cbn. split; [exact H0|]. split; [exact Hlen|]. intros k p Hk. discriminate.
  - destruct IH as (IH1 & IH2 & IH3).
    rewrite probe_run_snoc.
    destruct (uplink_probe_history q (probe_run ps u)) as [Hh Hi].
    rewrite Hi, IH1, length_app. cbn [length].
    split; [lia|]. split; [rewrite Hh, length_insert; exact IH2|].
    intros k p Hk Hb. unfold hist_at. rewrite Hh, IH1.
    destruct (decide (k = length ps)) as [->|Hne].
    + rewrite list_lookup_insert_eq.
      * rewrite lookup_app_r in Hk by lia.
        replace (length ps - length ps)%nat with 0%nat in Hk by lia.
        cbn in Hk. inversion Hk; subst. split; reflexivity.
      * rewrite IH2. unfold HISTORY_SIZE.
        rewrite Z.rem_mod_nonneg by lia.
        pose proof (Z.mod_pos_bound (Z.of_nat (length ps)) 100 ltac:(lia)). lia.
    + assert (Hlt : (k < length ps)%nat).
      { apply lookup_lt_Some in Hk. rewrite length_app in Hk. cbn in Hk. lia. }
      rewrite lookup_app_l in Hk by exact Hlt.
      rewrite list_lookup_insert_ne.
      * apply IH3; [exact Hk|]. unfold HISTORY_SIZE in *. lia.
      * intros E. symmetry in E. revert E.
        apply rem_slot_neq; unfold HISTORY_SIZE in *; lia.
Qed.

Lemma history_keeps_last_probes_witness :
  p_timestamp_us
    (hist_at (probe_run [poll_fail T0; poll_ok (T0 + 1) 40]
                (uplink_at (main_startup (Some file_defaults)) UPLINK_CELL_A)) 1)
  = T0 + 1.
Proof.
  assert (H0 : history_idx (uplink_at (main_startup (Some file_defaults)) UPLINK_CELL_A) = 0)
    by (vm_compute; reflexivity).
  assert (Hl : length (history (uplink_at (main_startup (Some file_defaults)) UPLINK_CELL_A))
               = Z.to_nat HISTORY_SIZE)
    by (vm_compute; reflexivity).
  destruct (history_keeps_last_probes [poll_fail T0; poll_ok (T0 + 1) 40]
              (uplink_at (main_startup (Some file_defaults)) UPLINK_CELL_A) H0 Hl)
    as (_ & _ & H).
  destruct (H 1%nat (poll_ok (T0 + 1) 40) eq_refl ltac:(vm_compute; discriminate)) as [Ht _].
  exact Ht.
Defined.

Lemma uplink_probe_baseline p u :
  rtt_baseline (uplink_probe p u)
  = if Qgtb (pi_rtt p) 0
    then if Qeq_bool (rtt_baseline u) 0
         then pi_rtt p
         else (rtt_baseline u * (95 # 100) + pi_rtt p * (5 # 100))%Q
    else rtt_baseline u.
Proof.
  rewrite uplink_probe_stages.
  pose proof (probe_loss_fields (probe_metrics p (probe_record p u))) as HL.
  cbv zeta in HL. destruct HL as (_ & _ & _ & _ & _ & _ & L & _). rewrite L.
  unfold probe_metrics. destruct (Qgtb (pi_rtt p) 0); cbv zeta.
  - change (force_failed (set_rtt_ms ?x ?y)) with (force_failed y).
    change (force_failed (probe_record p u)) with (force_failed u).
    destruct (force_failed u); cbv iota beta; cbn [negb];
      change (rtt_baseline (set_consec_fail ?a (set_rtt_ms ?b (probe_record p u))))
        with (rtt_baseline u);
      change (rtt_baseline (set_consec_fail ?a (set_available ?c (set_rtt_ms ?b (probe_record p u)))))
        with (rtt_baseline u);
      destruct (Qeq_bool (rtt_baseline u) 0); reflexivity.
  - change (consec_fail (set_consec_fail ?x ?y)) with x.
    destruct (_ >? 5); reflexivity.
Qed.

(** X13. The RTT baseline is initialised by the first probe that succeeds:
    probes that fail leave it as it is, and the first successful probe
    that finds it at 0, its value at startup, stores the round-trip time
    it measured, as measured (the average with weight 0.05 starts at the
    next successful probe). *)
Theorem baseline_first_success (ps : list poll_in) (p : poll_in) (u : uplink_t) :
  Forall (fun q => (pi_rtt q <= 0)%Q) ps ->
  rtt_baseline (probe_run ps u) = rtt_baseline u
  /\ ((0 < pi_rtt p)%Q -> (rtt_baseline u == 0)%Q ->
      rtt_baseline (probe_run (ps ++ [p]) u) = pi_rtt p).
Proof.
  intros Hps.
  assert (Hkeep : rtt_baseline (probe_run ps u) = rtt_baseline u).
  { induction ps as [|q ps IH] using rev_ind; [reflexivity|].
    apply Forall_app in Hps as [Hps Hq]. inversion Hq as [|? ? Hle _]; subst.
    rewrite probe_run_snoc, uplink_probe_baseline.
    apply Qgtb_false in Hle. rewrite Hle. apply IH, Hps. }
  split; [exact Hkeep|].
  intros Hp H0.
  rewrite probe_run_snoc, uplink_probe_baseline, Hkeep.
  apply Qgtb_true in Hp. rewrite Hp.
  apply Qeq_bool_iff in H0. rewrite H0. reflexivity.
Qed.

Lemma baseline_first_success_witness :
  rtt_baseline
    (probe_run ([poll_fail T0; poll_fail (T0 + 1)] ++ [poll_ok (T0 + 2) 40])
       (uplink_at (main_startup (Some file_defaults)) UPLINK_CELL_A))
  = 40%Q.
Proof.
  assert (Hps : Forall (fun q => (pi_rtt q <= 0)%Q) [poll_fail T0; poll_fail (T0 + 1)])
    by (repeat constructor; discriminate).
  destruct (baseline_first_success [poll_fail T0; poll_fail (T0 + 1)]
              (poll_ok (T0 + 2) 40)
              (uplink_at (main_startup (Some file_defaults)) UPLINK_CELL_A) Hps)
    as [_ H].
  apply H; [reflexivity|vm_compute; reflexivity].
Defined.

(** The bounds every uplink record keeps. *)
Lemma uplink_step_bounds u u' :
  uplink_step u u' ->
  (length (history u) = Z.to_nat HISTORY_SIZE /\ 0 <= history_idx u
   /\ 0 <= consec_fail u) ->
  (length (history u') = Z.to_nat HISTORY_SIZE /\ 0 <= history_idx u'
   /\ 0 <= consec_fail u').
Proof.
  intros [H|H] (Hl & Hi & Hc).
  - destruct H as [u|e u|p u Hen|r s u Hen|out u Hen|u Hen|b u].
    + repeat split; assumption.
    + destruct e as [[[r|] [j|] [l|]]|]; repeat split; assumption.
    + destruct (uplink_probe_history p u) as [Hh Hi'].
      pose proof (uplink_probe_health p u) as HH. cbv zeta in HH.
      destruct HH as (_ & _ & _ & _ & _ & HC & _).
      rewrite Hh, Hi', HC, length_insert.
      split; [exact Hl|]. split; [lia|].
      destruct (Qgtb (pi_rtt p) 0); lia.
    + repeat split; assumption.
    + destruct out as [[[?|] [?|] [?|] [?|] [?|]]|]; repeat split; assumption.
    + unfold risk_update. repeat split; assumption.
    + repeat split; assumption.
  - destruct H; cbn; repeat split; try assumption; lia.
Qed.

(** X14. In every state the daemon reaches, each uplink's history ring has
    its 100 slots, its write index and its failure count are not negative,
    and the slot the next probe writes, [history_idx % 100], lies inside
    the ring. *)
Theorem uplink_bounds (w : world) :
  reachable w ->
  Forall (fun u =>
            length (history u) = Z.to_nat HISTORY_SIZE
            /\ 0 <= history_idx u
            /\ 0 <= consec_fail u
            /\ (Z.to_nat (Z.rem (history_idx u) HISTORY_SIZE) < length (history u))%nat)
         (g_uplinks w).
Proof.
  intros Hr.
  assert (H : Forall (fun u =>
                        length (history u) = Z.to_nat HISTORY_SIZE
                        /\ 0 <= history_idx u
                        /\ 0 <= consec_fail u)
                     (g_uplinks w)).
  { revert w Hr. apply step_invariant.
    - exact uplink_step_bounds.
    - vm_compute. repeat constructor; discriminate. }
  eapply Forall_impl; [exact H|].
  intros u (Hl & Hi & Hc). cbv beta.
  split; [exact Hl|]. split; [exact Hi|]. split; [exact Hc|].
  rewrite Hl. unfold HISTORY_SIZE.
  pose proof (Z.rem_bound_pos (history_idx u) 100 Hi ltac:(lia)). lia.
Qed.

(** The theorem in the state after an iteration that read a chaos file
    injecting loss and probed every uplink, for [cell_a]: its write index
    is 1 and the next slot is slot 1. *)
Lemma uplink_bounds_witness :
  length (history (uplink_at world_chaos_polled UPLINK_CELL_A)) = 100%nat
  /\ history_idx (uplink_at world_chaos_polled UPLINK_CELL_A) = 1
  /\ (Z.to_nat (Z.rem (history_idx (uplink_at world_chaos_polled UPLINK_CELL_A))
                   HISTORY_SIZE)
      < length (history (uplink_at world_chaos_polled UPLINK_CELL_A)))%nat.
Proof.
  assert (Hr : reachable world_chaos_polled).
  { apply (main_iteration_reachable 100000 (0, 0, main_startup (Some file_defaults))).
    apply reach_startup. }
  pose proof (uplink_bounds world_chaos_polled Hr) as H.
  assert (Hu : g_uplinks world_chaos_polled !! UPLINK_CELL_A
               = Some (uplink_at world_chaos_polled UPLINK_CELL_A))
    by (vm_compute; reflexivity).
  destruct (proj1 (Forall_lookup _ _) H _ _ Hu) as (Hl & _ & _ & Hs).
  split; [rewrite Hl; reflexivity|]. split; [vm_compute; reflexivity|exact Hs].
Defined.

(** ** Chaos injection and signal polling *)

Lemma chaos_apply_absorbs e e' u :
  chaos_apply e (chaos_reset (chaos_apply e' (chaos_reset u)))
  = chaos_apply e (chaos_reset u).
Proof.
  destruct u, e' as [[[r'|] [j'|] [l'|]]|]; reflexivity.
Qed.

Lemma chaos_reset_apply e u :
  chaos_reset (chaos_apply e (chaos_reset u)) = chaos_reset u.
Proof.
  destruct u, e as [[[r|] [j|] [l|]]|]; reflexivity.
Qed.

(** X15. A readable chaos file replaces every earlier injection: reading
    a file after any earlier read gives the state that reading it alone
    gives.  A read, of a file that can be opened or not, writes nothing
    but the fields [chaos_rtt], [chaos_jitter] and [chaos_loss] of the
    uplinks: with these three set to 0 the uplinks are what they were, and
    the rest of the state is untouched. *)
Theorem chaos_file_replaces (f : chaos_file) (g : option chaos_file) (w : world) :
  length (g_uplinks w) = UPLINK_COUNT ->
  chaos_read (Some f) (chaos_read g w) = chaos_read (Some f) w
  /\ map chaos_reset (g_uplinks (chaos_read g w)) = map chaos_reset (g_uplinks w)
  /\ set_g_uplinks [] (chaos_read g w) = set_g_uplinks [] w.
Proof.
  intros Hlen. destruct w as [cfg ups st dup lg c1 c2 c3 pa pb].
  cbn [g_uplinks] in Hlen.
  destruct ups as [|u0 [|u1 [|u2 [|u3 [|u4 [|u5 [|u6 ups]]]]]]]; try discriminate.
  clear Hlen.
  destruct g as [g|]; [|repeat split; reflexivity].
  unfold chaos_read, upd_uplink, set_g_uplinks. cbn.
  split; [rewrite !chaos_apply_absorbs; reflexivity|].
  split; [|reflexivity].
  rewrite !chaos_reset_apply. reflexivity.
Qed.

(** The theorem for [chaos_loss_and_rtt] read after [chaos_negative_loss]:
    the loss of -50 injected on [cell_a] by the earlier file is gone, the
    later file's 30 is in its place, and [cell_b] has its 50 ms. *)
Lemma chaos_file_replaces_witness :
  let w := chaos_read (Some chaos_loss_and_rtt)
             (chaos_read (Some chaos_negative_loss) world_all_up) in
  chaos_loss (uplink_at (chaos_read (Some chaos_negative_loss) world_all_up)
                UPLINK_CELL_A) = (-50)%Q
  /\ chaos_loss (uplink_at w UPLINK_CELL_A) = 30%Q
  /\ chaos_rtt (uplink_at w UPLINK_CELL_B) = 50%Q
  /\ rtt_ms (uplink_at w UPLINK_CELL_B) = rtt_ms (uplink_at world_all_up UPLINK_CELL_B)
  /\ g_status w = g_status world_all_up.
Proof.
  assert (Hlen : length (g_uplinks world_all_up) = UPLINK_COUNT)
    by (vm_compute; reflexivity).
  destruct (chaos_file_replaces chaos_loss_and_rtt (Some chaos_negative_loss)
              world_all_up Hlen) as (H1 & _ & _).
  cbv zeta. rewrite H1.
  split; [vm_compute; reflexivity|]. split; [vm_compute; reflexivity|].
  split; [vm_compute; reflexivity|]. split; vm_compute; reflexivity.
Defined.

(** X16. The modem is asked for its signal at most once in five seconds:
    after a poll that passed the rate limit at time [now], a further poll
    of the same uplink less than 5 seconds later changes nothing, whatever
    the modem would have answered; this holds also when the first poll
    could not run the helper. *)
Theorem cellular_poll_rate_limit
    (now now' : Z) (out out' : option cell_reading) (i : nat) (w : world) :
  5 <= now - (if (u_id (uplink_at w i) =? UPLINK_CELL_A)%nat
              then last_poll_cell_a w else last_poll_cell_b w) ->
  now' - now < 5 ->
  cellular_poll now' out' i (cellular_poll now out i w)
  = cellular_poll now out i w.
Proof.
  intros Hfirst Hsecond.
  assert (Hid : u_id (uplink_at (cellular_poll now out i w) i) = u_id (uplink_at w i)).
  { unfold cellular_poll.
    destruct (_ <? 5); [reflexivity|].
    destruct out as [r|].
    - unfold uplink_at, upd_uplink. cbn [g_uplinks set_g_uplinks].
      destruct (u_id _ =? _)%nat; cbn [g_uplinks set_last_poll_cell_a set_last_poll_cell_b];
        rewrite list_lookup_alter_eq;
        destruct (g_uplinks w !! i); reflexivity.
    - destruct (u_id _ =? _)%nat; reflexivity. }
  unfold cellular_poll at 1. cbv zeta. rewrite Hid.
  assert (Hlast : (if (u_id (uplink_at w i) =? UPLINK_CELL_A)%nat
                   then last_poll_cell_a (cellular_poll now out i w)
                   else last_poll_cell_b (cellular_poll now out i w)) = now).
  { unfold cellular_poll. cbv zeta.
    destruct (Z.ltb_spec (now - (if (u_id (uplink_at w i) =? UPLINK_CELL_A)%nat
                                 then last_poll_cell_a w else last_poll_cell_b w)) 5);
      [lia|].
    destruct (u_id (uplink_at w i) =? UPLINK_CELL_A)%nat; destruct out; reflexivity. }
  rewrite Hlast.
  destruct (Z.ltb_spec (now' - now) 5); [reflexivity|lia].
Qed.

Lemma cellular_poll_rate_limit_witness :
  cellular_poll (T0 + 4) (Some (mk_cell_reading (Some 1%Q) (Some (-120)%Q))) UPLINK_CELL_B
    (cellular_poll T0 None UPLINK_CELL_B world_all_up)
  = cellular_poll T0 None UPLINK_CELL_B world_all_up.
Proof.
  apply cellular_poll_rate_limit; vm_compute; [discriminate|reflexivity].
Defined.

(** ** Risk prediction *)

Lemma risk_update_capped u : (risk_now (risk_update u) <= 1)%Q.
Proof.
  unfold risk_update. cbv zeta. cbn [risk_now set_risk_now].
  match goal with |- ((if Qgtb ?r 1 then _ else _) <= _)%Q =>
    destruct (Qgtb r 1) eqn:E; [discriminate|apply Qgtb_false; exact E] end.
Qed.

Lemma risk_update_fields u :
  enabled (risk_update u) = enabled u /\ is_active (risk_update u) = is_active u.
Proof. split; reflexivity. Qed.

Lemma max_active_risk_spec (ups : list uplink_t) (m : Q) :
  (m <= max_active_risk ups m)%Q
  /\ Forall (fun u => enabled u = true -> is_active u = true ->
                      (risk_now u <= max_active_risk ups m)%Q) ups
  /\ (forall b : Q, (m <= b)%Q ->
        Forall (fun u => enabled u = true -> (risk_now u <= b)%Q) ups ->
        (max_active_risk ups m <= b)%Q).
Proof.
  revert m. induction ups as [|u ups IH]; intros m.
  - cbn. split; [apply Qle_refl|]. split; [constructor|]. intros b Hb _. exact Hb.
  - unfold max_active_risk. cbn [fold_left].
    fold (max_active_risk ups
            (if enabled u && is_active u && Qgtb (risk_now u) m then risk_now u else m)).
    set (m' := if enabled u && is_active u && Qgtb (risk_now u) m then risk_now u else m).
    destruct (IH m') as (I1 & I2 & I3).
    assert (Hm : (m <= m')%Q).
    { subst m'. destruct (enabled u && is_active u && Qgtb (risk_now u) m) eqn:E;
        [|apply Qle_refl].
      apply andb_true_iff in E as [_ E]. apply Qgtb_true in E.
      apply Qlt_le_weak. exact E. }
    split; [eapply Qle_trans; [exact Hm|exact I1]|]. split.
    + constructor; [|exact I2].
      intros He Ha. eapply Qle_trans; [|exact I1].
      subst m'. rewrite He, Ha. cbn [andb].
      destruct (Qgtb (risk_now u) m) eqn:E; [apply Qle_refl|].
      apply Qgtb_false. exact E.
    + intros b Hb Hall. inversion Hall as [|? ? Hu Hups]; subst.
      apply I3; [|exact Hups].
      subst m'. destruct (enabled u && is_active u && Qgtb (risk_now u) m) eqn:E;
        [|exact Hb].
      apply andb_true_iff in E as [E _]. apply andb_true_iff in E as [E _].
      apply Hu. exact E.
Qed.

Lemma prediction_tick_risk w :
  global_risk (g_status (prediction_tick w))
  = max_active_risk (g_uplinks (prediction_tick w)) 0.
Proof. reflexivity. Qed.

Lemma prediction_tick_uplinks w :
  g_uplinks (prediction_tick w)
  = map (fun u => if enabled u then risk_update u else u) (g_uplinks w).
Proof. reflexivity. Qed.

Lemma prediction_risk_upper (w : world) :
  (0 <= global_risk (g_status (prediction_tick w)))%Q
  /\ (global_risk (g_status (prediction_tick w)) <= 1)%Q
  /\ Forall (fun u => enabled u = true -> is_active u = true ->
                      (risk_now u <= global_risk (g_status (prediction_tick w)))%Q)
            (g_uplinks (prediction_tick w)).
Proof.
  rewrite prediction_tick_risk.
  destruct (max_active_risk_spec (g_uplinks (prediction_tick w)) 0) as (H1 & H2 & H3).
  split; [exact H1|]. split; [|exact H2].
  apply H3; [discriminate|].
  rewrite prediction_tick_uplinks. apply Forall_map.
  apply Forall_forall. intros u _.
  destruct (enabled u) eqn:E.
  - intros _. apply risk_update_capped.
  - rewrite E. discriminate.
Qed.


Lemma risk_update_failing u :
  5 < consec_fail u ->
  (u_type u = UPLINK_TYPE_STARLINK -> (0 <= obstruction_pct (starlink u))%Q) ->
  (risk_now (risk_update u) == 1)%Q.
Proof.
  intros Hc Ho. unfold risk_update. cbv zeta. cbn [risk_now set_risk_now].
  destruct (Z.gtb_spec (consec_fail u) 0); [|lia].
  destruct (Z.gtb_spec (consec_fail u) 5); [|lia].
  set (r1 := if Qgtb (rtt_ms u) _ then _ else _).
  assert (H1 : (0 <= r1)%Q) by (subst r1; destruct (Qgtb (rtt_ms u) _); lra).
  clearbody r1.
  set (r2 := if Qgtb (loss_pct u) 50 then _ else _).
  assert (H2 : (r1 <= r2)%Q).
  { subst r2. destruct (Qgtb _ 50); [lra|].
    destruct (Qgtb _ 20); [lra|]. destruct (Qgtb _ 5); lra. }
  clearbody r2.
  set (r3 := (r2 + (2 # 10) * inject_Z 5)%Q).
  assert (H3 : (1 <= r3)%Q) by (subst r3; change (inject_Z 5) with 5%Q; lra).
  clearbody r3.
  set (r4 := if type_eqb (u_type u) UPLINK_TYPE_STARLINK then _ else _).
  assert (H4 : (r3 <= r4)%Q).
  { subst r4. destruct (u_type u) eqn:E; cbn [type_eqb]; try lra.
    specialize (Ho eq_refl). lra. }
  clearbody r4.
  set (r5 := if type_eqb (u_type u) UPLINK_TYPE_LTE && _ then _ else _).
  assert (H5 : (r4 <= r5)%Q) by (subst r5; destruct (_ && _); lra).
  clearbody r5.
  destruct (Qgtb r5 1) eqn:E; [reflexivity|].
  apply Qgtb_false in E. lra.
Qed.

(** X18. A dead active uplink always gets the PROTECT recommendation: if an
    enabled, active uplink has failed more than five probes in a row (and,
    for a Starlink uplink, its obstruction percentage is not negative),
    the prediction pass gives it the risk 1, which is then the global
    risk, and recommends PROTECT. *)
Theorem dead_active_uplink_recommends_protect (w : world) (i : nat) (u : uplink_t) :
  g_uplinks w !! i = Some u ->
  enabled u = true -> is_active u = true ->
  5 < consec_fail u ->
  (u_type u = UPLINK_TYPE_STARLINK -> (0 <= obstruction_pct (starlink u))%Q) ->
  (risk_now (uplink_at (prediction_tick w) i) == 1)%Q
  /\ (global_risk (g_status (prediction_tick w)) == 1)%Q
  /\ recommendation (g_status (prediction_tick w)) = "PROTECT".
Proof.
  intros Hi He Ha Hc Ho.
  assert (Hu : g_uplinks (prediction_tick w) !! i = Some (risk_update u)).
  { rewrite prediction_tick_uplinks, list_lookup_fmap, Hi. cbn. rewrite He. reflexivity. }
  pose proof (risk_update_failing u Hc Ho) as Hr.
  destruct (prediction_risk_upper w) as (_ & Hle & Hall).
  assert (Hg : (global_risk (g_status (prediction_tick w)) == 1)%Q).
  { apply Qle_antisym; [exact Hle|].
    rewrite <- Hr.
    exact (proj1 (Forall_lookup _ _) Hall i (risk_update u) Hu He Ha). }
  unfold uplink_at. rewrite Hu. cbn [default].
  split; [exact Hr|]. split; [exact Hg|].
  change (recommendation (g_status (prediction_tick w)))
    with (if Qgeb (global_risk (g_status (prediction_tick w))) (7 # 10) then "PROTECT"
          else if Qgeb (global_risk (g_status (prediction_tick w))) (4 # 10)
               then "PREPARE" else "NORMAL").
  assert (E : Qgeb (global_risk (g_status (prediction_tick w))) (7 # 10) = true).
  { unfold Qgeb. apply Qle_bool_iff. rewrite Hg. discriminate. }
  rewrite E. reflexivity.
Qed.

Lemma dead_active_uplink_recommends_protect_witness :
  recommendation
    (g_status (prediction_tick
                 (upd_uplink UPLINK_CELL_A (set_consec_fail 6) world_all_up)))
  = "PROTECT".
Proof.
  assert (Hi : g_uplinks (upd_uplink UPLINK_CELL_A (set_consec_fail 6) world_all_up)
               !! UPLINK_CELL_A
               = Some (set_consec_fail 6 (uplink_at world_all_up UPLINK_CELL_A)))
    by (vm_compute; reflexivity).
  refine (proj2 (proj2 (dead_active_uplink_recommends_protect _ _ _ Hi _ _ _ _)));
    vm_compute; try reflexivity; discriminate.
Defined.

(** ** Leaving protection *)

(** X19. Protection never ends early.  Whenever [protection_tick] changes
    the state, the new state is NORMAL and all of this held: the minimum
    hold time since the tripwire fired has passed, the active uplink is
    clean at this tick (no failed probe, RTT less than 30 ms over the
    baseline, loss under 2%), and it was already clean at an earlier tick
    at least [clean_exit_sec] seconds ago (or [clean_exit_sec] is not
    positive).  On the way out the trigger is cleared and duplication is
    switched off, except in MIRROR mode, where it is left as it is. *)
Theorem protection_never_ends_early (now : Z) (w : world) :
  state (g_status (protection_tick now w)) <> state (g_status w) ->
  let a := uplink_at w (active_uplink (g_status w)) in
  let w' := protection_tick now w in
  state (g_status w') = STATE_NORMAL
  /\ min_hold_sec (g_config w)
     <= Z.quot (now - protect_start_us (g_status w)) 1000000
  /\ consec_fail a = 0
  /\ (rtt_ms a < rtt_baseline a + 30)%Q
  /\ (loss_pct a < 2)%Q
  /\ (if last_clean_us (g_status w) =? 0
      then clean_exit_sec (g_config w) <= 0
      else clean_exit_sec (g_config w)
           <= Z.quot (now - last_clean_us (g_status w)) 1000000)
  /\ last_trigger (g_status w') = TRIGGER_NONE
  /\ (if mode_eqb (mode (g_status w)) MODE_MIRROR
      then dup_state w' = dup_state w
      else dup_enabled (g_status w') = false /\ dup_table w' = None).
Proof.
  destruct w as [cfg ups st dup lg c1 c2 c3 pa pb].
  destruct st as [md sta ltr det act fl ac de dat dgt pst sst lcl stw hr cr fs gr rec].
  unfold protection_tick, uplink_at, dup_state.
  cbn -[Z.quot Z.sub Z.ltb Z.geb Z.eqb Qltb Qplus mode_eqb].
  set (a := default uplink_zero (ups !! act)).
  destruct (Z.eqb_spec (consec_fail a) 0) as [Ec|Ec]; cbn [andb];
    [|intros Hx; exfalso; apply Hx; reflexivity].
  destruct (Qltb (rtt_ms a) (rtt_baseline a + 30)) eqn:Er; cbn [andb];
    [|intros Hx; exfalso; apply Hx; reflexivity].
  destruct (Qltb (loss_pct a) 2) eqn:El; [|intros Hx; exfalso; apply Hx; reflexivity].
  apply Qltb_iff in Er. apply Qltb_iff in El.
  destruct (Z.eqb_spec lcl 0) as [E0|E0];
    cbn -[Z.quot Z.sub Z.ltb Z.geb Z.eqb Qltb Qplus mode_eqb].
  - replace (now - now) with 0 by lia. change (Z.quot 0 1000000) with 0.
    destruct (Z.geb_spec (Z.quot (now - pst) 1000000) (min_hold_sec cfg)); cbn [andb];
      [|intros Hx; exfalso; apply Hx; reflexivity].
    destruct (Z.geb_spec 0 (clean_exit_sec cfg));
      [|intros Hx; exfalso; apply Hx; reflexivity].
    intros _. destruct (mode_eqb md MODE_MIRROR); cbn;
      repeat split; try assumption; try lia; reflexivity.
  - destruct (Z.geb_spec (Z.quot (now - pst) 1000000) (min_hold_sec cfg)); cbn [andb];
      [|intros Hx; exfalso; apply Hx; reflexivity].
    destruct (Z.geb_spec (Z.quot (now - lcl) 1000000) (clean_exit_sec cfg));
      [|intros Hx; exfalso; apply Hx; reflexivity].
    intros _. destruct (mode_eqb md MODE_MIRROR); cbn;
      repeat split; try assumption; try lia; reflexivity.
Qed.

Lemma protection_never_ends_early_witness :
  state (g_status (protection_tick (T0 + 10000000) world_protected_clean))
  = STATE_NORMAL
  /\ dup_table (protection_tick (T0 + 10000000) world_protected_clean) = None.
Proof.
  assert (H : state (g_status (protection_tick (T0 + 10000000) world_protected_clean))
              <> state (g_status world_protected_clean))
    by (vm_compute; discriminate).
  pose proof (protection_never_ends_early (T0 + 10000000) world_protected_clean H) as P.
  cbv zeta in P. destruct P as (P1 & _ & _ & _ & _ & _ & _ & P2).
  split; [exact P1|].
  assert (M : mode_eqb (mode (g_status world_protected_clean)) MODE_MIRROR = false)
    by (vm_compute; reflexivity).
  rewrite M in P2. exact (proj2 P2).
Defined.

(** ** The tripwire *)

Lemma find_gw_vip (s : nat) :
  (s < UPLINK_COUNT)%nat ->
  find_gw VIP_DEVS VIP_GWS (vip_dev s) = VIP_GWS !! s.
Proof.
  unfold UPLINK_COUNT. intros H.
  do 6 (destruct s as [|s]; [reflexivity|]). lia.
Qed.

(** The scan stops at the nearest candidate after the active uplink. *)
Lemma find_secondary_nearest (w : world) (j : nat) :
  (active_uplink (g_status w) < UPLINK_COUNT)%nat ->
  (j < UPLINK_COUNT)%nat -> j <> active_uplink (g_status w) ->
  candb w j = true ->
  find_secondary w <> active_uplink (g_status w)
  /\ ((find_secondary w + UPLINK_COUNT - active_uplink (g_status w)) mod UPLINK_COUNT
      <= (j + UPLINK_COUNT - active_uplink (g_status w)) mod UPLINK_COUNT)%nat.
Proof.
  unfold find_secondary, candb, UPLINK_COUNT. intros Ha Hj Hne Hc.
  destruct (active_uplink (g_status w)) as [|a]; [|
  destruct a as [|a]; [|destruct a as [|a]; [|destruct a as [|a]; [|
  destruct a as [|a]; [|destruct a as [|a]; [|lia]]]]]];
    cbn;
    repeat match goal with
           | |- context [if ?c then _ else _] => destruct c eqn:?
           end;
    (do 6 (destruct j as [|j]; [first [congruence | split; [lia | cbn; lia]]|]); lia).
Qed.

(** X20. When the tripwire fires and some other uplink is enabled and
    available, packets are duplicated to the nearest such uplink after the
    active one in the cyclic order of the uplink array: the rule installed
    goes from the active uplink's VIP device to that peer's gateway and
    device, the duplication is marked enabled at the clock reading of
    [dup_enable] and not yet engaged, and the state is PROTECT. *)
Theorem fire_duplicates_to_nearest_peer (reason : trigger_t) (detail : string)
    (t_dup t_protect : Z) (w : world) (j : nat) :
  (active_uplink (g_status w) < UPLINK_COUNT)%nat ->
  (j < UPLINK_COUNT)%nat -> j <> active_uplink (g_status w) ->
  candb w j = true ->
  let a := active_uplink (g_status w) in
  let s := find_secondary w in
  let w' := tripwire_fire reason detail t_dup t_protect w in
  s <> a /\ (s < UPLINK_COUNT)%nat /\ candb w s = true
  /\ ((s + UPLINK_COUNT - a) mod UPLINK_COUNT
      <= (j + UPLINK_COUNT - a) mod UPLINK_COUNT)%nat
  /\ dup_table w'
     = Some (mk_rule (vip_dev a) (default EmptyString (VIP_GWS !! s)) (vip_dev s))
  /\ dup_enabled (g_status w') = true
  /\ dup_enabled_at_us (g_status w') = t_dup
  /\ dup_engaged_at_us (g_status w') = 0
  /\ state (g_status w') = STATE_PROTECT
  /\ last_trigger (g_status w') = reason
  /\ g_log w' = "tripwire_fire" :: "dup_enable" :: g_log w.
Proof.
  intros Ha Hj Hne Hc. cbv zeta.
  destruct (find_secondary_nearest w j Ha Hj Hne Hc) as [Hs Hn].
  destruct (find_secondary_spec w Ha) as [Hlt Hcand].
  specialize (Hcand Hs).
  split; [exact Hs|]. split; [exact Hlt|]. split; [exact Hcand|]. split; [exact Hn|].
  unfold tripwire_fire. cbv zeta.
  destruct (Nat.eqb_spec (find_secondary w) (active_uplink (g_status w))) as [E|_];
    [contradiction|].
  cbn [negb]. unfold dup_enable. rewrite (find_gw_vip _ Hlt).
  destruct (lookup_lt_is_Some_2 VIP_GWS (find_secondary w)) as [gw Hgw];
    [exact Hlt|].
  rewrite Hgw. cbn. repeat split; reflexivity.
Qed.

Lemma fire_duplicates_to_nearest_peer_witness :
  dup_table (tripwire_fire TRIGGER_PROBE_MISS "probe_miss" T0 T0 world_all_up)
  = Some (mk_rule "vip_cell_a" "10.201.10.22" "vip_cell_b").
Proof.
  assert (Ha : (active_uplink (g_status world_all_up) < UPLINK_COUNT)%nat)
    by (vm_compute; repeat constructor).
  assert (Hj : (UPLINK_FIBER1 < UPLINK_COUNT)%nat) by (vm_compute; repeat constructor).
  assert (Hne : UPLINK_FIBER1 <> active_uplink (g_status world_all_up))
    by (vm_compute; discriminate).
  assert (Hc : candb world_all_up UPLINK_FIBER1 = true) by (vm_compute; reflexivity).
  pose proof (fire_duplicates_to_nearest_peer TRIGGER_PROBE_MISS "probe_miss" T0 T0
                world_all_up UPLINK_FIBER1 Ha Hj Hne Hc) as P.
  cbv zeta in P. destruct P as (_ & _ & _ & _ & P & _).
  assert (Es : find_secondary world_all_up = UPLINK_CELL_B) by (vm_compute; reflexivity).
  assert (Ea : active_uplink (g_status world_all_up) = UPLINK_CELL_A)
    by (vm_compute; reflexivity).
  rewrite Es, Ea in P. exact P.
Defined.

(** X21. The tripwire looks at two thresholds only.  Its verdict depends on
    the configuration through [rtt_step_ms] and [probe_miss_count] alone
    (the RSRP and SINR thresholds and the two window lengths of the
    configuration are never read), and it is never SINR_DROP, PREDICTED or
    MANUAL. *)
Theorem tripwire_reads_two_thresholds (cfg cfg' : config_t) (a : option uplink_t) :
  rtt_step_ms cfg = rtt_step_ms cfg' ->
  probe_miss_count cfg = probe_miss_count cfg' ->
  tripwire_check cfg a = tripwire_check cfg' a
  /\ tripwire_check cfg a <> TRIGGER_SINR_DROP
  /\ tripwire_check cfg a <> TRIGGER_PREDICTED
  /\ tripwire_check cfg a <> TRIGGER_MANUAL.
Proof.
  intros Hr Hp. split.
  - destruct a as [a|]; [|reflexivity].
    unfold tripwire_check, rtt_step_check. rewrite Hr, Hp. reflexivity.
  - destruct a as [a|]; [|repeat split; discriminate].
    unfold tripwire_check. break_ifs; repeat split; discriminate.
Qed.

Lemma tripwire_reads_two_thresholds_witness :
  tripwire_check (mk_config 80 0 2 0 0 0 500 3 2 true true 10)
    (Some uplink_after_glitch)
  = tripwire_check config_defaults (Some uplink_after_glitch).
Proof.
  assert (Hr : rtt_step_ms (mk_config 80 0 2 0 0 0 500 3 2 true true 10)
               = rtt_step_ms config_defaults) by (vm_compute; reflexivity).
  assert (Hp : probe_miss_count (mk_config 80 0 2 0 0 0 500 3 2 true true 10)
               = probe_miss_count config_defaults) by (vm_compute; reflexivity).
  exact (proj1 (tripwire_reads_two_thresholds
                  (mk_config 80 0 2 0 0 0 500 3 2 true true 10)
                  config_defaults (Some uplink_after_glitch) Hr Hp)).
Defined.

(** ** Measurement and control *)

Lemma status_fold_upd (fs : nat -> uplink_t -> uplink_t) (l : list nat) (w : world) :
  g_status (fold_left (fun w i => upd_uplink i (fs i) w) l w) = g_status w
  /\ dup_table (fold_left (fun w i => upd_uplink i (fs i) w) l w) = dup_table w.
Proof.
  revert w. induction l as [|i l IH]; intros w; cbn [fold_left]; [split; reflexivity|].
  destruct (IH (upd_uplink i (fs i) w)) as [H1 H2]. rewrite H1, H2. split; reflexivity.
Qed.

Lemma status_chaos_read file w :
  g_status (chaos_read file w) = g_status w
  /\ dup_table (chaos_read file w) = dup_table w.
Proof.
  unfold chaos_read. destruct file as [entries|]; [|split; reflexivity].
  destruct (status_fold_upd (fun i => chaos_apply (default None (entries !! i)))
              (seq 0 UPLINK_COUNT)
              (set_g_uplinks (map chaos_reset (g_uplinks w)) w)) as [H1 H2].
  rewrite H1, H2. split; reflexivity.
Qed.

Lemma status_cellular_poll now out i w :
  g_status (cellular_poll now out i w) = g_status w
  /\ dup_table (cellular_poll now out i w) = dup_table w.
Proof.
  unfold cellular_poll.
  destruct (now - _ <? 5); [split; reflexivity|].
  destruct out as [r|]; destruct (u_id _ =? _)%nat; split; reflexivity.
Qed.

Lemma status_uplink_poll p i w :
  g_status (uplink_poll p i w) = g_status w
  /\ dup_table (uplink_poll p i w) = dup_table w.
Proof.
  unfold uplink_poll. destruct (negb _); [split; reflexivity|].
  destruct (u_type _).
  - destruct (status_cellular_poll (pi_time p) (pi_cell p) i
                (upd_uplink i (uplink_probe p) w)) as [H1 H2].
    rewrite H1, H2. split; reflexivity.
  - split; reflexivity.
  - split; reflexivity.
Qed.

Lemma control_eq w w' :
  g_status w' = g_status w -> dup_table w' = dup_table w ->
  act_sig w' = act_sig w -> control w' = control w.
Proof.
  unfold control, act_sig. intros H1 H2 H3.
  apply (f_equal fst) in H3. cbn [fst] in H3.
  rewrite H1, H2, H3. reflexivity.
Qed.

(** Chaos, polling and prediction measure; they decide nothing. *)
Lemma control_measurement o w :
  match o with OpChaos _ | OpPoll _ _ | OpPredict => True | _ => False end ->
  control (run_op o w) = control w.
Proof.
  destruct o as [file|p i| |e|cmd cmd_id e]; intros H; try contradiction; cbn [run_op].
  - destruct (status_chaos_read file w) as [H1 H2].
    apply control_eq; [exact H1|exact H2|apply sig_chaos_read].
  - destruct (status_uplink_poll p i w) as [H1 H2].
    apply control_eq; [exact H1|exact H2|apply sig_uplink_poll].
  - pose proof (sig_prediction_tick w) as H3.
    apply (f_equal fst) in H3. unfold act_sig in H3. cbn [fst] in H3.
    unfold control. rewrite H3.
    destruct w as [cfg ups st dup lg c1 c2 c3 pa pb]. destruct st. reflexivity.
Qed.

Lemma control_mode w w' :
  control w' = control w -> mode (g_status w') = mode (g_status w).
Proof.
  unfold control. intros H.
  apply (f_equal (fun c => mode (fst (fst c)))) in H. exact H.
Qed.

(** X22. In TRAINING mode the daemon only observes.  Whatever the chaos
    reads, probes, prediction passes and state-machine passes of the main
    loop (everything but operator commands) and however many, they leave
    the whole of [g_status] apart from the prediction's risk and
    recommendation, the [is_active] flags and the duplication rule as
    they were: no tripwire fires, no switch is made, and a protection
    that was entered by hand is never left. *)
Theorem training_only_observes (ops : list op) (w : world) :
  mode (g_status w) = MODE_TRAINING ->
  forallb (fun o => negb (is_command o)) ops = true ->
  control (run_ops ops w) = control w.
Proof.
  intros Hm Hops. revert w Hm. induction ops as [|o ops IH]; intros w Hm; [reflexivity|].
  cbn [forallb] in Hops. apply andb_true_iff in Hops as [Ho Hops].
  unfold run_ops. cbn [fold_left]. fold (run_ops ops (run_op o w)).
  assert (Hc : control (run_op o w) = control w).
  { destruct o as [file|p i| |e|cmd cmd_id e]; try (apply control_measurement; exact I).
    - cbn [run_op]. unfold state_machine. rewrite Hm. reflexivity.
    - discriminate. }
  rewrite IH; [exact Hc|exact Hops|].
  rewrite (control_mode _ _ Hc). exact Hm.
Qed.

Lemma training_only_observes_witness :
  control (run_ops [OpPoll (poll_fail T0) UPLINK_CELL_A;
                    OpStateMachine (env_at T0 0)] world_training)
  = control world_training.
Proof.
  apply training_only_observes; vm_compute; reflexivity.
Defined.

(** ** Startup *)

Lemma fold_disable (bs : nat -> bool) (l : list nat) (w : world) (i : nat) :
  let w' := fold_left (fun w k => if bs k then upd_uplink k (set_enabled false) w else w)
              l w in
  g_status w' = g_status w /\ dup_table w' = dup_table w
  /\ g_uplinks w' !! i
     = (fun u => if existsb (fun k => (k =? i)%nat && bs k) l
                 then set_enabled false u else u) <$> g_uplinks w !! i.
Proof.
  cbv zeta. revert w. induction l as [|k l IH]; intros w.
  - cbn. split; [reflexivity|]. split; [reflexivity|].
    destruct (g_uplinks w !! i); reflexivity.
  - cbn [fold_left existsb].
    destruct (IH (if bs k then upd_uplink k (set_enabled false) w else w))
      as (I1 & I2 & I3).
    rewrite I1, I2, I3. clear I1 I2 I3 IH.
    destruct (bs k).
    + split; [reflexivity|]. split; [reflexivity|].
      unfold upd_uplink. cbn [g_uplinks set_g_uplinks].
      destruct (Nat.eqb_spec k i) as [->|Hne]; cbn [andb orb].
      * rewrite list_lookup_alter_eq.
        destruct (g_uplinks w !! i); [|reflexivity].
        cbn. destruct (existsb _ l); reflexivity.
      * rewrite list_lookup_alter_ne by exact Hne. reflexivity.
    + split; [reflexivity|]. split; [reflexivity|].
      rewrite andb_false_r. reflexivity.
Qed.

(** X23. How the daemon starts, whatever the configuration file holds:
    no uplink is available before its first successful probe, none is
    failed by the operator, every history is empty, every baseline and
    failure count is 0; uplink 0 ([cell_a]) is the active one and the only
    one flagged active; the mode is TRIPWIRE, the state NORMAL, the lock is
    off and no duplication rule is installed.  When the configuration
    file cannot be opened every uplink starts enabled. *)
Theorem startup_state (file : option config_file) (i : nat) :
  (i < UPLINK_COUNT)%nat ->
  let w := main_startup file in
  let u := uplink_at w i in
  (file = None -> enabled u = true)
  /\ available u = false
  /\ force_failed u = false
  /\ is_active u = (i =? UPLINK_CELL_A)%nat
  /\ history_idx u = 0
  /\ consec_fail u = 0
  /\ rtt_baseline u = 0%Q
  /\ active_uplink (g_status w) = UPLINK_CELL_A
  /\ mode (g_status w) = MODE_TRIPWIRE
  /\ state (g_status w) = STATE_NORMAL
  /\ force_locked (g_status w) = false
  /\ dup_state w = (false, 0, 0, None).
Proof.
  unfold UPLINK_COUNT. intros Hi. cbv zeta.
  destruct file as [f|].
  - split; [discriminate|].
    unfold main_startup, uplink_at, dup_state. cbv zeta.
    set (w0 := uplinks_init (snd (config_load (Some f) world_zero))).
    destruct (fold_disable (fun k => default false (cf_disabled f !! k))
                (seq 0 UPLINK_COUNT) w0 i) as (F1 & F2 & F3).
    cbv zeta in F1, F2, F3.
    cbn [dup_init snd log_event upd_status upd_uplink set_g_uplinks set_g_status
         set_g_log set_dup_table g_uplinks g_status dup_table].
    rewrite F1, F3.
    destruct (existsb _ (seq 0 UPLINK_COUNT)).
    all: assert (H2 : dup_enabled (g_status w0) = false
                 /\ dup_enabled_at_us (g_status w0) = 0
                 /\ dup_engaged_at_us (g_status w0) = 0
                 /\ force_locked (g_status w0) = false
                 /\ active_uplink (g_status w0) = UPLINK_CELL_A)
      by (repeat split; reflexivity).
    all: destruct H2 as (H2 & H3 & H4 & H5 & H6).
    all: change (g_uplinks w0) with init_uplinks.
    all: do 6 (destruct i as [|i];
          [cbn; rewrite ?H2, ?H3, ?H4, ?H5, ?H6; repeat split; reflexivity|]).
    all: lia.
  - split; [intros _|];
      do 6 (destruct i as [|i]; [vm_compute; repeat split; reflexivity|]); lia.
Qed.

(** The theorem for [sl_b] with a file that disables it, and for the same
    uplink when the file cannot be opened. *)
Lemma startup_state_witness :
  enabled (uplink_at (main_startup (Some file_sl_b_disabled)) UPLINK_SL_B) = false
  /\ available (uplink_at (main_startup (Some file_sl_b_disabled)) UPLINK_SL_B) = false
  /\ is_active (uplink_at (main_startup (Some file_sl_b_disabled)) UPLINK_SL_B) = false
  /\ active_uplink (g_status (main_startup (Some file_sl_b_disabled))) = UPLINK_CELL_A
  /\ enabled (uplink_at (main_startup None) UPLINK_SL_B) = true.
Proof.
  assert (Hi : (UPLINK_SL_B < UPLINK_COUNT)%nat) by (vm_compute; repeat constructor).
  pose proof (startup_state (Some file_sl_b_disabled) UPLINK_SL_B Hi) as P.
  pose proof (startup_state None UPLINK_SL_B Hi) as N.
  cbv zeta in P, N.
  destruct P as (_ & P2 & _ & P4 & _ & _ & _ & P8 & _).
  destruct N as (N1 & _).
  split; [vm_compute; reflexivity|]. split; [exact P2|].
  split; [exact P4|]. split; [exact P8|exact (N1 eq_refl)].
Defined.

(** ** Taking the active uplink away *)

Lemma process_disable_named (name : string) cmd_id e w :
  process_one_command ("disable:" ++ name) cmd_id e w
  = log_event "cmd_result"
      (named_uplink_cmd name "disable=" "uplink_disabled" (set_enabled false)
         (set_g_last_cmd_id (truncate 63 cmd_id) w)).
Proof.
  unfold process_one_command.
  change (starts_with "mode:" ("disable:" ++ name)) with false.
  change (starts_with "force:" ("disable:" ++ name)) with false.
  change (String.eqb ("disable:" ++ name) "trigger") with false.
  change (starts_with "c8000:" ("disable:" ++ name)) with false.
  change (starts_with "enable:" ("disable:" ++ name)) with false.
  rewrite (starts_with_app "disable:" name).
  change (after 8 ("disable:" ++ name))
    with (after (String.length "disable:") ("disable:" ++ name)).
  rewrite after_app. reflexivity.
Qed.

(** A state-machine pass over a world whose active uplink is disabled or
    unavailable. *)
Lemma state_machine_link_down e w :
  mode (g_status w) <> MODE_TRAINING ->
  state (g_status w) = STATE_NORMAL \/ state (g_status w) = STATE_PREPARE ->
  enabled (uplink_at w (active_uplink (g_status w)))
  && available (uplink_at w (active_uplink (g_status w))) = false ->
  state (g_status (state_machine e w)) = STATE_PROTECT
  /\ last_trigger (g_status (state_machine e w)) = TRIGGER_LINK_DOWN
  /\ protect_start_us (g_status (state_machine e w)) = env_t_protect e.
Proof.
  intros Hm Hs Hd. unfold state_machine.
  destruct (mode (g_status w)); [contradiction| |]; cbn [mode_eqb].
  - assert (Ht : tripwire_check (g_config w)
                   (Some (uplink_at w (active_uplink (g_status w))))
                 = TRIGGER_LINK_DOWN).
    { unfold tripwire_check.
      destruct (enabled _); destruct (available _); try discriminate; reflexivity. }
    destruct Hs as [Hs|Hs]; rewrite Hs, Ht; repeat split; reflexivity.
  - assert (Ht : tripwire_check (g_config w)
                   (Some (uplink_at w (active_uplink (g_status w))))
                 = TRIGGER_LINK_DOWN).
    { unfold tripwire_check.
      destruct (enabled _); destruct (available _); try discriminate; reflexivity. }
    destruct Hs as [Hs|Hs]; rewrite Hs, Ht; repeat split; reflexivity.
Qed.

(** X24. Taking the active uplink away starts protection.  In a state the
    daemon can reach that is NORMAL (or PREPARE) and not in TRAINING mode,
    after the operator disables or fails the active uplink by name, the
    next pass of the state machine fires the tripwire with LINK_DOWN: the
    state becomes PROTECT and the protection clock starts at that pass. *)
Theorem removing_active_uplink_fires (c n : string) (i : nat) (cmd_id : string)
    (e e' : env) (w : world) :
  reachable w ->
  c = "disable:" \/ c = "fail:" ->
  find_name UPLINK_NAMES 0 n = Some i ->
  i = active_uplink (g_status w) ->
  mode (g_status w) <> MODE_TRAINING ->
  state (g_status w) = STATE_NORMAL \/ state (g_status w) = STATE_PREPARE ->
  let w' := state_machine e' (process_one_command (c ++ n) cmd_id e w) in
  state (g_status w') = STATE_PROTECT
  /\ last_trigger (g_status w') = TRIGGER_LINK_DOWN
  /\ protect_start_us (g_status w') = env_t_protect e'.
Proof.
  intros Hr Hc Hn Hi Hm Hs. cbv zeta.
  pose proof (find_name_lt _ _ _ _ Hn) as Hlt.
  pose proof (reachable_length w Hr) as Hlen.
  destruct (lookup_lt_is_Some_2 (g_uplinks w) i) as [u Hu].
  { rewrite Hlen. change (length UPLINK_NAMES) with UPLINK_COUNT in Hlt. lia. }
  destruct Hc as [-> | ->].
  - rewrite process_disable_named. unfold named_uplink_cmd. rewrite Hn.
    apply state_machine_link_down; [exact Hm|exact Hs|].
    unfold uplink_at.
    cbn [log_event cmd_done set_g_last_cmd_detail set_g_last_cmd_result set_g_log
         g_status g_uplinks upd_uplink set_g_uplinks set_g_last_cmd_id].
    rewrite <- Hi. rewrite list_lookup_alter_eq, Hu. reflexivity.
  - rewrite process_fail_named. unfold named_uplink_cmd. rewrite Hn.
    apply state_machine_link_down; [exact Hm|exact Hs|].
    unfold uplink_at.
    cbn [log_event cmd_done set_g_last_cmd_detail set_g_last_cmd_result set_g_log
         g_status g_uplinks upd_uplink set_g_uplinks set_g_last_cmd_id].
    rewrite <- Hi. rewrite list_lookup_alter_eq, Hu. cbn. apply andb_false_r.
Qed.

Lemma removing_active_uplink_fires_witness :
  state (g_status (state_machine (env_at (T0 + 100000) 0)
                     (process_one_command ("disable:" ++ "cell_a") "2.cmd"
                        (env_at T0 0) world_all_up)))
  = STATE_PROTECT.
Proof.
  assert (Hn : find_name UPLINK_NAMES 0 "cell_a" = Some UPLINK_CELL_A)
    by (vm_compute; reflexivity).
  assert (Hi : UPLINK_CELL_A = active_uplink (g_status world_all_up))
    by (vm_compute; reflexivity).
  assert (Hm : mode (g_status world_all_up) <> MODE_TRAINING)
    by (vm_compute; discriminate).
  assert (Hs : state (g_status world_all_up) = STATE_NORMAL
               \/ state (g_status world_all_up) = STATE_PREPARE)
    by (left; vm_compute; reflexivity).
  exact (proj1 (removing_active_uplink_fires "disable:" "cell_a" UPLINK_CELL_A "2.cmd"
                  (env_at T0 0) (env_at (T0 + 100000) 0) world_all_up
                  world_all_up_reachable (or_introl eq_refl) Hn Hi Hm Hs)).
Defined.

(** ** When the daemon switches on its own *)

Lemma arbitrate_switch_changed elapsed_ms verify t_sw w :
  act_sig (arbitrate_switch elapsed_ms verify t_sw w) <> act_sig w ->
  preroll_ms (g_config w) <= elapsed_ms
  /\ switches_this_window (g_status w) < 3
  /\ verify = 0
  /\ force_locked (g_status w) = false
  /\ active_uplink (g_status (arbitrate_switch elapsed_ms verify t_sw w))
     = select_best_uplink w
  /\ switches_this_window (g_status (arbitrate_switch elapsed_ms verify t_sw w))
     = switches_this_window (g_status w) + 1
  /\ state (g_status (arbitrate_switch elapsed_ms verify t_sw w)) = STATE_HOLDING.
Proof.
  unfold arbitrate_switch.
  destruct (Z.ltb_spec elapsed_ms (preroll_ms (g_config w))) as [Hp|Hp];
    [intros Hx; exfalso; apply Hx; reflexivity|].
  destruct (Z.geb_spec (switches_this_window (g_status w)) 3) as [Hs|Hs];
    [intros Hx; exfalso; apply Hx; reflexivity|].
  destruct (Nat.eqb_spec (select_best_uplink w) (active_uplink (g_status w))) as [Hb|Hb];
    [intros Hx; exfalso; apply Hx; reflexivity|].
  cbn [negb].
  destruct (Z.eqb_spec verify 0) as [Hv|Hv].
  - intros _. subst verify.
    assert (Hf : force_locked (g_status w) = false).
    { destruct (force_locked (g_status w)) eqn:E; [|reflexivity].
      exfalso. apply Hb. unfold select_best_uplink. rewrite E. reflexivity. }
    repeat split; try assumption; try lia; reflexivity.
  - intros Hx. exfalso. apply Hx.
    rewrite <- (sig_execute_switch_failed (select_best_uplink w) verify t_sw w Hv).
    reflexivity.
Qed.

Lemma slowpath_arbitrate_changed now verify t_sw w :
  act_sig (slowpath_arbitrate now verify t_sw w) <> act_sig w ->
  preroll_ms (g_config w) <= Z.quot (now - protect_start_us (g_status w)) 1000
  /\ switches_this_window (g_status w) < 3
  /\ force_locked (g_status w) = false
  /\ (dup_enabled (g_status w) = true ->
      dup_engaged_at_us (g_status w) <> 0
      \/ DUP_SETTLE_MS <= Z.quot (now - dup_enabled_at_us (g_status w)) 1000)
  /\ verify = 0
  /\ active_uplink (g_status (slowpath_arbitrate now verify t_sw w))
     = select_best_uplink w
  /\ switches_this_window (g_status (slowpath_arbitrate now verify t_sw w))
     = switches_this_window (g_status w) + 1.
Proof.
  unfold slowpath_arbitrate, settle_gate.
  destruct (dup_enabled (g_status w)) eqn:Ed; cbn [andb].
  - destruct (Z.eqb_spec (dup_engaged_at_us (g_status w)) 0) as [Eg|Eg].
    + destruct (Z.geb_spec (Z.quot (now - dup_enabled_at_us (g_status w)) 1000)
                  DUP_SETTLE_MS) as [Ea|Ea];
        [|intros Hx; exfalso; apply Hx; reflexivity].
      set (w1 := log_event "dup_engaged" (upd_status (set_dup_engaged_at_us now) w)).
      intros Hx. change (act_sig w) with (act_sig w1) in Hx.
      apply arbitrate_switch_changed in Hx.
      destruct Hx as (H1 & H2 & H3 & H4 & H5 & H6 & _).
      rewrite H5, H6.
      change (select_best_uplink w1) with (select_best_uplink w).
      repeat split; try assumption; try reflexivity.
      intros _. right. lia.
    + intros Hx. apply arbitrate_switch_changed in Hx.
      destruct Hx as (H1 & H2 & H3 & H4 & H5 & H6 & _).
      rewrite H5, H6. repeat split; try assumption; try reflexivity.
      intros _. left. exact Eg.
  - intros Hx. apply arbitrate_switch_changed in Hx.
    destruct Hx as (H1 & H2 & H3 & H4 & H5 & H6 & _).
    rewrite H5, H6. repeat split; try assumption; try reflexivity.
    discriminate.
Qed.

(** X25. When the daemon changes the active uplink on its own.  If a pass
    of the state machine changes the active uplink or an [is_active] flag,
    then all of this held when the pass began: the mode was not TRAINING
    and the state was PROTECT; the preroll time since the tripwire fired
    had passed; fewer than 3 switches had been made in this window; no
    force lock was set; duplication, if enabled, was engaged or at least
    [DUP_SETTLE_MS] old; and the route verification succeeded.  The new
    active uplink is the one [select_best_uplink] chose, and the switch
    counter has gone up by one. *)
Theorem automatic_switch_conditions (e : env) (w : world) :
  act_sig (state_machine e w) <> act_sig w ->
  mode (g_status w) <> MODE_TRAINING
  /\ state (g_status w) = STATE_PROTECT
  /\ preroll_ms (g_config w)
     <= Z.quot (env_now e - protect_start_us (g_status w)) 1000
  /\ switches_this_window (g_status w) < 3
  /\ force_locked (g_status w) = false
  /\ (dup_enabled (g_status w) = true ->
      dup_engaged_at_us (g_status w) <> 0
      \/ DUP_SETTLE_MS <= Z.quot (env_now e - dup_enabled_at_us (g_status w)) 1000)
  /\ env_verify e = 0
  /\ active_uplink (g_status (state_machine e w)) = select_best_uplink w
  /\ switches_this_window (g_status (state_machine e w))
     = switches_this_window (g_status w) + 1.
Proof.
  intros Hx.
  assert (Hs : mode (g_status w) <> MODE_TRAINING
               /\ state (g_status w) = STATE_PROTECT
               /\ state_machine e w
                  = protection_tick (env_now_prot e)
                      (slowpath_arbitrate (env_now e) (env_verify e) (env_t_sw e) w)).
  { revert Hx. unfold state_machine.
    destruct (mode (g_status w)); cbn [mode_eqb];
      [intros Hx; exfalso; apply Hx; reflexivity| |];
      (destruct (state (g_status w));
       [ destruct (tripwire_check _ _); intros Hx; exfalso; apply Hx;
         try reflexivity; apply sig_tripwire_fire
       | destruct (tripwire_check _ _); intros Hx; exfalso; apply Hx;
         try reflexivity; apply sig_tripwire_fire
       | intros _; repeat split; discriminate
       | intros Hx; exfalso; apply Hx; apply sig_protection_tick
       | intros Hx; exfalso; apply Hx; apply sig_protection_tick ]). }
  destruct Hs as (Hm & Hs & Heq). rewrite Heq in *.
  pose proof (sig_protection_tick (env_now_prot e)
                (slowpath_arbitrate (env_now e) (env_verify e) (env_t_sw e) w)) as Hpt.
  rewrite Hpt in Hx.
  apply (f_equal snd) in Hpt. unfold act_sig in Hpt. cbn [snd] in Hpt.
  rewrite Hpt, protection_tick_counter.
  apply slowpath_arbitrate_changed in Hx.
  destruct Hx as (H1 & H2 & H3 & H4 & H5 & H6 & H7).
  repeat split; assumption.
Qed.

Lemma automatic_switch_conditions_witness :
  active_uplink (g_status (state_machine (env_at (T0 + 700000) 0) world_cell_a_down))
  = select_best_uplink world_cell_a_down.
Proof.
  assert (H : act_sig (state_machine (env_at (T0 + 700000) 0) world_cell_a_down)
              <> act_sig world_cell_a_down)
    by (vm_compute; discriminate).
  pose proof (automatic_switch_conditions (env_at (T0 + 700000) 0) world_cell_a_down H) as P.
  exact (proj1 (proj2 (proj2 (proj2 (proj2 (proj2 (proj2 (proj2 P)))))))).
Defined.

(** Outside PROTECT, no automatic operation switches or re-enters PROTECT
    unless the tripwire fires. *)
Lemma quiet_step o w :
  state (g_status w) <> STATE_PROTECT ->
  is_command o = false ->
  enters_protection o w = false ->
  act_sig (run_op o w) = act_sig w
  /\ switches_this_window (g_status (run_op o w)) = switches_this_window (g_status w)
  /\ state (g_status (run_op o w)) <> STATE_PROTECT.
Proof.
  intros Hs Hc He.
  destruct o as [file|p i| |e|cmd cmd_id e]; cbn [run_op]; try discriminate.
  - rewrite sig_chaos_read, chaos_read_status. auto.
  - rewrite sig_uplink_poll, uplink_poll_status. auto.
  - rewrite sig_prediction_tick. auto.
  - revert He. unfold enters_protection, state_machine.
    destruct (mode_eqb _ _); cbn [negb andb]; [auto|].
    destruct (state (g_status w)) eqn:Es.
    + destruct (tripwire_check _ _); cbn; try discriminate. rewrite Es. auto.
    + destruct (tripwire_check _ _); cbn; try discriminate. rewrite Es. auto.
    + contradiction.
    + intros _. rewrite sig_protection_tick, protection_tick_counter.
      split; [reflexivity|]. split; [reflexivity|].
      destruct (protection_tick_state (env_now_prot e) w) as [H|H];
        rewrite H; [rewrite Es|]; discriminate.
    + intros _. rewrite sig_protection_tick, protection_tick_counter.
      split; [reflexivity|]. split; [reflexivity|].
      destruct (protection_tick_state (env_now_prot e) w) as [H|H];
        rewrite H; [rewrite Es|]; discriminate.
Qed.

Lemma quiet_run ops w :
  state (g_status w) <> STATE_PROTECT ->
  forallb (fun o => negb (is_command o)) ops = true ->
  no_fire ops w = true ->
  act_sig (run_ops ops w) = act_sig w
  /\ switches_this_window (g_status (run_ops ops w)) = switches_this_window (g_status w)
  /\ state (g_status (run_ops ops w)) <> STATE_PROTECT.
Proof.
  revert w. induction ops as [|o ops IH]; intros w Hs Hc Hf; [auto|].
  cbn [forallb no_fire] in Hc, Hf.
  apply andb_true_iff in Hc as [Hc1 Hc2]. apply andb_true_iff in Hf as [Hf1 Hf2].
  apply negb_true_iff in Hc1, Hf1.
  destruct (quiet_step o w Hs Hc1 Hf1) as (Q1 & Q2 & Q3).
  unfold run_ops. cbn [fold_left]. fold (run_ops ops (run_op o w)).
  destruct (IH (run_op o w) Q3 Hc2 Hf2) as (I1 & I2 & I3).
  rewrite I1, I2, Q1, Q2. auto.
Qed.

(** X26. An arbitration that comes too early is never repeated.  If the
    first pass of the state machine in PROTECT runs before the preroll
    time has passed, it makes no switch and leaves PROTECT (for SWITCHING,
    or NORMAL when protection ends at once); from then on neither polls,
    prediction passes nor further passes of the state machine change the
    active uplink or the switch counter, until the tripwire fires again or
    the operator sends a command. *)
Theorem early_arbitration_is_final (e : env) (ops : list op) (w : world) :
  state (g_status w) = STATE_PROTECT ->
  mode (g_status w) <> MODE_TRAINING ->
  Z.quot (env_now e - protect_start_us (g_status w)) 1000 < preroll_ms (g_config w) ->
  forallb (fun o => negb (is_command o)) ops = true ->
  no_fire ops (state_machine e w) = true ->
  let w1 := state_machine e w in
  let w' := run_ops ops w1 in
  state (g_status w1) <> STATE_PROTECT
  /\ act_sig w' = act_sig w
  /\ switches_this_window (g_status w') = switches_this_window (g_status w)
  /\ state (g_status w') <> STATE_PROTECT.
Proof.
  intros Hs Hm Hp Hc Hf. cbv zeta.
  assert (H1 : act_sig (state_machine e w) = act_sig w
               /\ switches_this_window (g_status (state_machine e w))
                  = switches_this_window (g_status w)
               /\ state (g_status (state_machine e w)) <> STATE_PROTECT).
  { unfold state_machine.
    destruct (mode (g_status w)); [contradiction| |]; cbn [mode_eqb]; rewrite Hs;
      rewrite sig_protection_tick, protection_tick_counter;
      (assert (Ha : slowpath_arbitrate (env_now e) (env_verify e) (env_t_sw e) w
                    = upd_status (set_state STATE_SWITCHING) w
                    \/ slowpath_arbitrate (env_now e) (env_verify e) (env_t_sw e) w
                       = upd_status (set_state STATE_SWITCHING)
                           (log_event "dup_engaged"
                              (upd_status (set_dup_engaged_at_us (env_now e)) w)));
       [ unfold slowpath_arbitrate, settle_gate, arbitrate_switch;
         destruct (dup_enabled (g_status w) && _);
         [destruct (_ >=? DUP_SETTLE_MS)|];
         cbn [g_config log_event upd_status set_g_status set_g_log];
         try (destruct (Z.ltb_spec (Z.quot (env_now e - protect_start_us (g_status w)) 1000)
                          (preroll_ms (g_config w))); [|lia]);
         auto
       | destruct (protection_tick_state (env_now_prot e)
                     (slowpath_arbitrate (env_now e) (env_verify e) (env_t_sw e) w))
           as [Hpt|Hpt];
         rewrite Hpt; destruct Ha as [-> | ->];
         repeat split; try reflexivity; discriminate ]). }
  destruct H1 as (S1 & S2 & S3).
  destruct (quiet_run ops (state_machine e w) S3 Hc Hf) as (Q1 & Q2 & Q3).
  rewrite Q1, Q2, S1, S2. auto.
Qed.

Lemma early_arbitration_is_final_witness :
  act_sig (run_ops [OpPoll (poll_fail (T0 + 100000)) UPLINK_CELL_A;
                    OpStateMachine (env_at (T0 + 1000000) 0)]
             (state_machine (env_at (T0 + 10000) 0) world_cell_a_down))
  = act_sig world_cell_a_down.
Proof.
  assert (Hs : state (g_status world_cell_a_down) = STATE_PROTECT)
    by (vm_compute; reflexivity).
  assert (Hm : mode (g_status world_cell_a_down) <> MODE_TRAINING)
    by (vm_compute; discriminate).
  assert (Hp : Z.quot (env_now (env_at (T0 + 10000) 0)
                       - protect_start_us (g_status world_cell_a_down)) 1000
               < preroll_ms (g_config world_cell_a_down))
    by (vm_compute; reflexivity).
  assert (Hf : no_fire [OpPoll (poll_fail (T0 + 100000)) UPLINK_CELL_A;
                        OpStateMachine (env_at (T0 + 1000000) 0)]
                 (state_machine (env_at (T0 + 10000) 0) world_cell_a_down) = true)
    by (vm_compute; reflexivity).
  exact (proj1 (proj2 (early_arbitration_is_final (env_at (T0 + 10000) 0)
                         [OpPoll (poll_fail (T0 + 100000)) UPLINK_CELL_A;
                          OpStateMachine (env_at (T0 + 1000000) 0)]
                         world_cell_a_down Hs Hm Hp eq_refl Hf))).
Defined.

(** X27. Measuring decides nothing.  In any mode and state, chaos reads,
    uplink polls and prediction passes, in any number and order, change
    neither [g_status] (apart from the prediction's risk and
    recommendation) nor an [is_active] flag nor the duplication rule: the
    mode, the state, the trigger, the active uplink, the locks, the clocks
    and the counters of the protection are only ever written by the state
    machine and by operator commands. *)
Theorem measuring_decides_nothing (ops : list op) (w : world) :
  forallb is_measurement ops = true ->
  control (run_ops ops w) = control w.
Proof.
  revert w. induction ops as [|o ops IH]; intros w Hops; [reflexivity|].
  cbn [forallb] in Hops. apply andb_true_iff in Hops as [Ho Hops].
  unfold run_ops. cbn [fold_left]. fold (run_ops ops (run_op o w)).
  rewrite IH by exact Hops.
  apply control_measurement. destruct o; try discriminate; exact I.
Qed.

Lemma measuring_decides_nothing_witness :
  control (run_ops [OpChaos (Some chaos_negative_loss);
                    OpPoll (poll_fail T0) UPLINK_CELL_A; OpPredict] world_protected)
  = control world_protected.
Proof. apply measuring_decides_nothing. reflexivity. Defined.

(** ** Mode commands *)

Lemma process_mode_named (m : string) cmd_id e w :
  process_one_command ("mode:" ++ m) cmd_id e w
  = let w := set_g_last_cmd_id (truncate 63 cmd_id) w in
    let w :=
      if String.eqb m "training" then
        snd (dup_disable (upd_status (set_mode MODE_TRAINING) w))
      else if String.eqb m "tripwire" then
        upd_status (set_mode MODE_TRIPWIRE) w
      else if String.eqb m "mirror" then
        let w := upd_status (set_mode MODE_MIRROR) w in
        snd (dup_enable "br-lan" (veth (uplink_at w 1)) (env_t_dup e) w)
      else w in
    let w := log_event "mode_change" w in
    log_event "cmd_result"
      (cmd_done "exec" ("mode=" ++ MODE_NAMES (mode (g_status w))) w).
Proof.
  unfold process_one_command.
  rewrite (starts_with_app "mode:" m).
  change (after 5 ("mode:" ++ m)) with (after (String.length "mode:") ("mode:" ++ m)).
  rewrite after_app. reflexivity.
Qed.

(** X28. An unknown mode is accepted in silence.  A [mode:] command whose
    argument is none of [training], [tripwire] and [mirror] changes neither
    the mode nor anything else of the status, the uplinks or the
    duplication; yet it is answered with [exec], the detail names the mode
    that is still in force, and a [mode_change] event is logged. *)
Theorem unknown_mode_is_accepted (m cmd_id : string) (e : env) (w : world) :
  m <> "training" -> m <> "tripwire" -> m <> "mirror" ->
  let w' := process_one_command ("mode:" ++ m) cmd_id e w in
  g_status w' = g_status w
  /\ g_uplinks w' = g_uplinks w
  /\ dup_table w' = dup_table w
  /\ g_last_cmd_result w' = "exec"
  /\ g_last_cmd_detail w' = "mode=" ++ MODE_NAMES (mode (g_status w))
  /\ g_log w' = "cmd_result" :: "mode_change" :: g_log w.
Proof.
  intros H1 H2 H3. cbv zeta. rewrite process_mode_named. cbv zeta.
  destruct (String.eqb_spec m "training"); [contradiction|].
  destruct (String.eqb_spec m "tripwire"); [contradiction|].
  destruct (String.eqb_spec m "mirror"); [contradiction|].
  repeat split; try reflexivity.
  cbn. destruct (mode (g_status w)); reflexivity.
Qed.

Lemma unknown_mode_is_accepted_witness :
  g_last_cmd_result
    (process_one_command ("mode:" ++ "Mirror") "3.cmd" (env_at T0 0) world_all_up)
  = "exec"
  /\ mode (g_status
             (process_one_command ("mode:" ++ "Mirror") "3.cmd" (env_at T0 0) world_all_up))
     = MODE_TRIPWIRE.
Proof.
  assert (H1 : "Mirror" <> "training") by discriminate.
  assert (H2 : "Mirror" <> "tripwire") by discriminate.
  assert (H3 : "Mirror" <> "mirror") by discriminate.
  pose proof (unknown_mode_is_accepted "Mirror" "3.cmd" (env_at T0 0) world_all_up
                H1 H2 H3) as P.
  cbv zeta in P. destruct P as (P1 & _ & _ & P2 & _).
  split; [exact P2|]. rewrite P1. vm_compute. reflexivity.
Defined.

(** ** Disabled uplinks *)

Lemma auto_step_disabled u u' :
  auto_step u u' -> enabled u = false -> health u' = health u.
Proof.
  intros H Hd. destruct H as [u|e u|p u Hen|r s u Hen|out u Hen|u Hen|b u];
    try congruence.
  - reflexivity.
  - destruct e as [[[r|] [j|] [l|]]|]; reflexivity.
  - reflexivity.
Qed.

Lemma evolves_disabled u u' :
  evolves auto_step u u' -> enabled u = false -> health u' = health u.
Proof.
  intros H Hd. induction H as [|u u1 u2 H IH H2]; [reflexivity|].
  specialize (IH Hd).
  assert (Hd1 : enabled u1 = false).
  { apply (f_equal (fun h => fst (fst (fst (fst (fst (fst (fst (fst (fst (fst (fst h))))))))))))
      in IH. cbn in IH. congruence. }
  rewrite (auto_step_disabled u1 u2 H2 Hd1). exact IH.
Qed.

Lemma disabled_uplink_frozen (ops : list op) (w : world) (i : nat) (u : uplink_t) :
  g_uplinks w !! i = Some u ->
  enabled u = false ->
  forallb (fun o => negb (is_command o)) ops = true ->
  exists u', g_uplinks (run_ops ops w) !! i = Some u' /\ health u' = health u.
Proof.
  intros Hu Hd Hops.
  pose proof (follows_auto_ops ops w Hops) as Hf. unfold follows in Hf.
  destruct (Forall2_lookup_l _ _ _ _ _ Hf Hu) as (u' & Hu' & Hev).
  exists u'. split; [exact Hu'|]. exact (evolves_disabled u u' Hev Hd).
Qed.

(** X29. A disabled uplink is frozen.  Through any sequence of chaos reads,
    polls, prediction passes and state-machine passes, an uplink that is
    disabled is neither probed nor polled for signal nor scored: it stays
    disabled and keeps its availability, failure count, RTT, baseline,
    loss, history, risk, cellular and Starlink readings exactly as they
    were when it was disabled (only its chaos values and its [is_active]
    flag can change).  In particular an uplink disabled while available
    is still marked available when it is enabled again. *)
Theorem disabled_uplink_is_frozen (ops : list op) (w : world) (i : nat) (u : uplink_t) :
  g_uplinks w !! i = Some u ->
  enabled u = false ->
  forallb (fun o => negb (is_command o)) ops = true ->
  exists u',
    g_uplinks (run_ops ops w) !! i = Some u'
    /\ enabled u' = false
    /\ available u' = available u
    /\ force_failed u' = force_failed u
    /\ consec_fail u' = consec_fail u
    /\ rtt_ms u' = rtt_ms u
    /\ rtt_baseline u' = rtt_baseline u
    /\ loss_pct u' = loss_pct u
    /\ history u' = history u
    /\ history_idx u' = history_idx u
    /\ risk_now u' = risk_now u
    /\ cellular u' = cellular u
    /\ starlink u' = starlink u.
Proof.
  intros Hu Hd Hops.
  destruct (disabled_uplink_frozen ops w i u Hu Hd Hops) as (u' & Hu' & Hh).
  exists u'. split; [exact Hu'|].
  unfold health in Hh. inversion Hh. repeat split; congruence.
Qed.

Lemma disabled_uplink_is_frozen_witness :
  exists u',
    g_uplinks (run_ops [OpPoll (poll_fail (T0 + 100000)) UPLINK_CELL_B; OpPredict]
                 world_cell_b_disabled) !! UPLINK_CELL_B = Some u'
    /\ enabled u' = false
    /\ available u' = true.
Proof.
  assert (Hu : g_uplinks world_cell_b_disabled !! UPLINK_CELL_B
               = Some (uplink_at world_cell_b_disabled UPLINK_CELL_B))
    by (vm_compute; reflexivity).
  assert (Hd : enabled (uplink_at world_cell_b_disabled UPLINK_CELL_B) = false)
    by (vm_compute; reflexivity).
  assert (Ha : available (uplink_at world_cell_b_disabled UPLINK_CELL_B) = true)
    by (vm_compute; reflexivity).
  destruct (disabled_uplink_is_frozen
              [OpPoll (poll_fail (T0 + 100000)) UPLINK_CELL_B; OpPredict]
              world_cell_b_disabled UPLINK_CELL_B _ Hu Hd eq_refl)
    as (u' & H1 & H2 & H3 & _).
  exists u'. split; [exact H1|]. split; [exact H2|]. rewrite H3. exact Ha.
Defined.

Lemma process_enable_named (name : string) cmd_id e w :
  process_one_command ("enable:" ++ name) cmd_id e w
  = log_event "cmd_result"
      (named_uplink_cmd name "enable=" "uplink_enabled" (set_enabled true)
         (set_g_last_cmd_id (truncate 63 cmd_id) w)).
Proof.
  unfold process_one_command.
  change (starts_with "mode:" ("enable:" ++ name)) with false.
  change (starts_with "force:" ("enable:" ++ name)) with false.
  change (String.eqb ("enable:" ++ name) "trigger") with false.
  change (starts_with "c8000:" ("enable:" ++ name)) with false.
  rewrite (starts_with_app "enable:" name).
  change (after 7 ("enable:" ++ name))
    with (after (String.length "enable:") ("enable:" ++ name)).
  rewrite after_app. reflexivity.
Qed.

(** X30. An uplink that is enabled again comes back with the health it had
    when it was disabled.  After [disable:<name>], any sequence of chaos
    reads, polls, prediction passes and state-machine passes, and then
    [enable:<name>], the uplink is enabled and every other health field
    (availability, failure count, RTT, baseline, loss, history, risk,
    signal readings) is what it was before the [disable:], however long
    ago that was and whatever happened to the link meanwhile. *)
Theorem reenabled_uplink_is_stale (name : string) (i : nat) (id1 id2 : string)
    (e1 e2 : env) (ops : list op) (w : world) (u : uplink_t) :
  find_name UPLINK_NAMES 0 name = Some i ->
  g_uplinks w !! i = Some u ->
  forallb (fun o => negb (is_command o)) ops = true ->
  let w' := process_one_command ("enable:" ++ name) id2 e2
              (run_ops ops (process_one_command ("disable:" ++ name) id1 e1 w)) in
  exists u', g_uplinks w' !! i = Some u'
             /\ health u' = health (set_enabled true u).
Proof.
  intros Hi Hu Hops. cbv zeta.
  set (w1 := process_one_command ("disable:" ++ name) id1 e1 w).
  assert (H1 : g_uplinks w1 !! i = Some (set_enabled false u)).
  { subst w1. rewrite process_disable_named. unfold named_uplink_cmd. rewrite Hi.
    cbn. rewrite list_lookup_alter_eq, Hu. reflexivity. }
  destruct (disabled_uplink_frozen ops w1 i (set_enabled false u) H1 eq_refl Hops)
    as (u1 & Hu1 & Hh).
  exists (set_enabled true u1). split.
  - rewrite process_enable_named. unfold named_uplink_cmd. rewrite Hi.
    cbn. rewrite list_lookup_alter_eq, Hu1. reflexivity.
  - destruct u1, u. unfold health in *. cbn in *. congruence.
Qed.

Lemma reenabled_uplink_is_stale_witness :
  exists u',
    g_uplinks
      (process_one_command ("enable:" ++ "cell_b") "3.cmd" (env_at (T0 + 200000) 0)
         (run_ops [OpPoll (poll_fail (T0 + 100000)) UPLINK_CELL_B]
            (process_one_command ("disable:" ++ "cell_b") "2.cmd" (env_at T0 0)
               world_all_up))) !! UPLINK_CELL_B = Some u'
    /\ health u' = health (set_enabled true (uplink_at world_all_up UPLINK_CELL_B)).
Proof.
  assert (Hu : g_uplinks world_all_up !! UPLINK_CELL_B
               = Some (uplink_at world_all_up UPLINK_CELL_B))
    by (vm_compute; reflexivity).
  exact (reenabled_uplink_is_stale "cell_b" UPLINK_CELL_B "2.cmd" "3.cmd"
           (env_at T0 0) (env_at (T0 + 200000) 0)
           [OpPoll (poll_fail (T0 + 100000)) UPLINK_CELL_B]
           world_all_up _ eq_refl Hu eq_refl).
Defined.
